(** * Inode cache (fs/inode.c) and ext2 metadata helpers (tools/demo/vfs/ext2/ext2.c)

    A shallow embedding of the in-core inode table of [fs/inode.c] and of
    the bitmap cache, the block walk and the consistency checkers of
    [tools/demo/vfs/ext2/ext2.c], with the properties the specification
    states about them.

    Conventions.
    - C integers that are computed with are [Z]; an [unsigned long] (32
      bits on i386) wraps modulo [2^32], written out with [wrap32]. Array
      indices, group numbers and the small counters that the code only
      steps within a checked bound are [nat].
    - A C array updated in place is a list with stdpp's lookup and
      insert; a pointer into an array is an index, a pointer that may be
      NULL an [option].
    - The kernel runs the code on one flow of control here: [sleep_on]
      on a lock that is held never returns ([Stuck]), [panic] never
      returns ([Panic]), and a loop that the source does not bound takes
      fuel ([Fuel] when it runs out). The loop of [iput] is also given
      with the other processes running while it sleeps. *)

From Stdlib Require Import ZArith Lia Strings.Byte.
From stdpp Require Import base list strings.

Open Scope Z_scope.

(** ** Outcomes of kernel code *)

Inductive outcome (A : Type) : Type :=
| Ok (a : A)             (* the function returned *)
| Panic (msg : string)   (* panic(): prints and spins in for(;;) *)
| Fault                  (* NULL dereference or read past a buffer *)
| Stuck                  (* sleep_on() with nobody left to wake us *)
| Fuel.                  (* the model's loop bound was reached *)
Arguments Ok {A} a.
Arguments Panic {A} msg.
Arguments Fault {A}.
Arguments Stuck {A}.
Arguments Fuel {A}.

Definition bind {A B} (m : outcome A) (k : A -> outcome B) : outcome B :=
  match m with
  | Ok a => k a
  | Panic s => Panic s
  | Fault => Fault
  | Stuck => Stuck
  | Fuel => Fuel
  end.

Notation "'let*' x ':=' m 'in' k" := (bind m (fun x => k))
  (at level 10, x pattern, m at level 100, k at level 200).

Definition wrap32 (z : Z) : Z := z mod 2 ^ 32.

(** A buffer of the buffer cache: the block it holds and its bytes. *)
Record buffer_head : Type := mk_bh {
  b_blocknr : Z;
  b_data : list byte
}.

(** [b_data] is a pointer to [char]; on i386 [char] is signed, so a byte read
    through it is promoted to an [int] in [-128, 127]. *)
Definition char_of_byte (b : byte) : Z :=
  let u := Z.of_N (Byte.to_N b) in
  if u <? 128 then u else u - 256.

(** Reading word [idx] of [b_data] seen as an array of [unsigned long]:
    four bytes, little endian. *)
Definition read_ulong (data : list byte) (idx : Z) : outcome Z :=
  if idx <? 0 then Fault else
  match take 4 (drop (4 * Z.to_nat idx) data) with
  | [b0; b1; b2; b3] =>
      Ok (Z.of_N (Byte.to_N b0) + 2 ^ 8 * Z.of_N (Byte.to_N b1)
          + 2 ^ 16 * Z.of_N (Byte.to_N b2) + 2 ^ 24 * Z.of_N (Byte.to_N b3))
  | _ => Fault
  end.

Module Ext2.

(** *** count_free *)

Definition nibblemap : list Z :=
  [4; 3; 3; 2; 3; 2; 2; 1; 3; 2; 2; 1; 2; 1; 1; 0].

(** The body of the [for] loop of [ext2_counts_free], [n] iterations
    left, [i] the loop variable, [sum] the [unsigned long] accumulator. *)
Fixpoint counts_free_loop (data : list byte) (n : nat) (i : nat) (sum : Z)
  : outcome Z :=
  match n with
  | O => Ok sum
  | S n' =>
      match data !! i with
      | None => Fault
      | Some b =>
          let c := char_of_byte b in
          counts_free_loop data n' (S i)
            (wrap32 (sum + (nibblemap !!! Z.to_nat (Z.land c 15)
                            + nibblemap !!! Z.to_nat (Z.land (Z.shiftr c 4) 15))))
      end
  end.

Definition ext2_counts_free (map : option buffer_head) (numchars : Z)
  : outcome Z :=
  match map with
  | None => Ok 0
  | Some bh => counts_free_loop (b_data bh) (Z.to_nat numchars) 0 0
  end.

(** The number of zero bits of a byte and of a run of bytes, counted bit
    by bit: what [ext2_counts_free] is compared with. *)
Definition zero_bits_byte (b : byte) : Z :=
  let u := Z.of_N (Byte.to_N b) in
  Z.of_nat (length (filter (fun k => Z.testbit u (Z.of_nat k) = false) (seq 0 8))).

Definition zero_bits (l : list byte) : Z :=
  foldr (fun b acc => zero_bits_byte b + acc) 0 l.

(** *** Block resolution (the walk over [i_data] in [ext2_inode]) *)

(** Modelled from the spec: the layout constants of [linux/ext2_fs.h],
    which is not among the sources. An inode has 12 direct block
    pointers, then the single-, the double- and the triple-indirect
    pointer (slots 12, 13 and 14 of [i_data]). *)
Definition EXT2_NDIR_BLOCKS : Z := 12.
Definition EXT2_IND_BLOCK : Z := EXT2_NDIR_BLOCKS.
Definition EXT2_DIND_BLOCK : Z := EXT2_IND_BLOCK + 1.
Definition EXT2_TIND_BLOCK : Z := EXT2_DIND_BLOCK + 1.

(** Modelled from the spec: the buffer cache is outside this code and
    is used through [read_block(device, block_number) -> buffer]. The
    block device as [bread] sees it: [None] when the read fails. *)
Definition blockdev : Type := Z -> option buffer_head.

Definition bread (dev : blockdev) (block : Z) : option buffer_head := dev block.

(** [bread] a block, panic with [msg] when it cannot be read, and take
    word [idx] of it. *)
Definition bread_word (dev : blockdev) (msg : string) (block idx : Z)
  : outcome Z :=
  match bread dev block with
  | None => Panic msg
  | Some bh => read_ulong (b_data bh) idx
  end.

(** *** The super block and the bitmap caches *)

Record ext2_group_desc : Type := mk_gd {
  bg_block_bitmap : Z;
  bg_inode_bitmap : Z;
  bg_inode_table : Z;
  bg_free_blocks_count : Z;
  bg_free_inodes_count : Z;
  bg_used_dirs_count : Z
}.

(** The fields of [struct super_block], of its [u.ext2_sb] and of the
    on-disk super block [s_es] that this code reads or writes. A buffer
    of group descriptors is kept as the descriptors it holds; [None] in
    an array of buffers is a NULL pointer. The two bitmap arrays of each
    cache have [EXT2_MAX_GROUP_LOADED] entries. *)
Record super_block : Type := mk_sb {
  s_blocksize : Z;
  s_lock : bool;
  s_first_data_block : Z;
  s_free_blocks_count : Z;
  s_free_inodes_count : Z;
  s_groups_count : nat;
  s_desc_per_block : nat;
  s_blocks_per_group : Z;
  s_inodes_per_group : Z;
  s_itb_per_group : nat;
  s_group_desc : list (option (list ext2_group_desc));
  s_loaded_inode_bitmaps : nat;
  s_loaded_block_bitmaps : nat;
  s_inode_bitmap_number : list nat;
  s_inode_bitmap : list (option buffer_head);
  s_block_bitmap_number : list nat;
  s_block_bitmap : list (option buffer_head)
}.

Definition set_s_lock (sb : super_block) (l : bool) : super_block :=
  mk_sb (s_blocksize sb) l (s_first_data_block sb)
    (s_free_blocks_count sb) (s_free_inodes_count sb) (s_groups_count sb)
    (s_desc_per_block sb) (s_blocks_per_group sb) (s_inodes_per_group sb)
    (s_itb_per_group sb) (s_group_desc sb)
    (s_loaded_inode_bitmaps sb) (s_loaded_block_bitmaps sb)
    (s_inode_bitmap_number sb) (s_inode_bitmap sb)
    (s_block_bitmap_number sb) (s_block_bitmap sb).

Definition set_block_cache (sb : super_block) (loaded : nat)
    (numbers : list nat) (bitmaps : list (option buffer_head)) : super_block :=
  mk_sb (s_blocksize sb) (s_lock sb) (s_first_data_block sb)
    (s_free_blocks_count sb) (s_free_inodes_count sb) (s_groups_count sb)
    (s_desc_per_block sb) (s_blocks_per_group sb) (s_inodes_per_group sb)
    (s_itb_per_group sb) (s_group_desc sb)
    (s_loaded_inode_bitmaps sb) loaded
    (s_inode_bitmap_number sb) (s_inode_bitmap sb)
    numbers bitmaps.

Definition set_inode_cache (sb : super_block) (loaded : nat)
    (numbers : list nat) (bitmaps : list (option buffer_head)) : super_block :=
  mk_sb (s_blocksize sb) (s_lock sb) (s_first_data_block sb)
    (s_free_blocks_count sb) (s_free_inodes_count sb) (s_groups_count sb)
    (s_desc_per_block sb) (s_blocks_per_group sb) (s_inodes_per_group sb)
    (s_itb_per_group sb) (s_group_desc sb)
    loaded (s_loaded_block_bitmaps sb)
    numbers bitmaps
    (s_block_bitmap_number sb) (s_block_bitmap sb).

(** What the ext2 code runs against: the super block, the device, the
    buffers it holds a reference to ([bread] takes one, [brelse] gives
    one back; kept as block numbers, newest first) and what [printk]
    has written (format strings, arguments not rendered). *)
Record fs : Type := mk_fs {
  fs_sb : super_block;
  fs_dev : blockdev;
  fs_held : list Z;
  fs_log : list string
}.

Definition printk (st : fs) (msg : string) : fs :=
  mk_fs (fs_sb st) (fs_dev st) (fs_held st) (fs_log st ++ [msg]).

Definition with_sb (st : fs) (sb : super_block) : fs :=
  mk_fs sb (fs_dev st) (fs_held st) (fs_log st).

(** Drop the first occurrence of [x]: one reference to block [x] given
    back. *)
Fixpoint remove_first (x : Z) (l : list Z) : list Z :=
  match l with
  | [] => []
  | y :: l' => if decide (x = y) then l' else y :: remove_first x l'
  end.

(** Modelled from the spec: [release_block(buffer)] of the buffer
    cache returns the caller's reference; [brelse(NULL)] does nothing. *)
Definition brelse (st : fs) (bh : option buffer_head) : fs :=
  match bh with
  | None => st
  | Some b => mk_fs (fs_sb st) (fs_dev st)
                (remove_first (b_blocknr b) (fs_held st)) (fs_log st)
  end.

(** [bread] through the state: a successful read takes a reference. *)
Definition fs_bread (st : fs) (block : Z) : fs * option buffer_head :=
  match bread (fs_dev st) block with
  | None => (st, None)
  | Some b => (mk_fs (fs_sb st) (fs_dev st) (b_blocknr b :: fs_held st)
                 (fs_log st), Some b)
  end.

Definition get_group_desc (sb : super_block) (block_group : nat)
  : outcome ext2_group_desc :=
  if decide (s_groups_count sb <= block_group)%nat then
    Panic "get_group_desc: block_group > groups_count"
  else if decide (s_desc_per_block sb = 0%nat) then Fault
  else
    let group_desc := (block_group / s_desc_per_block sb)%nat in
    let desc := (block_group mod s_desc_per_block sb)%nat in
    match s_group_desc sb !! group_desc with
    | None => Fault
    | Some None => Panic "Group descriptor not loaded"
    | Some (Some gdps) =>
        match gdps !! desc with
        | None => Fault
        | Some gdp => Ok gdp
        end
    end.

Definition read_block_bitmap (st : fs) (block_group bitmap_nr : nat)
  : outcome fs :=
  let* gdp := get_group_desc (fs_sb st) block_group in
  let '(st, bh) := fs_bread st (bg_block_bitmap gdp) in
  let st := match bh with
            | None => printk st "Cannot read block bitmap\n"
            | Some _ => st
            end in
  let sb := fs_sb st in
  Ok (with_sb st
        (set_block_cache sb (s_loaded_block_bitmaps sb)
           (<[bitmap_nr := block_group]> (s_block_bitmap_number sb))
           (<[bitmap_nr := bh]> (s_block_bitmap sb)))).

(** [for (i = 0; i < loaded && number[i] != block_group; i++) ;] run
    from [i] with [n] slots left to look at: the value of [i] at exit. *)
Fixpoint lru_scan (number : list nat) (block_group : nat) (i n : nat) : nat :=
  match n with
  | O => i
  | S n' => if decide (number !!! i = block_group) then i
            else lru_scan number block_group (S i) n'
  end.

(** [for (j = i; j > 0; j--) a[j] = a[j - 1];] *)
Fixpoint shift_down {A : Type} `{Inhabited A} (j : nat) (a : list A) : list A :=
  match j with
  | O => a
  | S j' => shift_down j' (<[S j' := a !!! j']> a)
  end.

(** Move-to-front as the specification words it: entry [i] goes to the
    front and the entries before it move down by one. *)
Definition promote {A : Type} `{Inhabited A} (i : nat) (a : list A) : list A :=
  a !!! i :: take i a ++ drop (S i) a.

(** A group is a hit at [i] when [i] is the first of the [loaded] slots
    that carries its number. *)
Definition hit_at (loaded : nat) (number : list nat) (block_group i : nat)
  : Prop :=
  (i < loaded)%nat /\ number !! i = Some block_group
  /\ forall k, (k < i)%nat -> number !! k <> Some block_group.

Definition miss (loaded : nat) (number : list nat) (block_group : nat) : Prop :=
  forall k, (k < loaded)%nat -> number !! k <> Some block_group.

Section WithCapacity.
Variable EXT2_MAX_GROUP_LOADED : nat.

Definition load__block_bitmap (st : fs) (block_group : nat)
  : outcome (fs * nat) :=
  let sb := fs_sb st in
  if decide (s_groups_count sb <= block_group)%nat then
    Panic "block_group >= groups_count"
  else if decide (s_groups_count sb <= EXT2_MAX_GROUP_LOADED)%nat then
    match s_block_bitmap sb !!! block_group with
    | Some _ =>
        if decide (s_block_bitmap_number sb !!! block_group <> block_group)
        then Panic "block_group != block_bitmap_number"
        else Ok (st, block_group)
    | None =>
        let* st := read_block_bitmap st block_group block_group in
        Ok (st, block_group)
    end
  else
    (* LRU *)
    let loaded := s_loaded_block_bitmaps sb in
    let i := lru_scan (s_block_bitmap_number sb) block_group 0 loaded in
    if decide ((i < loaded)%nat /\ s_block_bitmap_number sb !!! i = block_group)
    then
      let block_bitmap_number := s_block_bitmap_number sb !!! i in
      let block_bitmap := s_block_bitmap sb !!! i in
      Ok (with_sb st
            (set_block_cache sb loaded
               (<[0%nat := block_bitmap_number]>
                  (shift_down i (s_block_bitmap_number sb)))
               (<[0%nat := block_bitmap]>
                  (shift_down i (s_block_bitmap sb)))), 0%nat)
    else
      let '(st, loaded) :=
        if decide (loaded < EXT2_MAX_GROUP_LOADED)%nat then (st, S loaded)
        else (brelse st (s_block_bitmap sb !!! (EXT2_MAX_GROUP_LOADED - 1)%nat),
              loaded) in
      let st := with_sb st
                  (set_block_cache sb loaded
                     (shift_down (loaded - 1) (s_block_bitmap_number sb))
                     (shift_down (loaded - 1) (s_block_bitmap sb))) in
      let* st := read_block_bitmap st block_group 0 in
      Ok (st, 0%nat).

Definition load_block_bitmap (st : fs) (block_group : nat)
  : outcome (fs * nat) :=
  let sb := fs_sb st in
  if decide ((0 < s_loaded_block_bitmaps sb)%nat
             /\ s_block_bitmap_number sb !!! 0%nat = block_group)
  then Ok (st, 0%nat)
  else if decide ((s_groups_count sb <= EXT2_MAX_GROUP_LOADED)%nat
                  /\ s_block_bitmap_number sb !!! block_group = block_group
                  /\ s_block_bitmap sb !!! block_group <> None)
  then Ok (st, block_group)
  else load__block_bitmap st block_group.

Definition read_inode_bitmap (st : fs) (block_group bitmap_nr : nat)
  : outcome fs :=
  let* gdp := get_group_desc (fs_sb st) block_group in
  let '(st, bh) := fs_bread st (bg_inode_bitmap gdp) in
  match bh with
  | None => Panic "cannot read inode bitmap"
  | Some _ =>
      let sb := fs_sb st in
      Ok (with_sb st
            (set_inode_cache sb (s_loaded_inode_bitmaps sb)
               (<[bitmap_nr := block_group]> (s_inode_bitmap_number sb))
               (<[bitmap_nr := bh]> (s_inode_bitmap sb))))
  end.

Definition load_inode_bitmap (st : fs) (block_group : nat)
  : outcome (fs * nat) :=
  let st := if decide (s_groups_count (fs_sb st) <= block_group)%nat
            then printk st "block_group >= groups_count\n" else st in
  let sb := fs_sb st in
  if decide ((0 < s_loaded_inode_bitmaps sb)%nat
             /\ s_inode_bitmap_number sb !!! 0%nat = block_group)
  then Ok (st, 0%nat)
  else if decide (s_groups_count sb <= EXT2_MAX_GROUP_LOADED)%nat then
    match s_inode_bitmap sb !!! block_group with
    | Some _ =>
        if decide (s_inode_bitmap_number sb !!! block_group <> block_group)
        then Panic "block_group != inode_bitmap_number"
        else Ok (st, block_group)
    | None =>
        let* st := read_inode_bitmap st block_group block_group in
        Ok (st, block_group)
    end
  else
    (* LRU *)
    let loaded := s_loaded_inode_bitmaps sb in
    let i := lru_scan (s_inode_bitmap_number sb) block_group 0 loaded in
    if decide ((i < loaded)%nat /\ s_inode_bitmap_number sb !!! i = block_group)
    then
      let inode_bitmap_number := s_inode_bitmap_number sb !!! i in
      let inode_bitmap := s_inode_bitmap sb !!! i in
      Ok (with_sb st
            (set_inode_cache sb loaded
               (<[0%nat := inode_bitmap_number]>
                  (shift_down i (s_inode_bitmap_number sb)))
               (<[0%nat := inode_bitmap]>
                  (shift_down i (s_inode_bitmap sb)))), 0%nat)
    else
      let '(st, loaded) :=
        if decide (loaded < EXT2_MAX_GROUP_LOADED)%nat then (st, S loaded)
        else (brelse st (s_inode_bitmap sb !!! (EXT2_MAX_GROUP_LOADED - 1)%nat),
              loaded) in
      let st := with_sb st
                  (set_inode_cache sb loaded
                     (shift_down (loaded - 1) (s_inode_bitmap_number sb))
                     (shift_down (loaded - 1) (s_inode_bitmap sb))) in
      let* st := read_inode_bitmap st block_group 0 in
      Ok (st, 0%nat).

(** *** The consistency checkers *)

(** Modelled from the spec: [test_bit(nr, addr)] of [asm/bitops.h],
    which is not among the sources, tells whether bit [nr] of a bitmap
    is marked in use: bit [nr mod 8] of byte [nr / 8]. *)
Definition test_bit (nr : Z) (data : list byte) : outcome bool :=
  if nr <? 0 then Fault else
  match data !! Z.to_nat (nr / 8) with
  | None => Fault
  | Some b => Ok (Z.testbit (Z.of_N (Byte.to_N b)) (nr mod 8))
  end.

Definition block_in_use (block : Z) (sb : super_block) (map : list byte)
  : outcome bool :=
  if s_blocks_per_group sb =? 0 then Fault
  else test_bit (wrap32 (block - s_first_data_block sb)
                 mod s_blocks_per_group sb) map.

(** Modelled from the spec: [lock_super] and [unlock_super] of
    [linux/locks.h], which is not among the sources, are the per-mount
    serialization: [lock_super] sleeps while the super block is locked
    and then takes the lock, [unlock_super] gives it back. *)
Definition lock_super (st : fs) : outcome fs :=
  if s_lock (fs_sb st) then Stuck
  else Ok (with_sb st (set_s_lock (fs_sb st) true)).

Definition unlock_super (st : fs) : fs :=
  with_sb st (set_s_lock (fs_sb st) false).

(** [for (j = 0; j < desc_blocks; j++)] of [ext2_check_block_bitmap]. *)
Fixpoint check_desc_blocks (st : fs) (data : list byte) (j n : nat)
  : outcome fs :=
  match n with
  | O => Ok st
  | S n' =>
      let* used := test_bit (Z.of_nat j + 1) data in
      let st := if used : bool then st
                else printk st "Descriptor block %d in group is marked free\n" in
      check_desc_blocks st data (S j) n'
  end.

(** [for (j = 0; j < s_itb_per_group; j++)] of the same function. *)
Fixpoint check_inode_table (st : fs) (gdp : ext2_group_desc)
    (data : list byte) (j n : nat) : outcome fs :=
  match n with
  | O => Ok st
  | S n' =>
      let* used := block_in_use (wrap32 (bg_inode_table gdp + Z.of_nat j))
                     (fs_sb st) data in
      let st := if used : bool then st
                else printk st "Block %d of the inode table is marked free\n" in
      check_inode_table st gdp data (S j) n'
  end.

(** The loop over the groups, [n] groups left, [i] the current group. *)
Fixpoint check_block_groups (st : fs) (desc_blocks : nat) (i n : nat)
    (desc_count bitmap_count : Z) : outcome (fs * Z) :=
  match n with
  | O => Ok (st, bitmap_count)
  | S n' =>
      let* gdp := get_group_desc (fs_sb st) i in
      let desc_count := wrap32 (desc_count + bg_free_blocks_count gdp) in
      let* (st, bitmap_nr) := load_block_bitmap st i in
      match s_block_bitmap (fs_sb st) !!! bitmap_nr with
      | None => Fault
      | Some bh =>
          let* used := test_bit 0 (b_data bh) in
          let st := if used : bool then st
                    else printk st "Superblock in group %d is marked free\n" in
          let* st := check_desc_blocks st (b_data bh) 0 desc_blocks in
          let* used := block_in_use (bg_block_bitmap gdp) (fs_sb st)
                         (b_data bh) in
          let st := if used : bool then st
                    else printk st "Block bitmap for group %d is marked free\n" in
          let* used := block_in_use (bg_inode_bitmap gdp) (fs_sb st)
                         (b_data bh) in
          let st := if used : bool then st
                    else printk st "Inode bitmap for group %d is marked free\n" in
          let* st := check_inode_table st gdp (b_data bh) 0
                       (s_itb_per_group (fs_sb st)) in
          let* x := ext2_counts_free (Some bh) (s_blocksize (fs_sb st)) in
          let st := if decide (bg_free_blocks_count gdp <> x)
                    then printk st "Wrong free blocks count for group %d\n"
                    else st in
          check_block_groups st desc_blocks (S i) n' desc_count
            (wrap32 (bitmap_count + x))
      end
  end.

Definition ext2_check_block_bitmap (st : fs) : outcome fs :=
  let* st := lock_super st in
  let sb := fs_sb st in
  if decide (s_desc_per_block sb = 0%nat) then Fault else
  let desc_blocks := ((s_groups_count sb + s_desc_per_block sb - 1)
                      / s_desc_per_block sb)%nat in
  let* (st, bitmap_count) :=
    check_block_groups st desc_blocks 0 (s_groups_count sb) 0 0 in
  let st := if decide (s_free_blocks_count (fs_sb st) <> bitmap_count)
            then printk st "Wrong free blocks count in super block\n"
            else st in
  Ok (unlock_super st).

Fixpoint check_inode_groups (st : fs) (i n : nat)
    (desc_count bitmap_count : Z) : outcome (fs * Z) :=
  match n with
  | O => Ok (st, bitmap_count)
  | S n' =>
      let* gdp := get_group_desc (fs_sb st) i in
      let desc_count := wrap32 (desc_count + bg_free_inodes_count gdp) in
      let* (st, bitmap_nr) := load_inode_bitmap st i in
      let* x := ext2_counts_free (s_inode_bitmap (fs_sb st) !!! bitmap_nr)
                  (s_inodes_per_group (fs_sb st) / 8) in
      let st := if decide (bg_free_inodes_count gdp <> x)
                then printk st "Wrong free inodes count in group %d\n"
                else st in
      check_inode_groups st (S i) n' desc_count (wrap32 (bitmap_count + x))
  end.

Definition ext2_check_inode_bitmap (st : fs) : outcome fs :=
  let* st := lock_super st in
  let* (st, bitmap_count) :=
    check_inode_groups st 0 (s_groups_count (fs_sb st)) 0 0 in
  let st := if decide (s_free_inodes_count (fs_sb st) <> bitmap_count)
            then printk st "Wrong free inodes count in super block\n"
            else st in
  Ok (unlock_super st).

(** *** Runs of the bitmap loaders, and what the cache must satisfy *)

Inductive cache_op : Type :=
| LoadBlock (block_group : nat)
| LoadInode (block_group : nat).

Definition cache_step (st : fs) (op : cache_op) : outcome fs :=
  match op with
  | LoadBlock g => let* (st, _) := load_block_bitmap st g in Ok st
  | LoadInode g => let* (st, _) := load_inode_bitmap st g in Ok st
  end.

Fixpoint cache_run (st : fs) (ops : list cache_op) : outcome fs :=
  match ops with
  | [] => Ok st
  | op :: ops => let* st := cache_step st op in cache_run st ops
  end.

(** The references a cache of [loaded] entries accounts for. *)
Definition held_of (bh : option buffer_head) : list Z :=
  match bh with
  | None => []
  | Some b => [b_blocknr b]
  end.

Definition resident (loaded : nat) (bitmaps : list (option buffer_head))
  : list Z :=
  take loaded bitmaps ≫= held_of.

(** The state of a mount with more groups than cache slots: both caches
    have their fixed size, use at most all of it, and the references held
    are exactly those of the resident bitmaps. *)
Definition cache_ok (st : fs) : Prop :=
  let sb := fs_sb st in
  (EXT2_MAX_GROUP_LOADED < s_groups_count sb)%nat
  /\ (s_loaded_block_bitmaps sb <= EXT2_MAX_GROUP_LOADED)%nat
  /\ length (s_block_bitmap_number sb) = EXT2_MAX_GROUP_LOADED
  /\ length (s_block_bitmap sb) = EXT2_MAX_GROUP_LOADED
  /\ (s_loaded_inode_bitmaps sb <= EXT2_MAX_GROUP_LOADED)%nat
  /\ length (s_inode_bitmap_number sb) = EXT2_MAX_GROUP_LOADED
  /\ length (s_inode_bitmap sb) = EXT2_MAX_GROUP_LOADED
  /\ fs_held st ≡ₚ resident (s_loaded_block_bitmaps sb) (s_block_bitmap sb)
                    ++ resident (s_loaded_inode_bitmaps sb) (s_inode_bitmap sb).

End WithCapacity.

(** [ext2_check_descriptors]: the loop over the groups. [gdp] walks the
    descriptors of the current buffer ([gdps], at index [k]); [block] is
    the first block of group [i]. The result is the [int] returned. *)
Fixpoint check_descriptors_loop (st : fs) (i n : nat) (desc_block : nat)
    (gdps : list ext2_group_desc) (k : nat) (block : Z) : outcome (fs * Z) :=
  match n with
  | O => Ok (st, 1)
  | S n' =>
      let sb := fs_sb st in
      if decide (s_desc_per_block sb = 0%nat) then Fault else
      let* (desc_block, gdps, k) :=
        if decide ((i mod s_desc_per_block sb)%nat = 0%nat) then
          match s_group_desc sb !! desc_block with
          | Some (Some g) => Ok (S desc_block, g, 0%nat)
          | _ => Fault
          end
        else Ok (desc_block, gdps, k) in
      match gdps !! k with
      | None => Fault
      | Some gdp =>
          let last := wrap32 (block + s_blocks_per_group sb) in
          if (bg_block_bitmap gdp <? block) || (last <=? bg_block_bitmap gdp)
          then Ok (printk st "EXT2-fs: block bitmap for group no in group\n", 0)
          else if (bg_inode_bitmap gdp <? block)
                  || (last <=? bg_inode_bitmap gdp)
          then Ok (printk st "EXT2-fs: inode bitmap for group no in group\n", 0)
          else if (bg_inode_table gdp <? block)
                  || (last <=? bg_inode_table gdp)
          then Ok (printk st "EXT2-fs: inode table for group no in group\n", 0)
          else check_descriptors_loop st (S i) n' desc_block gdps (S k) last
      end
  end.

Definition ext2_check_descriptors (st : fs) : outcome (fs * Z) :=
  check_descriptors_loop st 0 (s_groups_count (fs_sb st)) 0 [] 0
    (s_first_data_block (fs_sb st)).

(** A small mount for the cache: three groups, two cache slots, the
    block bitmaps of groups 1 and 0 resident (blocks 41 and 40). *)
Definition example_dev : blockdev :=
  fun block => if (40 <=? block) && (block <? 60) then Some (mk_bh block [x0f])
               else None.

Definition cache_example : fs :=
  mk_fs
    (mk_sb 1 false 1 0 0 3 32 8 8 1
       [Some [mk_gd 40 50 60 0 0 0; mk_gd 41 51 61 0 0 0; mk_gd 42 52 62 0 0 0]]
       0 2 [0; 0]%nat [None; None]
       [1; 0]%nat [Some (mk_bh 41 [x0f]); Some (mk_bh 40 [x0f])])
    example_dev [41; 40] [].

(** What a checker may touch: [block_frame st st'] says that [st'] has
    the device of [st] and its super block up to the three fields of the
    block-bitmap cache; [inode_frame] is the same for the inode-bitmap
    cache; [print_frame] allows no change but to the log. *)
Definition block_frame (st st' : fs) : Prop :=
  fs_dev st' = fs_dev st
  /\ fs_sb st'
     = set_block_cache (fs_sb st) (s_loaded_block_bitmaps (fs_sb st'))
         (s_block_bitmap_number (fs_sb st')) (s_block_bitmap (fs_sb st')).

Definition inode_frame (st st' : fs) : Prop :=
  fs_dev st' = fs_dev st
  /\ fs_sb st'
     = set_inode_cache (fs_sb st) (s_loaded_inode_bitmaps (fs_sb st'))
         (s_inode_bitmap_number (fs_sb st')) (s_inode_bitmap (fs_sb st')).

Definition print_frame (st st' : fs) : Prop :=
  fs_dev st' = fs_dev st /\ fs_sb st' = fs_sb st /\ fs_held st' = fs_held st.

(** The descriptor of group [g] in a descriptor table given buffer by
    buffer: the buffers laid end to end. *)
Definition group_desc_table (bufs : list (list ext2_group_desc))
  : list ext2_group_desc := mjoin bufs.

(** The three block numbers of a descriptor lie in the blocks of group
    [g]: what [ext2_check_descriptors] tests, without the wrap-around. *)
Definition desc_in_group (sb : super_block) (g : nat) (gdp : ext2_group_desc)
  : Prop :=
  let first := s_first_data_block sb + Z.of_nat g * s_blocks_per_group sb in
  let last := first + s_blocks_per_group sb in
  first <= bg_block_bitmap gdp < last
  /\ first <= bg_inode_bitmap gdp < last
  /\ first <= bg_inode_table gdp < last.

(** The block-bitmap cache is coherent when every resident slot holds
    what [bread] gives for the bitmap block named by the descriptor of
    the group the slot is numbered with. *)
Definition block_cache_coherent (st : fs) : Prop :=
  let sb := fs_sb st in
  Forall2
    (fun g bh => exists gdp, get_group_desc sb g = Ok gdp
                             /\ bh = bread (fs_dev st) (bg_block_bitmap gdp))
    (take (s_loaded_block_bitmaps sb) (s_block_bitmap_number sb))
    (take (s_loaded_block_bitmaps sb) (s_block_bitmap sb)).

(** The groups resident in the block-bitmap cache, most recently used
    first. *)
Definition resident_groups (sb : super_block) : list nat :=
  take (s_loaded_block_bitmaps sb) (s_block_bitmap_number sb).

(** The same for the inode-bitmap cache, where in addition no resident
    slot is NULL. *)
Definition inode_cache_coherent (st : fs) : Prop :=
  let sb := fs_sb st in
  Forall2
    (fun g bh => exists gdp b, get_group_desc sb g = Ok gdp
                               /\ bread (fs_dev st) (bg_inode_bitmap gdp) = Some b
                               /\ bh = Some b)
    (take (s_loaded_inode_bitmaps sb) (s_inode_bitmap_number sb))
    (take (s_loaded_inode_bitmaps sb) (s_inode_bitmap sb)).

(** The head of [ext2_inode]: where the on-disk inode number [ino] is,
    as the block of the inode table and the index in that block.
    [i_ino] and the locals are [unsigned long]. [EXT2_INODES_PER_BLOCK]
    comes from [linux/ext2_fs.h], which is not among the sources, and is
    a parameter. When the descriptor buffer is not loaded the code
    prints and then reads through the NULL pointer. *)
Definition ext2_inode_location (sb : super_block) (inodes_per_block : Z)
    (ino : Z) : outcome (Z * Z) :=
  if (s_inodes_per_group sb =? 0) || (inodes_per_block =? 0) then Fault else
  let block_group := wrap32 (ino - 1) / s_inodes_per_group sb in
  if Z.of_nat (s_groups_count sb) <=? block_group
  then Panic "EXT2-fs: group > groups count"
  else if decide (s_desc_per_block sb = 0%nat) then Fault
  else
    let group_desc := (Z.to_nat block_group / s_desc_per_block sb)%nat in
    let desc := (Z.to_nat block_group mod s_desc_per_block sb)%nat in
    match s_group_desc sb !! group_desc with
    | Some (Some gdps) =>
        match gdps !! desc with
        | None => Fault
        | Some gdp =>
            Ok (wrap32 (bg_inode_table gdp
                        + (wrap32 (ino - 1) mod s_inodes_per_group sb)
                          / inodes_per_block),
                wrap32 (ino - 1) mod inodes_per_block)
        end
    | _ => Fault
    end.

(** The walk over [i_data] in [ext2_inode], as that function runs it:
    the file offset is the local [offset], set to 0 just before, and the
    walk starts from [block = offset / s_blocksize]. The result is the
    block number that reaches the label [load_block]. [block] and
    [addr_per_block] are [unsigned long]: every subtraction and product
    wraps. [EXT2_ADDR_PER_BLOCK] comes from [linux/ext2_fs.h], which is
    not among the sources, and is a parameter. The inode's [i_data] has
    15 entries. *)
Definition ext2_inode_block (sb : super_block) (dev : blockdev)
    (i_data : list Z) (addr_per_block : Z) : outcome Z :=
  let offset := 0 in
  if s_blocksize sb =? 0 then Fault else
  let block := offset / s_blocksize sb in
  if block <? EXT2_NDIR_BLOCKS then Ok (i_data !!! Z.to_nat block) else
  let block := wrap32 (block - EXT2_NDIR_BLOCKS) in
  if block <? addr_per_block then
    bread_word dev "Unable to read indirect-block"
      (i_data !!! Z.to_nat EXT2_IND_BLOCK) block
  else
  let block := wrap32 (block - addr_per_block) in
  if block <? wrap32 (addr_per_block * addr_per_block) then
    let* tmp := bread_word dev "Unable to load double-block one"
                  (i_data !!! Z.to_nat EXT2_DIND_BLOCK)
                  (block / addr_per_block) in
    bread_word dev "Unable to load double-block two" tmp
      (block mod addr_per_block)
  else
  let block := wrap32 (block - wrap32 (addr_per_block * addr_per_block)) in
  if 0 <? block then
    if (addr_per_block =? 0) || (wrap32 (addr_per_block * addr_per_block) =? 0)
    then Fault else
    let* tmp := bread_word dev "Unable to load triply-block one"
                  EXT2_TIND_BLOCK
                  (block / wrap32 (addr_per_block * addr_per_block)) in
    let* tmp := bread_word dev "Unable to load triply-block two" tmp
                  ((block / addr_per_block) mod addr_per_block) in
    bread_word dev "Unable to load triply-block three" tmp
      (block mod addr_per_block)
  else Ok block.

(** A small mount for the descriptors: three groups of 8 blocks from
    block 1 on, two descriptors in a descriptor block (the second block
    ends in an unused one), every group with its bitmaps and inode table
    in its own blocks, one cache slot for every group, nothing loaded. *)
Definition desc_example : fs :=
  mk_fs
    (mk_sb 1 false 1 0 0 3 2 8 8 1
       [Some [mk_gd 3 4 5 0 0 0; mk_gd 11 12 13 0 0 0];
        Some [mk_gd 19 20 21 0 0 0; mk_gd 0 0 0 0 0 0]]
       0 0 [0; 0; 0]%nat [None; None; None]
       [0; 0; 0]%nat [None; None; None])
    (fun block => if (0 <=? block) && (block <? 30)
                  then Some (mk_bh block [x0f]) else None)
    [] [].

End Ext2.

(** ** fs/inode.c *)

Module Inode.

(** The part of [struct m_inode] that is the on-disk inode: what
    [read_inode] and [write_inode] copy. *)
Record d_inode : Type := mk_d_inode {
  i_mode : Z;
  i_uid : Z;
  i_size : Z;
  i_time : Z;
  i_gid : Z;
  i_nlinks : Z;
  i_zone : list Z
}.

(** [struct m_inode]. Its declaration is in [linux/fs.h], which is not
    among the sources: the fields are those [fs/inode.c] uses, the flag
    bytes [i_lock], [i_dirt], [i_pipe] and [i_mount] are booleans, and
    [i_dev], [i_num] and [i_count] are integers wide enough for what is
    stored in them, so that a count taken below zero would show. The
    wait queue [i_wait] has no content on one flow of control. *)
Record m_inode : Type := mk_m_inode {
  i_disk : d_inode;
  i_lock : bool;
  i_dirt : bool;
  i_pipe : bool;
  i_mount : bool;
  i_dev : Z;
  i_num : Z;
  i_count : Z
}.

Definition set_i_disk (a : m_inode) (d : d_inode) : m_inode :=
  mk_m_inode d (i_lock a) (i_dirt a) (i_pipe a) (i_mount a)
    (i_dev a) (i_num a) (i_count a).
Definition set_i_lock (a : m_inode) (l : bool) : m_inode :=
  mk_m_inode (i_disk a) l (i_dirt a) (i_pipe a) (i_mount a)
    (i_dev a) (i_num a) (i_count a).
Definition set_i_dirt (a : m_inode) (d : bool) : m_inode :=
  mk_m_inode (i_disk a) (i_lock a) d (i_pipe a) (i_mount a)
    (i_dev a) (i_num a) (i_count a).
Definition set_i_pipe (a : m_inode) (p : bool) : m_inode :=
  mk_m_inode (i_disk a) (i_lock a) (i_dirt a) p (i_mount a)
    (i_dev a) (i_num a) (i_count a).
Definition set_i_dev (a : m_inode) (dev : Z) : m_inode :=
  mk_m_inode (i_disk a) (i_lock a) (i_dirt a) (i_pipe a) (i_mount a)
    dev (i_num a) (i_count a).
Definition set_i_num (a : m_inode) (nr : Z) : m_inode :=
  mk_m_inode (i_disk a) (i_lock a) (i_dirt a) (i_pipe a) (i_mount a)
    (i_dev a) nr (i_count a).
Definition set_i_count (a : m_inode) (c : Z) : m_inode :=
  mk_m_inode (i_disk a) (i_lock a) (i_dirt a) (i_pipe a) (i_mount a)
    (i_dev a) (i_num a) c.

(** [memset(inode, 0, sizeof( *inode))]. *)
Definition zero_inode : m_inode :=
  mk_m_inode (mk_d_inode 0 0 0 0 0 0 (replicate 9 0))
    false false false false 0 0 0.

(** An entry of the [super_block] table, as far as this file reads it.
    [s_imount] points into [inode_table]: a slot index, [None] for NULL. *)
Record super_block : Type := mk_super_block {
  s_dev : Z;
  s_imount : option nat;
  s_imap_blocks : Z;
  s_zmap_blocks : Z
}.

(** A block of the inode area of a device, as [read_inode] and
    [write_inode] see it through [b_data]: an array of [d_inode]. *)
Definition inode_block : Type := Z -> d_inode.

(** The kernel state this file works on. A pointer into [inode_table]
    is a slot index; [last_inode] is the static cursor of
    [get_empty_inode]. [disk dev block] is what [bread] returns ([None]
    when the read fails); buffers are written through. [klog] is what
    [printk] has written. *)
Record kernel : Type := mk_kernel {
  inode_table : list m_inode;
  last_inode : nat;
  super_blocks : list super_block;
  disk : Z -> Z -> option inode_block;
  klog : list string
}.

Definition NR_INODE (st : kernel) : nat := length (inode_table st).

Definition set_table (st : kernel) (t : list m_inode) : kernel :=
  mk_kernel t (last_inode st) (super_blocks st) (disk st) (klog st).
Definition set_last_inode (st : kernel) (l : nat) : kernel :=
  mk_kernel (inode_table st) l (super_blocks st) (disk st) (klog st).
Definition set_disk (st : kernel) (d : Z -> Z -> option inode_block) : kernel :=
  mk_kernel (inode_table st) (last_inode st) (super_blocks st) d (klog st).
Definition printk (st : kernel) (msg : string) : kernel :=
  mk_kernel (inode_table st) (last_inode st) (super_blocks st) (disk st)
    (klog st ++ [msg]).

(** [*inode] and [*inode = a] for a pointer into the table. *)
Definition get_inode (st : kernel) (inode : nat) : outcome m_inode :=
  match inode_table st !! inode with
  | Some a => Ok a
  | None => Fault
  end.

Definition set_inode (st : kernel) (inode : nat) (a : m_inode) : kernel :=
  set_table st (<[inode := a]> (inode_table st)).

(** [wait_on_inode]: with the lock held the caller sleeps, and on one
    flow of control nobody is left to release it. *)
Definition wait_on_inode (st : kernel) (inode : nat) : outcome kernel :=
  let* a := get_inode st inode in
  if i_lock a then Stuck else Ok st.

Definition lock_inode (st : kernel) (inode : nat) : outcome kernel :=
  let* a := get_inode st inode in
  if i_lock a then Stuck else Ok (set_inode st inode (set_i_lock a true)).

Definition unlock_inode (st : kernel) (inode : nat) : outcome kernel :=
  let* a := get_inode st inode in
  Ok (set_inode st inode (set_i_lock a false)).

(** Modelled from the spec: [get_super] is [superblock_for(device)] of
    the mount table ([fs/super.c] is not among the sources): the entry
    of the table for that device, NULL when there is none. *)
Definition get_super (st : kernel) (dev : Z) : option super_block :=
  list_find (fun sb => s_dev sb = dev) (super_blocks st) ≫= fun p => Some p.2.

Definition bread (st : kernel) (dev block : Z) : option inode_block :=
  disk st dev block.

(** [bh->b_data[slot] = d; bh->b_dirt = 1; brelse(bh)] on a buffer that
    is written through. *)
Definition write_block (st : kernel) (dev block slot : Z) (d : d_inode)
  : kernel :=
  set_disk st (fun dev' block' =>
    if decide (dev' = dev /\ block' = block) then
      match disk st dev block with
      | Some data => Some (fun slot' => if decide (slot' = slot) then d
                                        else data slot')
      | None => None
      end
    else disk st dev' block').

(** Modelled from the spec: [sync_dev] is [sync_device(device)] of the
    buffer cache, which persists the buffers of a device; buffers are
    written through here, so there is nothing left to do. *)
Definition sync_dev (st : kernel) (dev : Z) : kernel := st.

(** Modelled from the spec: [truncate] releases all the data blocks of
    the inode ([fs/truncate.c] is not among the sources): no block
    pointer and no size are left, and the in-core copy now differs from
    the disk. *)
Definition truncate (st : kernel) (inode : nat) : outcome kernel :=
  let* a := get_inode st inode in
  let d := i_disk a in
  Ok (set_inode st inode
        (set_i_dirt
           (set_i_disk a (mk_d_inode (i_mode d) (i_uid d) 0 (i_time d)
                            (i_gid d) (i_nlinks d)
                            (replicate (length (i_zone d)) 0)))
           true)).

(** Modelled from the spec: [free_inode] marks the slot reclaimable
    ([fs/bitmap.c] is not among the sources): the slot is FREE, that is
    count 0, unlocked and clean. *)
Definition free_inode (st : kernel) (inode : nat) : outcome kernel :=
  let* a := get_inode st inode in
  Ok (set_inode st inode
        (set_i_count (set_i_dirt (set_i_lock a false) false) 0)).

Section WithConstants.
(** [INODES_PER_BLOCK] and [ROOT_INO] come from [linux/fs.h] and the
    test [S_ISBLK] on a mode from [sys/stat.h]; neither header is among
    the sources. *)
Variable INODES_PER_BLOCK : Z.
Variable ROOT_INO : Z.
Variable S_ISBLK : Z -> bool.

(** The block and the slot of inode [nr] in the inode area; [int]
    arithmetic, so division truncates towards zero. *)
Definition inode_block_nr (sb : super_block) (nr : Z) : Z :=
  2 + s_imap_blocks sb + s_zmap_blocks sb + Z.quot (nr - 1) INODES_PER_BLOCK.

Definition inode_slot (nr : Z) : Z := Z.rem (nr - 1) INODES_PER_BLOCK.

Definition write_inode (st : kernel) (inode : nat) : outcome kernel :=
  let* st := lock_inode st inode in
  let* a := get_inode st inode in
  if negb (i_dirt a) || (i_dev a =? 0) then unlock_inode st inode
  else
    match get_super st (i_dev a) with
    | None => Panic "trying to write inode without device"
    | Some sb =>
        let block := inode_block_nr sb (i_num a) in
        match bread st (i_dev a) block with
        | None => Panic "unable to read i-node block"
        | Some _ =>
            let st := write_block st (i_dev a) block (inode_slot (i_num a))
                        (i_disk a) in
            let st := set_inode st inode (set_i_dirt a false) in
            unlock_inode st inode
        end
    end.

Definition read_inode (st : kernel) (inode : nat) : outcome kernel :=
  let* st := lock_inode st inode in
  let* a := get_inode st inode in
  match get_super st (i_dev a) with
  | None => Panic "tring to read inode without dev"
  | Some sb =>
      let block := inode_block_nr sb (i_num a) in
      match bread st (i_dev a) block with
      | None => Panic "unable to read i_node block"
      | Some data =>
          let st := set_inode st inode
                      (set_i_disk a (data (inode_slot (i_num a)))) in
          unlock_inode st inode
      end
  end.

(** [iput] from the label [repeat] on. *)
Fixpoint iput_repeat (fuel : nat) (st : kernel) (inode : nat)
  : outcome kernel :=
  match fuel with
  | O => Fuel
  | S fuel =>
      let* a := get_inode st inode in
      if 1 <? i_count a then
        Ok (set_inode st inode (set_i_count a (i_count a - 1)))
      else if i_nlinks (i_disk a) =? 0 then
        let* st := truncate st inode in
        free_inode st inode
      else if i_dirt a then
        let* st := write_inode st inode in   (* we can sleep - so do again *)
        let* st := wait_on_inode st inode in
        iput_repeat fuel st inode
      else
        Ok (set_inode st inode (set_i_count a (i_count a - 1)))
  end.

Definition iput (fuel : nat) (st : kernel) (inode : option nat)
  : outcome kernel :=
  match inode with
  | None => Ok st
  | Some inode =>
      let* st := wait_on_inode st inode in
      let* a := get_inode st inode in
      if i_count a =? 0 then Panic "iput: trying to free free inode"
      else if i_pipe a then
        (* wake_up(&inode->i_wait) *)
        let a := set_i_count a (i_count a - 1) in
        if negb (i_count a =? 0) then Ok (set_inode st inode a)
        else
          (* free_page(inode->i_size) *)
          Ok (set_inode st inode
                (set_i_pipe (set_i_dirt (set_i_count a 0) false) false))
      else if i_dev a =? 0 then
        Ok (set_inode st inode (set_i_count a (i_count a - 1)))
      else
        let* st :=
          if S_ISBLK (i_mode (i_disk a)) then
            wait_on_inode (sync_dev st (i_zone (i_disk a) !!! 0%nat)) inode
          else Ok st in
        iput_repeat fuel st inode
  end.

(** *** [iput] while other processes run

    [write_inode] can sleep, and the comment at its call in [iput] says
    so: "we can sleep - so do again". While the caller sleeps the other
    processes run. [others k st] is the state they have made of [st] by
    the time the [k]-th write of the loop (counted from 0) is over and
    the caller looks at the inode again. With [others] the identity
    this is [iput_repeat]. *)
Fixpoint iput_repeat_with (others : nat -> kernel -> kernel) (fuel : nat)
    (k : nat) (st : kernel) (inode : nat) : outcome kernel :=
  match fuel with
  | O => Fuel
  | S fuel =>
      let* a := get_inode st inode in
      if 1 <? i_count a then
        Ok (set_inode st inode (set_i_count a (i_count a - 1)))
      else if i_nlinks (i_disk a) =? 0 then
        let* st := truncate st inode in
        free_inode st inode
      else if i_dirt a then
        let* st := write_inode st inode in
        let st := others k st in
        let* st := wait_on_inode st inode in
        iput_repeat_with others fuel (S k) st inode
      else
        Ok (set_inode st inode (set_i_count a (i_count a - 1)))
  end.

Definition iput_with (others : nat -> kernel -> kernel) (fuel : nat)
    (st : kernel) (inode : option nat) : outcome kernel :=
  match inode with
  | None => Ok st
  | Some inode =>
      let* st := wait_on_inode st inode in
      let* a := get_inode st inode in
      if i_count a =? 0 then Panic "iput: trying to free free inode"
      else if i_pipe a then
        let a := set_i_count a (i_count a - 1) in
        if negb (i_count a =? 0) then Ok (set_inode st inode a)
        else
          Ok (set_inode st inode
                (set_i_pipe (set_i_dirt (set_i_count a 0) false) false))
      else if i_dev a =? 0 then
        Ok (set_inode st inode (set_i_count a (i_count a - 1)))
      else
        let* st :=
          if S_ISBLK (i_mode (i_disk a)) then
            wait_on_inode (sync_dev st (i_zone (i_disk a) !!! 0%nat)) inode
          else Ok st in
        iput_repeat_with others fuel 0 st inode
  end.

(** [sync_inodes]. *)
Fixpoint sync_inodes_loop (st : kernel) (i n : nat) : outcome kernel :=
  match n with
  | O => Ok st
  | S n =>
      let* st := wait_on_inode st i in
      let* a := get_inode st i in
      let* st := if i_dirt a && negb (i_pipe a) then write_inode st i
                 else Ok st in
      sync_inodes_loop st (S i) n
  end.

Definition sync_inodes (st : kernel) : outcome kernel :=
  sync_inodes_loop st 0 (NR_INODE st).

(** The [for] loop of [get_empty_inode], [n] rounds left: the cursor
    and the candidate at exit. *)
Fixpoint scan_free (t : list m_inode) (n : nat) (last : nat)
    (inode : option nat) : nat * option nat :=
  match n with
  | O => (last, inode)
  | S n =>
      let last := if decide (length t <= S last)%nat then 0%nat else S last in
      match t !! last with
      | None => scan_free t n last inode
      | Some a =>
          if i_count a =? 0 then
            if negb (i_dirt a) && negb (i_lock a) then (last, Some last)
            else scan_free t n last (Some last)
          else scan_free t n last inode
      end
  end.

(** [while (inode->i_dirt) { write_inode(inode); wait_on_inode(inode); }] *)
Fixpoint write_until_clean (fuel : nat) (st : kernel) (inode : nat)
  : outcome kernel :=
  match fuel with
  | O => Fuel
  | S fuel =>
      let* a := get_inode st inode in
      if i_dirt a then
        let* st := write_inode st inode in
        let* st := wait_on_inode st inode in
        write_until_clean fuel st inode
      else Ok st
  end.

Fixpoint get_empty_inode_loop (fuel : nat) (st : kernel)
  : outcome (kernel * nat) :=
  match fuel with
  | O => Fuel
  | S fuel' =>
      let '(last, inode) :=
        scan_free (inode_table st) (NR_INODE st) (last_inode st) None in
      let st := set_last_inode st last in
      match inode with
      | None => Panic "No free inodes in mem"   (* after printing the table *)
      | Some inode =>
          let* st := wait_on_inode st inode in
          let* st := write_until_clean fuel st inode in
          let* a := get_inode st inode in
          if negb (i_count a =? 0) then get_empty_inode_loop fuel' st
          else Ok (st, inode)
      end
  end.

Definition get_empty_inode (fuel : nat) (st : kernel)
  : outcome (kernel * nat) :=
  let* (st, inode) := get_empty_inode_loop fuel st in
  Ok (set_inode st inode (set_i_count zero_inode 1), inode).

(** [for (i = 0; i < NR_SUPER; i++) if (super_block[i].s_imount == inode)
    break;]: the entry found, [None] when [i >= NR_SUPER] at exit. *)
Definition mounted_super (st : kernel) (inode : nat) : option super_block :=
  list_find (fun sb => s_imount sb = Some inode) (super_blocks st)
  ≫= fun p => Some p.2.

(** The first slot at or after [i] whose device and number are the ones
    looked for: the inner walk of the [while] loop of [iget]. *)
Fixpoint find_inode (t : list m_inode) (dev nr : Z) (i : nat) : option nat :=
  match t with
  | [] => None
  | a :: t =>
      if decide (i_dev a <> dev \/ i_num a <> nr) then
        find_inode t dev nr (S i)
      else Some i
  end.

(** The [while] loop of [iget], from [inode = inode_table]. *)
Fixpoint iget_scan (fuel : nat) (st : kernel) (empty : option nat)
    (dev nr : Z) : outcome (kernel * option nat) :=
  match fuel with
  | O => Fuel
  | S fuel' =>
      match find_inode (inode_table st) dev nr 0 with
      | None =>
          match empty with
          | None => Ok (st, None)
          | Some inode =>
              let* a := get_inode st inode in
              let st := set_inode st inode (set_i_num (set_i_dev a dev) nr) in
              let* st := read_inode st inode in
              Ok (st, Some inode)
          end
      | Some inode =>
          let* st := wait_on_inode st inode in
          let* a := get_inode st inode in
          if decide (i_dev a <> dev \/ i_num a <> nr) then
            iget_scan fuel' st empty dev nr
          else
            let st := set_inode st inode (set_i_count a (i_count a + 1)) in
            if i_mount a then
              match mounted_super st inode with
              | None =>
                  let st := printk st "Mounted inode hasn't got sb\n" in
                  let* st := iput fuel st empty in
                  Ok (st, Some inode)
              | Some sb =>
                  let* st := iput fuel st (Some inode) in
                  iget_scan fuel' st empty (s_dev sb) ROOT_INO
              end
            else
              let* st := iput fuel st empty in
              Ok (st, Some inode)
      end
  end.

Definition iget (fuel : nat) (st : kernel) (dev nr : Z)
  : outcome (kernel * option nat) :=
  if dev =? 0 then Panic "iget with dev==0"
  else
    let* (st, empty) := get_empty_inode fuel st in
    iget_scan fuel st (Some empty) dev nr.

(** [invalidate_inodes]. *)
Fixpoint invalidate_loop (st : kernel) (dev : Z) (i n : nat) : outcome kernel :=
  match n with
  | O => Ok st
  | S n =>
      let* st := wait_on_inode st i in
      let* a := get_inode st i in
      let st :=
        if i_dev a =? dev then
          let st := if negb (i_count a =? 0)
                    then printk st "inode in use on removed disk\n\r"
                    else st in
          set_inode st i (set_i_dirt (set_i_dev a 0) false)
        else st in
      invalidate_loop st dev (S i) n
  end.

Definition invalidate_inodes (st : kernel) (dev : Z) : outcome kernel :=
  invalidate_loop st dev 0 (NR_INODE st).

(** *** Runs of [iget] and [iput] *)

(** One call that returns. *)
Inductive step (st st' : kernel) : Prop :=
| step_iget (fuel : nat) (dev nr : Z) (inode : option nat) :
    iget fuel st dev nr = Ok (st', inode) -> step st st'
| step_iput (fuel : nat) (inode : option nat) :
    iput fuel st inode = Ok st' -> step st st'.

Inductive reachable (st0 : kernel) : kernel -> Prop :=
| reach_start : reachable st0 st0
| reach_step (st st' : kernel) :
    reachable st0 st -> step st st' -> reachable st0 st'.

End WithConstants.

(** *** What the table must satisfy *)

(** The table as the kernel boots: [inode_table] is zero-initialised
    and the cursor of [get_empty_inode] is at its first slot. *)
Definition boot (n : nat) (sbs : list super_block)
    (d : Z -> Z -> option inode_block) : kernel :=
  mk_kernel (replicate n zero_inode) 0 sbs d [].

(** At most one entry in use for a device and inode number. *)
Definition one_entry_per_key (st : kernel) : Prop :=
  forall i j a b,
    inode_table st !! i = Some a -> inode_table st !! j = Some b ->
    0 < i_count a -> 0 < i_count b ->
    i_dev a = i_dev b -> i_num a = i_num b -> i = j.

(** The invariant behind it. No two slots, in use or not, carry the
    same number of the same device; counts are not negative; no lock is
    held between two calls; a slot in use has a device (but for [e], the
    spare slot [iget] holds while it looks); and a super block mounted
    on a mount-point inode has a device. *)
Definition inode_inv (e : option nat) (st : kernel) : Prop :=
  (forall i j a b,
     inode_table st !! i = Some a -> inode_table st !! j = Some b ->
     i <> j -> i_dev a <> 0 -> i_dev a = i_dev b -> i_num a <> i_num b)
  /\ (forall i a,
       inode_table st !! i = Some a ->
       0 <= i_count a /\ i_lock a = false
       /\ (0 < i_count a -> Some i <> e -> i_dev a <> 0))
  /\ (forall i a sb,
       inode_table st !! i = Some a -> i_mount a = true ->
       sb ∈ super_blocks st -> s_imount sb = Some i -> s_dev sb <> 0).

(** [slot_step i R st st']: from [st] to [st'] only slot [i] of the
    table changed, from some [a] to some [a'] with [R a a']; the table
    of super blocks is the same. *)
Definition slot_step (i : nat) (R : m_inode -> m_inode -> Prop)
    (st st' : kernel) : Prop :=
  super_blocks st' = super_blocks st
  /\ exists a a',
      inode_table st !! i = Some a
      /\ inode_table st' = <[i := a']> (inode_table st)
      /\ R a a'.

(** What [iput] may do to the slot it is called on. *)
Definition put_rel (a a' : m_inode) : Prop :=
  i_dev a' = i_dev a /\ i_num a' = i_num a /\ i_mount a' = i_mount a
  /\ i_lock a' = false
  /\ (i_count a' = i_count a - 1 \/ i_count a' = 0).

(** What [invalidate_inodes] does to one slot. *)
Definition invalidated (dev : Z) (a : m_inode) : m_inode :=
  if i_dev a =? dev then set_i_dirt (set_i_dev a 0) false else a.

Definition in_use_messages (dev : Z) (t : list m_inode) : list string :=
  t ≫= fun a => if (i_dev a =? dev) && negb (i_count a =? 0)
                then ["inode in use on removed disk\n\r"] else [].

(** The Linux value of [S_ISBLK]: the file type bits of the mode are
    those of a block device. Used to run the code on examples. *)
Definition example_isblk (m : Z) : bool := Z.land m 61440 =? 24576.

(** A small machine to run the code on: two slots, one mounted device
    (number 3), every inode of it on disk with one link. *)
Definition example_disk : Z -> Z -> option inode_block :=
  fun dev block =>
    if dev =? 3 then Some (fun _ => mk_d_inode 33188 0 0 0 0 1 (replicate 9 0))
    else None.

Definition example_kernel : kernel :=
  boot 2 [mk_super_block 3 None 1 1] example_disk.

(** The same machine with inode 7 of device 3 in slot 0, held once and
    dirty. *)
Definition example_dirty : kernel :=
  mk_kernel
    [mk_m_inode (mk_d_inode 33188 0 0 0 0 1 (replicate 9 0))
       false true false false 3 7 1;
     zero_inode]
    0 [mk_super_block 3 None 1 1] example_disk [].

(** A slot [get_empty_inode] takes without writing anything back: not
    in use, clean and unlocked. *)
Definition free_clean (t : list m_inode) (k : nat) : Prop :=
  exists a, t !! k = Some a
            /\ i_count a = 0 /\ i_dirt a = false /\ i_lock a = false.

(** The cursor after one step of the cyclic walk of [get_empty_inode]. *)
Definition next_slot (t : list m_inode) (last : nat) : nat :=
  if decide (length t <= S last)%nat then 0%nat else S last.

(** [example_dirty] with its second slot taken as well: no slot is free. *)
Definition example_busy : kernel :=
  mk_kernel
    [mk_m_inode (mk_d_inode 33188 0 0 0 0 1 (replicate 9 0))
       false true false false 3 7 1;
     mk_m_inode (mk_d_inode 33188 0 0 0 0 1 (replicate 9 0))
       false false false false 3 8 2]
    0 [mk_super_block 3 None 1 1] example_disk [].

(** A table whose only free slot is dirty: slot 0 is in use, slot 1 holds
    inode 7 of device 3, released but not yet written back. *)
Definition example_released : kernel :=
  mk_kernel
    [mk_m_inode (mk_d_inode 33188 0 0 0 0 1 (replicate 9 0))
       false false false false 3 8 1;
     mk_m_inode (mk_d_inode 33188 0 5 0 0 1 (replicate 9 0))
       false true false false 3 7 0]
    0 [mk_super_block 3 None 1 1] example_disk [].

(** The machine after [iget] of inode 7 of device 3 from the start: the
    inode is in slot 1, held once and clean. *)
Definition example_held : kernel := mk_kernel
  [zero_inode;
   mk_m_inode (mk_d_inode 33188 0 0 0 0 1 (replicate 9 0))
     false false false false 3 7 1]
  1 [mk_super_block 3 None 1 1] example_disk [].

(** Three slots and two devices: inode 5 of device 3 is in slot 0 and is
    a mount point, device 4 is mounted on it, and the root inode of
    device 4 (number 1) is in slot 1. *)
Definition example_mounted : kernel := mk_kernel
  [mk_m_inode (mk_d_inode 16877 0 0 0 0 2 (replicate 9 0))
     false false false true 3 5 1;
   mk_m_inode (mk_d_inode 16877 0 0 0 0 2 (replicate 9 0))
     false false false false 4 1 1;
   zero_inode]
  0 [mk_super_block 3 None 1 1; mk_super_block 4 (Some 0%nat) 1 1]
  example_disk [].

(** What [sync_inodes] does to one slot: a dirty inode that is not a
    pipe and has a device is clean afterwards. *)
Definition synced (a : m_inode) : m_inode :=
  if i_dirt a && negb (i_pipe a) && negb (i_dev a =? 0)
  then set_i_dirt a false else a.

(** The record of inode [nr] of device [dev] as it stands on the disk,
    at the place [read_inode] and [write_inode] compute. *)
Definition disk_inode (INODES_PER_BLOCK : Z) (st : kernel) (dev nr : Z)
  : option d_inode :=
  sb ← get_super st dev;
  data ← disk st dev (inode_block_nr INODES_PER_BLOCK sb nr);
  Some (data (inode_slot INODES_PER_BLOCK nr)).

(** The other processes the specification speaks of, which dirty the
    inode again during a write: during the [k]-th write one of them
    leaves [ds !! k] as the on-disk part of slot [inode] and marks it
    dirty; after the last element of [ds] nobody touches the inode. *)
Definition redirty (inode : nat) (ds : list d_inode) (k : nat) (st : kernel)
  : kernel :=
  match ds !! k, inode_table st !! inode with
  | Some d, Some a => set_inode st inode (set_i_dirt (set_i_disk a d) true)
  | _, _ => st
  end.

(** The machine with inode 7 of device 3 in slot 0, held once and
    dirty, its in-core copy (uid 5) ahead of the disk. *)
Definition example_modified : kernel :=
  mk_kernel
    [mk_m_inode (mk_d_inode 33188 5 0 0 0 1 (replicate 9 0))
       false true false false 3 7 1;
     zero_inode]
    0 [mk_super_block 3 None 1 1] example_disk [].

End Inode.

(** * Properties *)

Lemma bind_Ok {A B} (m : outcome A) (k : A -> outcome B) (b : B) :
  bind m k = Ok b -> exists a, m = Ok a /\ k a = Ok b.
Proof. destruct m; simpl; intros H; try discriminate; eauto. Qed.

Section Ext2_count_free.
Import Ext2.

Lemma nibblemap_zero_bits (b : byte) :
  nibblemap !!! Z.to_nat (Z.land (char_of_byte b) 15)
  + nibblemap !!! Z.to_nat (Z.land (Z.shiftr (char_of_byte b) 4) 15)
  = zero_bits_byte b.
Proof. destruct b; vm_compute; reflexivity. Qed.

Lemma zero_bits_byte_range (b : byte) : 0 <= zero_bits_byte b <= 8.
Proof. destruct b; vm_compute; split; discriminate. Qed.

Lemma zero_bits_range (l : list byte) :
  0 <= zero_bits l <= 8 * Z.of_nat (length l).
Proof.
  induction l as [|b l IH]; simpl; [lia|].
  pose proof (zero_bits_byte_range b). lia.
Qed.

Lemma wrap32_add_l (a b : Z) : wrap32 (wrap32 a + b) = wrap32 (a + b).
Proof. unfold wrap32. apply Zplus_mod_idemp_l. Qed.

Lemma counts_free_loop_spec (data : list byte) (n i : nat) (s : Z) :
  (i + n <= length data)%nat ->
  counts_free_loop data n i (wrap32 s)
  = Ok (wrap32 (s + zero_bits (take n (drop i data)))).
Proof.
  revert i s. induction n as [|n IH]; intros i s Hlen; simpl.
  - f_equal. f_equal. lia.
  - destruct (data !! i) as [b|] eqn:Hb.
    + rewrite nibblemap_zero_bits, wrap32_add_l.
      rewrite IH by lia.
      rewrite (drop_S _ _ _ Hb). simpl. f_equal. f_equal. lia.
    + apply lookup_ge_None in Hb. lia.
Qed.

Lemma zero_bits_xf0 (l : list byte) :
  Forall (fun b => b = xf0) l -> zero_bits l = 4 * Z.of_nat (length l).
Proof.
  induction 1 as [|b l -> _ IH]; simpl; [reflexivity|].
  rewrite IH. change (zero_bits_byte xf0) with 4. lia.
Qed.

(** C9. [ext2_counts_free] over the first [numchars] bytes of a bitmap
    buffer returns the number of zero bits of those bytes (the nibble
    table applied to both nibbles of every byte counts exactly the zero
    bits); when every one of those bytes is 0b11110000 the result is
    [4 * numchars]. The buffer holds at least [numchars] bytes and is
    small enough for the 32-bit sum not to wrap. *)
Theorem counts_free_counts_zero_bits (bh : buffer_head) (numchars : Z) :
  0 <= numchars <= Z.of_nat (length (b_data bh)) ->
  Z.of_nat (length (b_data bh)) < 2 ^ 29 ->
  ext2_counts_free (Some bh) numchars
  = Ok (zero_bits (take (Z.to_nat numchars) (b_data bh)))
  /\ (Forall (fun b => b = xf0) (take (Z.to_nat numchars) (b_data bh)) ->
      ext2_counts_free (Some bh) numchars = Ok (4 * numchars)).
Proof.
  intros Hn Hlen.
  assert (Hrun : ext2_counts_free (Some bh) numchars
                 = Ok (zero_bits (take (Z.to_nat numchars) (b_data bh)))).
  { unfold ext2_counts_free.
    change 0 with (wrap32 0) at 1.
    rewrite counts_free_loop_spec by (simpl; lia).
    rewrite drop_0. f_equal. unfold wrap32.
    pose proof (zero_bits_range (take (Z.to_nat numchars) (b_data bh))) as Hr.
    rewrite length_take in Hr.
    apply Z.mod_small. lia. }
  split; [exact Hrun|].
  intros Hall. rewrite Hrun, (zero_bits_xf0 _ Hall), length_take.
  f_equal. lia.
Qed.

Lemma counts_free_counts_zero_bits_witness :
  ext2_counts_free (Some (mk_bh 3 [xf0; xf0; x0f])) 2
  = Ok (zero_bits (take 2 [xf0; xf0; x0f]))
  /\ (Forall (fun b => b = xf0) (take 2 [xf0; xf0; x0f]) ->
      ext2_counts_free (Some (mk_bh 3 [xf0; xf0; x0f])) 2 = Ok (4 * 2)).
Proof.
  apply (counts_free_counts_zero_bits (mk_bh 3 [xf0; xf0; x0f]) 2);
    simpl; lia.
Defined.

End Ext2_count_free.

Section Ext2_cache.
Import Ext2.

Lemma shift_down_length {A : Type} `{Inhabited A} (j : nat) (a : list A) :
  length (shift_down j a) = length a.
Proof.
  revert a. induction j as [|j IH]; intros a; simpl; [reflexivity|].
  rewrite IH. apply length_insert.
Qed.

Lemma shift_down_spec {A : Type} `{Inhabited A} (j : nat) (a : list A) (x : A) :
  (j < length a)%nat ->
  <[0%nat := x]> (shift_down j a) = x :: take j a ++ drop (S j) a.
Proof.
  revert a. induction j as [|j IH]; intros a Hj; simpl.
  - destruct a as [|y a]; simpl in *; [lia|]. by rewrite drop_0.
  - rewrite IH by (rewrite length_insert; lia).
    rewrite take_insert_ge by lia.
    rewrite drop_insert_ge by lia.
    replace (S j - S j)%nat with 0%nat by lia.
    destruct (lookup_lt_is_Some_2 a j ltac:(lia)) as [y Hy].
    rewrite (take_S_r _ _ _ Hy), (list_lookup_total_correct _ _ _ Hy).
    destruct (lookup_lt_is_Some_2 a (S j) ltac:(lia)) as [z Hz].
    rewrite (drop_S _ _ _ Hz). simpl. by rewrite <- app_assoc.
Qed.

Lemma lru_scan_hit (number : list nat) (g i0 n i : nat) :
  (i0 <= i < i0 + n)%nat ->
  number !!! i = g ->
  (forall k, (i0 <= k < i)%nat -> number !!! k <> g) ->
  lru_scan number g i0 n = i.
Proof.
  revert i0. induction n as [|n IH]; intros i0 Hi Hg Hbefore; simpl; [lia|].
  destruct (decide (number !!! i0 = g)) as [Heq|Hne].
  - destruct (decide (i0 = i)) as [|Hd]; [done|].
    exfalso. apply (Hbefore i0); [lia|done].
  - apply IH; [|done|intros k Hk; apply Hbefore; lia].
    destruct (decide (i0 = i)); [congruence|lia].
Qed.

Lemma lru_scan_miss (number : list nat) (g i0 n : nat) :
  (forall k, (i0 <= k < i0 + n)%nat -> number !!! k <> g) ->
  lru_scan number g i0 n = (i0 + n)%nat.
Proof.
  revert i0. induction n as [|n IH]; intros i0 Hall; simpl; [lia|].
  destruct (decide (number !!! i0 = g)) as [Heq|Hne].
  - exfalso. apply (Hall i0); [lia|done].
  - rewrite IH; [lia|]. intros k Hk. apply Hall. lia.
Qed.

Lemma lru_scan_le (number : list nat) (g i0 n : nat) :
  (lru_scan number g i0 n <= i0 + n)%nat.
Proof.
  revert i0. induction n as [|n IH]; intros i0; simpl; [lia|].
  destruct (decide _); [lia|]. specialize (IH (S i0)). lia.
Qed.

Lemma resident_install (j : nat) (a : list (option buffer_head)) x :
  (j < length a)%nat ->
  resident (S j) (x :: take j a ++ drop (S j) a) = held_of x ++ resident j a.
Proof.
  intros Hj. unfold resident. simpl.
  rewrite take_app_le by (rewrite length_take; lia).
  rewrite take_take. by rewrite Nat.min_id.
Qed.

Lemma resident_install_full (m : nat) (a : list (option buffer_head)) x :
  (0 < m <= length a)%nat ->
  resident m (x :: take (m - 1) a ++ drop (S (m - 1)) a)
  = held_of x ++ resident (m - 1) a.
Proof.
  intros Hm. rewrite <- resident_install by lia.
  by replace (S (m - 1)) with m by lia.
Qed.

Lemma resident_last (j : nat) (a : list (option buffer_head)) :
  (j < length a)%nat ->
  resident (S j) a = resident j a ++ held_of (a !!! j).
Proof.
  intros Hj. unfold resident.
  destruct (lookup_lt_is_Some_2 a j Hj) as [y Hy].
  rewrite (take_S_r _ _ _ Hy), (list_lookup_total_correct _ _ _ Hy).
  rewrite bind_app. simpl. by rewrite app_nil_r.
Qed.

Lemma resident_promote (loaded i : nat) (a : list (option buffer_head)) :
  (i < loaded)%nat -> (loaded <= length a)%nat ->
  resident loaded (promote i a) ≡ₚ resident loaded a.
Proof.
  intros Hi Hl. unfold resident, promote.
  destruct (lookup_lt_is_Some_2 a i ltac:(lia)) as [y Hy].
  rewrite (list_lookup_total_correct _ _ _ Hy).
  rewrite <- (take_drop_middle a i y Hy) at 3.
  destruct loaded as [|m]; [lia|]. simpl.
  rewrite !take_app, !length_take.
  replace (i `min` length a)%nat with i by lia.
  rewrite !take_take. replace (m `min` i)%nat with i by lia.
  replace (S m `min` i)%nat with i by lia.
  replace (S m - i)%nat with (S (m - i)) by lia. simpl.
  rewrite !bind_app. simpl.
  apply Permutation_app_swap_app.
Qed.


Lemma remove_first_perm (x : Z) (l l' : list Z) :
  l ≡ₚ x :: l' -> remove_first x l ≡ₚ l'.
Proof.
  intros Hp.
  assert (Hin : x ∈ l) by (rewrite Hp; left).
  assert (Hl : l ≡ₚ x :: remove_first x l).
  { clear Hp. induction l as [|y l IH]; [by apply elem_of_nil in Hin|].
    simpl. destruct (decide (x = y)) as [->|Hne]; [done|].
    apply elem_of_cons in Hin as [?|Hin]; [done|].
    rewrite (IH Hin) at 1. apply perm_swap. }
  rewrite Hl in Hp. by apply Permutation_cons_inv in Hp.
Qed.

Lemma brelse_held_perm (st : fs) (bh : option buffer_head) (l : list Z) :
  fs_held st ≡ₚ l ++ held_of bh -> fs_held (brelse st bh) ≡ₚ l.
Proof.
  destruct bh as [b|]; simpl.
  - intros Hp. apply remove_first_perm.
    rewrite Hp. by rewrite <- Permutation_cons_append.
  - by rewrite app_nil_r.
Qed.

Lemma with_sb_id (st : fs) : with_sb st (fs_sb st) = st.
Proof. by destruct st. Qed.

Lemma set_block_cache_id (sb : super_block) :
  set_block_cache sb (s_loaded_block_bitmaps sb) (s_block_bitmap_number sb)
    (s_block_bitmap sb) = sb.
Proof. by destruct sb. Qed.

Lemma set_inode_cache_id (sb : super_block) :
  set_inode_cache sb (s_loaded_inode_bitmaps sb) (s_inode_bitmap_number sb)
    (s_inode_bitmap sb) = sb.
Proof. by destruct sb. Qed.

Lemma promote_0 {A : Type} `{Inhabited A} (a : list A) :
  a <> [] -> promote 0 a = a.
Proof. destruct a; [done|]. intros _. unfold promote. simpl. by rewrite drop_0. Qed.

Lemma lookup_total_eq_iff (number : list nat) (k g : nat) :
  (k < length number)%nat -> number !!! k = g <-> number !! k = Some g.
Proof.
  intros Hk. destruct (lookup_lt_is_Some_2 number k Hk) as [y Hy].
  rewrite (list_lookup_total_correct _ _ _ Hy), Hy. split; congruence.
Qed.

Local Arguments resident : simpl never.

Section WithCapacity.
Variable MAXG : nat.
Hypothesis MAXG_pos : (0 < MAXG)%nat.

Lemma load_block_bitmap_hit (st : fs) (g i : nat) :
  cache_ok MAXG st ->
  (g < s_groups_count (fs_sb st))%nat ->
  hit_at (s_loaded_block_bitmaps (fs_sb st))
    (s_block_bitmap_number (fs_sb st)) g i ->
  load_block_bitmap MAXG st g
  = Ok (with_sb st
          (set_block_cache (fs_sb st) (s_loaded_block_bitmaps (fs_sb st))
             (promote i (s_block_bitmap_number (fs_sb st)))
             (promote i (s_block_bitmap (fs_sb st)))), 0%nat).
Proof.
  intros (Hlru & Hld & Hn & Hb & _) Hg (Hi & Hgi & Hfirst).
  unfold load_block_bitmap.
  destruct (decide _) as [[H0 Hg0]|Hslow].
  { assert (i = 0%nat) as ->.
    { destruct i as [|i]; [done|]. exfalso. apply (Hfirst 0%nat); [lia|].
      apply lookup_total_eq_iff; [lia|done]. }
    rewrite !promote_0.
    - by rewrite set_block_cache_id, with_sb_id.
    - intros E. rewrite E in Hb. simpl in Hb. lia.
    - intros E. rewrite E in Hn. simpl in Hn. lia. }
  destruct (decide _) as [[Hle _]|_]; [lia|].
  unfold load__block_bitmap.
  destruct (decide (s_groups_count (fs_sb st) <= g)%nat); [lia|].
  destruct (decide (s_groups_count (fs_sb st) <= MAXG)%nat); [lia|].
  assert (Hscan : lru_scan (s_block_bitmap_number (fs_sb st)) g 0
                    (s_loaded_block_bitmaps (fs_sb st)) = i).
  { apply lru_scan_hit; [lia| |].
    - apply lookup_total_eq_iff; [lia|done].
    - intros k Hk Hkg. apply (Hfirst k); [lia|].
      apply lookup_total_eq_iff; [lia|done]. }
  rewrite Hscan.
  destruct (decide _) as [_|Hno].
  - rewrite !shift_down_spec by lia. reflexivity.
  - exfalso. apply Hno. split; [done|]. apply lookup_total_eq_iff; [lia|done].
Qed.

Lemma load_block_bitmap_miss_full (st : fs) (g : nat) (gdp : ext2_group_desc) :
  cache_ok MAXG st ->
  s_loaded_block_bitmaps (fs_sb st) = MAXG ->
  miss MAXG (s_block_bitmap_number (fs_sb st)) g ->
  get_group_desc (fs_sb st) g = Ok gdp ->
  exists st',
    load_block_bitmap MAXG st g = Ok (st', 0%nat)
    /\ fs_sb st'
       = set_block_cache (fs_sb st) MAXG
           (g :: take (MAXG - 1) (s_block_bitmap_number (fs_sb st)))
           (bread (fs_dev st) (bg_block_bitmap gdp)
              :: take (MAXG - 1) (s_block_bitmap (fs_sb st)))
    /\ fs_dev st' = fs_dev st
    /\ fs_held st'
       = held_of (bread (fs_dev st) (bg_block_bitmap gdp))
         ++ fs_held (brelse st (s_block_bitmap (fs_sb st) !!! (MAXG - 1)%nat)).
Proof.
  intros (Hlru & Hld & Hn & Hb & _) Hfull Hmiss Hgdp.
  assert (Hg : (g < s_groups_count (fs_sb st))%nat).
  { unfold get_group_desc in Hgdp. destruct (decide _) in Hgdp; [done|lia]. }
  unfold load_block_bitmap.
  destruct (decide _) as [[H0 Hg0]|_].
  { exfalso. apply (Hmiss 0%nat); [lia|]. apply lookup_total_eq_iff; [lia|done]. }
  destruct (decide _) as [[Hle _]|_]; [lia|].
  unfold load__block_bitmap.
  destruct (decide (s_groups_count (fs_sb st) <= g)%nat); [lia|].
  destruct (decide (s_groups_count (fs_sb st) <= MAXG)%nat); [lia|].
  rewrite Hfull.
  rewrite lru_scan_miss; last first.
  { intros k Hk Hkg. apply (Hmiss k); [lia|]. apply lookup_total_eq_iff; [lia|done]. }
  destruct (decide _) as [[Hlt _]|_]; [simpl in Hlt; lia|].
  destruct (decide (MAXG < MAXG)%nat); [lia|].
  unfold read_block_bitmap. simpl.
  change (get_group_desc _ g) with (get_group_desc (fs_sb st) g).
  rewrite Hgdp. simpl. unfold fs_bread. simpl.
  replace (bread (fs_dev (brelse st (s_block_bitmap (fs_sb st) !!! (MAXG - 1)%nat))))
    with (bread (fs_dev st)) by (by destruct (s_block_bitmap (fs_sb st) !!! _)).
  assert (Hdn : drop (S (MAXG - 1)) (s_block_bitmap_number (fs_sb st)) = [])
    by (apply drop_ge; lia).
  assert (Hdb : drop (S (MAXG - 1)) (s_block_bitmap (fs_sb st)) = [])
    by (apply drop_ge; lia).
  destruct (bread (fs_dev st) (bg_block_bitmap gdp)) as [bh|] eqn:Hbh; simpl;
    rewrite !shift_down_spec, Hdn, Hdb, !app_nil_r by lia;
    (eexists; split; [reflexivity|]); simpl;
    (split; [reflexivity|]);
    (split; [by destruct (s_block_bitmap (fs_sb st) !!! _)|]);
    by destruct (s_block_bitmap (fs_sb st) !!! _).
Qed.

Lemma load_block_bitmap_ok (st st' : fs) (g nr : nat) :
  cache_ok MAXG st ->
  load_block_bitmap MAXG st g = Ok (st', nr) ->
  cache_ok MAXG st'.
Proof.
  intros Hok Hrun. pose proof Hok as (Hlru & Hld & Hn & Hb & Hli & Hni & Hbi & Hheld).
  unfold load_block_bitmap in Hrun.
  destruct (decide _) as [_|_] in Hrun; [by injection Hrun as <- <-|].
  destruct (decide _) as [[Hle _]|_] in Hrun; [lia|].
  unfold load__block_bitmap in Hrun.
  destruct (decide (s_groups_count (fs_sb st) <= g)%nat) in Hrun; [done|].
  destruct (decide (s_groups_count (fs_sb st) <= MAXG)%nat) in Hrun; [lia|].
  set (loaded := s_loaded_block_bitmaps (fs_sb st)) in *.
  set (i := lru_scan _ _ _ _) in Hrun.
  destruct (decide _) as [[Hi Hgi]|_] in Hrun.
  - (* hit: the entry moves to the front *)
    injection Hrun as <- <-. rewrite !shift_down_spec by lia.
    unfold cache_ok; cbn -[resident]; split_and!; try done.
    + rewrite length_app, length_take, length_drop. lia.
    + rewrite length_app, length_take, length_drop. lia.
    + rewrite Hheld. apply Permutation_app_tail. symmetry.
      apply (resident_promote loaded i); fold loaded; lia.
  - (* miss *)
    destruct (decide (loaded < MAXG)%nat) as [Hroom|Hfull] in Hrun.
    + replace (S loaded - 1)%nat with loaded in Hrun by lia.
      unfold read_block_bitmap in Hrun. simpl in Hrun.
      apply bind_Ok in Hrun as (st1 & Hrun & Hret). injection Hret as <- <-.
      apply bind_Ok in Hrun as (gdp & _ & Hrun).
      unfold fs_bread in Hrun. simpl in Hrun.
      destruct (bread (fs_dev st) (bg_block_bitmap gdp)) as [bh|];
        simpl in Hrun; injection Hrun as <-; rewrite !shift_down_spec by lia;
        (unfold cache_ok; cbn -[resident]; split_and!; try done;
         [rewrite length_app, length_take, length_drop; lia
         |rewrite length_app, length_take, length_drop; lia
         |rewrite resident_install by lia; cbn -[resident]; by rewrite Hheld]).
    + assert (Hl : loaded = MAXG) by lia.
      unfold read_block_bitmap in Hrun. simpl in Hrun.
      apply bind_Ok in Hrun as (st1 & Hrun & Hret). injection Hret as <- <-.
      apply bind_Ok in Hrun as (gdp & _ & Hrun).
      rewrite Hl in *.
      assert (Hrel : fs_held (brelse st (s_block_bitmap (fs_sb st) !!! (MAXG - 1)%nat))
                     ≡ₚ resident (MAXG - 1) (s_block_bitmap (fs_sb st))
                        ++ resident (s_loaded_inode_bitmaps (fs_sb st))
                             (s_inode_bitmap (fs_sb st))).
      { apply brelse_held_perm. rewrite Hheld.
        replace MAXG with (S (MAXG - 1)) at 1 by lia.
        rewrite resident_last by lia.
        rewrite <- !app_assoc. apply Permutation_app_head, Permutation_app_comm. }
      unfold fs_bread in Hrun. simpl in Hrun.
      replace (fs_dev (brelse st (s_block_bitmap (fs_sb st) !!! (MAXG - 1)%nat)))
        with (fs_dev st) in Hrun by (by destruct (s_block_bitmap (fs_sb st) !!! _)).
      destruct (bread (fs_dev st) (bg_block_bitmap gdp)) as [bh|];
        simpl in Hrun; injection Hrun as <-; rewrite !shift_down_spec by lia;
        (unfold cache_ok; cbn -[resident]; split_and!; try done;
         [rewrite length_app, length_take, length_drop; lia
         |rewrite length_app, length_take, length_drop; lia
         |rewrite resident_install_full by lia; cbn -[resident];
          by rewrite Hrel]).
Qed.

Lemma load_inode_bitmap_hit (st : fs) (g i : nat) :
  cache_ok MAXG st ->
  (g < s_groups_count (fs_sb st))%nat ->
  hit_at (s_loaded_inode_bitmaps (fs_sb st))
    (s_inode_bitmap_number (fs_sb st)) g i ->
  load_inode_bitmap MAXG st g
  = Ok (with_sb st
          (set_inode_cache (fs_sb st) (s_loaded_inode_bitmaps (fs_sb st))
             (promote i (s_inode_bitmap_number (fs_sb st)))
             (promote i (s_inode_bitmap (fs_sb st)))), 0%nat).
Proof.
  intros (Hlru & _ & _ & _ & Hld & Hn & Hb & _) Hg (Hi & Hgi & Hfirst).
  unfold load_inode_bitmap.
  destruct (decide (s_groups_count (fs_sb st) <= g)%nat); [lia|].
  destruct (decide _) as [[H0 Hg0]|Hslow].
  { assert (i = 0%nat) as ->.
    { destruct i as [|i]; [done|]. exfalso. apply (Hfirst 0%nat); [lia|].
      apply lookup_total_eq_iff; [lia|done]. }
    rewrite !promote_0.
    - by rewrite set_inode_cache_id, with_sb_id.
    - intros E. rewrite E in Hb. simpl in Hb. lia.
    - intros E. rewrite E in Hn. simpl in Hn. lia. }
  destruct (decide (s_groups_count (fs_sb st) <= MAXG)%nat); [lia|].
  assert (Hscan : lru_scan (s_inode_bitmap_number (fs_sb st)) g 0
                    (s_loaded_inode_bitmaps (fs_sb st)) = i).
  { apply lru_scan_hit; [lia| |].
    - apply lookup_total_eq_iff; [lia|done].
    - intros k Hk Hkg. apply (Hfirst k); [lia|].
      apply lookup_total_eq_iff; [lia|done]. }
  rewrite Hscan.
  destruct (decide _) as [_|Hno].
  - rewrite !shift_down_spec by lia. reflexivity.
  - exfalso. apply Hno. split; [done|]. apply lookup_total_eq_iff; [lia|done].
Qed.

Lemma load_inode_bitmap_miss_full (st : fs) (g : nat) (gdp : ext2_group_desc)
    (bh : buffer_head) :
  cache_ok MAXG st ->
  s_loaded_inode_bitmaps (fs_sb st) = MAXG ->
  miss MAXG (s_inode_bitmap_number (fs_sb st)) g ->
  get_group_desc (fs_sb st) g = Ok gdp ->
  bread (fs_dev st) (bg_inode_bitmap gdp) = Some bh ->
  exists st',
    load_inode_bitmap MAXG st g = Ok (st', 0%nat)
    /\ fs_sb st'
       = set_inode_cache (fs_sb st) MAXG
           (g :: take (MAXG - 1) (s_inode_bitmap_number (fs_sb st)))
           (Some bh :: take (MAXG - 1) (s_inode_bitmap (fs_sb st)))
    /\ fs_dev st' = fs_dev st
    /\ fs_held st'
       = b_blocknr bh
         :: fs_held (brelse st (s_inode_bitmap (fs_sb st) !!! (MAXG - 1)%nat)).
Proof.
  intros (Hlru & _ & _ & _ & Hld & Hn & Hb & _) Hfull Hmiss Hgdp Hbh.
  assert (Hg : (g < s_groups_count (fs_sb st))%nat).
  { unfold get_group_desc in Hgdp. destruct (decide _) in Hgdp; [done|lia]. }
  unfold load_inode_bitmap.
  destruct (decide (s_groups_count (fs_sb st) <= g)%nat); [lia|].
  destruct (decide _) as [[H0 Hg0]|_].
  { exfalso. apply (Hmiss 0%nat); [lia|]. apply lookup_total_eq_iff; [lia|done]. }
  destruct (decide (s_groups_count (fs_sb st) <= MAXG)%nat); [lia|].
  rewrite Hfull.
  rewrite lru_scan_miss; last first.
  { intros k Hk Hkg. apply (Hmiss k); [lia|]. apply lookup_total_eq_iff; [lia|done]. }
  destruct (decide _) as [[Hlt _]|_]; [simpl in Hlt; lia|].
  destruct (decide (MAXG < MAXG)%nat); [lia|].
  unfold read_inode_bitmap. simpl.
  change (get_group_desc _ g) with (get_group_desc (fs_sb st) g).
  rewrite Hgdp. simpl. unfold fs_bread. simpl.
  replace (bread (fs_dev (brelse st (s_inode_bitmap (fs_sb st) !!! (MAXG - 1)%nat))))
    with (bread (fs_dev st)) by (by destruct (s_inode_bitmap (fs_sb st) !!! _)).
  assert (Hdn : drop (S (MAXG - 1)) (s_inode_bitmap_number (fs_sb st)) = [])
    by (apply drop_ge; lia).
  assert (Hdb : drop (S (MAXG - 1)) (s_inode_bitmap (fs_sb st)) = [])
    by (apply drop_ge; lia).
  rewrite Hbh. simpl.
  rewrite !shift_down_spec, Hdn, Hdb, !app_nil_r by lia.
  eexists; split; [reflexivity|]. simpl.
  split; [reflexivity|].
  split; by destruct (s_inode_bitmap (fs_sb st) !!! _).
Qed.

Lemma cache_ok_printk (st : fs) (msg : string) :
  cache_ok MAXG st -> cache_ok MAXG (printk st msg).
Proof. by unfold cache_ok. Qed.

Lemma load_inode_bitmap_ok (st st' : fs) (g nr : nat) :
  cache_ok MAXG st ->
  load_inode_bitmap MAXG st g = Ok (st', nr) ->
  cache_ok MAXG st'.
Proof.
  intros Hok0 Hrun. unfold load_inode_bitmap in Hrun.
  set (st1 := if decide (s_groups_count (fs_sb st) <= g)%nat then _ else st) in Hrun.
  assert (Hok : cache_ok MAXG st1).
  { subst st1. destruct (decide (s_groups_count (fs_sb st) <= g)%nat);
      [by apply cache_ok_printk|done]. }
  clearbody st1. clear Hok0.
  pose proof Hok as (Hlru & Hlb & Hnb & Hbb & Hld & Hn & Hb & Hheld).
  destruct (decide _) as [_|_] in Hrun; [by injection Hrun as <- <-|].
  destruct (decide (s_groups_count (fs_sb st1) <= MAXG)%nat) in Hrun; [lia|].
  set (loaded := s_loaded_inode_bitmaps (fs_sb st1)) in *.
  set (i := lru_scan _ _ _ _) in Hrun.
  destruct (decide _) as [[Hi Hgi]|_] in Hrun.
  - injection Hrun as <- <-. rewrite !shift_down_spec by lia.
    unfold cache_ok; cbn -[resident]; split_and!; try done.
    + rewrite length_app, length_take, length_drop. lia.
    + rewrite length_app, length_take, length_drop. lia.
    + rewrite Hheld. apply Permutation_app_head. symmetry.
      apply (resident_promote loaded i); fold loaded; lia.
  - destruct (decide (loaded < MAXG)%nat) as [Hroom|Hfull] in Hrun.
    + replace (S loaded - 1)%nat with loaded in Hrun by lia.
      unfold read_inode_bitmap in Hrun. simpl in Hrun.
      apply bind_Ok in Hrun as (st2 & Hrun & Hret). injection Hret as <- <-.
      apply bind_Ok in Hrun as (gdp & _ & Hrun).
      unfold fs_bread in Hrun. simpl in Hrun.
      destruct (bread (fs_dev st1) (bg_inode_bitmap gdp)) as [bh|];
        simpl in Hrun; [|done]. injection Hrun as <-.
      rewrite !shift_down_spec by lia.
      unfold cache_ok; cbn -[resident]; split_and!; try done.
      * rewrite length_app, length_take, length_drop; lia.
      * rewrite length_app, length_take, length_drop; lia.
      * rewrite resident_install by lia. cbn -[resident]. rewrite Hheld.
        apply (Permutation_middle _ _ (b_blocknr bh)).
    + assert (Hl : loaded = MAXG) by lia.
      unfold read_inode_bitmap in Hrun. simpl in Hrun.
      apply bind_Ok in Hrun as (st2 & Hrun & Hret). injection Hret as <- <-.
      apply bind_Ok in Hrun as (gdp & _ & Hrun).
      rewrite Hl in *.
      assert (Hrel : fs_held (brelse st1 (s_inode_bitmap (fs_sb st1) !!! (MAXG - 1)%nat))
                     ≡ₚ resident (s_loaded_block_bitmaps (fs_sb st1))
                          (s_block_bitmap (fs_sb st1))
                        ++ resident (MAXG - 1) (s_inode_bitmap (fs_sb st1))).
      { apply brelse_held_perm. rewrite Hheld.
        replace MAXG with (S (MAXG - 1)) at 1 by lia.
        rewrite resident_last by lia. by rewrite <- !app_assoc. }
      unfold fs_bread in Hrun. simpl in Hrun.
      replace (fs_dev (brelse st1 (s_inode_bitmap (fs_sb st1) !!! (MAXG - 1)%nat)))
        with (fs_dev st1) in Hrun by (by destruct (s_inode_bitmap (fs_sb st1) !!! _)).
      destruct (bread (fs_dev st1) (bg_inode_bitmap gdp)) as [bh|];
        simpl in Hrun; [|done]. injection Hrun as <-.
      rewrite !shift_down_spec by lia.
      unfold cache_ok; cbn -[resident]; split_and!; try done.
      * rewrite length_app, length_take, length_drop; lia.
      * rewrite length_app, length_take, length_drop; lia.
      * rewrite resident_install_full by lia. cbn -[resident]. rewrite Hrel.
        apply (Permutation_middle _ _ (b_blocknr bh)).
Qed.

Lemma cache_run_ok (ops : list cache_op) (st st' : fs) :
  cache_ok MAXG st -> cache_run MAXG st ops = Ok st' -> cache_ok MAXG st'.
Proof.
  revert st. induction ops as [|op ops IH]; intros st Hok Hrun; simpl in Hrun.
  - by injection Hrun as <-.
  - apply bind_Ok in Hrun as (st1 & Hstep & Hrun).
    apply (IH st1); [|done].
    destruct op as [g|g]; simpl in Hstep;
      apply bind_Ok in Hstep as ([st2 nr] & Hload & Hret);
      injection Hret as <-.
    + by apply (load_block_bitmap_ok st st2 g nr).
    + by apply (load_inode_bitmap_ok st st2 g nr).
Qed.

Lemma resident_length (n : nat) (a : list (option buffer_head)) :
  (length (resident n a) <= n)%nat.
Proof.
  unfold resident. trans (length (take n a)); [|rewrite length_take; lia].
  generalize (take n a). intros l.
  induction l as [|[b|] l IH]; [done| |];
    rewrite bind_cons, length_app; simpl; lia.
Qed.

(** C8. On a mount with more groups than cache slots, whatever sequence
    of [load_block_bitmap] and [load_inode_bitmap] calls returns, each
    cache still has at most [EXT2_MAX_GROUP_LOADED] resident bitmaps and
    the buffer references held are exactly theirs. A hit at slot [i]
    moves that entry to slot 0 and the entries before it down by one,
    touching nothing else. A miss on a full cache releases the buffer of
    the last slot, drops that entry, and puts the requested group with
    the buffer just read in slot 0. *)
Theorem bitmap_cache_bound_and_order (st : fs) :
  cache_ok MAXG st ->
  (forall ops st', cache_run MAXG st ops = Ok st' ->
     cache_ok MAXG st'
     /\ (length (resident (s_loaded_block_bitmaps (fs_sb st'))
                  (s_block_bitmap (fs_sb st'))) <= MAXG)%nat
     /\ (length (resident (s_loaded_inode_bitmaps (fs_sb st'))
                  (s_inode_bitmap (fs_sb st'))) <= MAXG)%nat)
  /\ (forall g i,
        (g < s_groups_count (fs_sb st))%nat ->
        hit_at (s_loaded_block_bitmaps (fs_sb st))
          (s_block_bitmap_number (fs_sb st)) g i ->
        load_block_bitmap MAXG st g
        = Ok (with_sb st
                (set_block_cache (fs_sb st) (s_loaded_block_bitmaps (fs_sb st))
                   (promote i (s_block_bitmap_number (fs_sb st)))
                   (promote i (s_block_bitmap (fs_sb st)))), 0%nat))
  /\ (forall g gdp,
        s_loaded_block_bitmaps (fs_sb st) = MAXG ->
        miss MAXG (s_block_bitmap_number (fs_sb st)) g ->
        get_group_desc (fs_sb st) g = Ok gdp ->
        exists st',
          load_block_bitmap MAXG st g = Ok (st', 0%nat)
          /\ fs_sb st'
             = set_block_cache (fs_sb st) MAXG
                 (g :: take (MAXG - 1) (s_block_bitmap_number (fs_sb st)))
                 (bread (fs_dev st) (bg_block_bitmap gdp)
                    :: take (MAXG - 1) (s_block_bitmap (fs_sb st)))
          /\ fs_dev st' = fs_dev st
          /\ fs_held st'
             = held_of (bread (fs_dev st) (bg_block_bitmap gdp))
               ++ fs_held (brelse st (s_block_bitmap (fs_sb st)
                                       !!! (MAXG - 1)%nat)))
  /\ (forall g i,
        (g < s_groups_count (fs_sb st))%nat ->
        hit_at (s_loaded_inode_bitmaps (fs_sb st))
          (s_inode_bitmap_number (fs_sb st)) g i ->
        load_inode_bitmap MAXG st g
        = Ok (with_sb st
                (set_inode_cache (fs_sb st) (s_loaded_inode_bitmaps (fs_sb st))
                   (promote i (s_inode_bitmap_number (fs_sb st)))
                   (promote i (s_inode_bitmap (fs_sb st)))), 0%nat))
  /\ (forall g gdp bh,
        s_loaded_inode_bitmaps (fs_sb st) = MAXG ->
        miss MAXG (s_inode_bitmap_number (fs_sb st)) g ->
        get_group_desc (fs_sb st) g = Ok gdp ->
        bread (fs_dev st) (bg_inode_bitmap gdp) = Some bh ->
        exists st',
          load_inode_bitmap MAXG st g = Ok (st', 0%nat)
          /\ fs_sb st'
             = set_inode_cache (fs_sb st) MAXG
                 (g :: take (MAXG - 1) (s_inode_bitmap_number (fs_sb st)))
                 (Some bh :: take (MAXG - 1) (s_inode_bitmap (fs_sb st)))
          /\ fs_dev st' = fs_dev st
          /\ fs_held st'
             = b_blocknr bh
               :: fs_held (brelse st (s_inode_bitmap (fs_sb st)
                                       !!! (MAXG - 1)%nat))).
Proof.
  intros Hok. split_and!.
  - intros ops st' Hrun.
    pose proof (cache_run_ok ops st st' Hok Hrun) as Hok'.
    split; [done|].
    destruct Hok' as (_ & Hlb & _ & _ & Hli & _).
    split; (etrans; [apply resident_length|done]).
  - intros g i. by apply load_block_bitmap_hit.
  - intros g gdp. by apply load_block_bitmap_miss_full.
  - intros g i. by apply load_inode_bitmap_hit.
  - intros g gdp bh. by apply load_inode_bitmap_miss_full.
Qed.

End WithCapacity.

Lemma bitmap_cache_bound_and_order_witness :
  cache_ok 2 cache_example
  /\ exists st',
       load_block_bitmap 2 cache_example 2 = Ok (st', 0%nat)
       /\ s_block_bitmap_number (fs_sb st') = [2; 1]%nat
       /\ fs_held st' = [42; 41].
Proof.
  assert (Hok : cache_ok 2 cache_example).
  { unfold cache_ok. simpl. split_and!; try lia; try reflexivity. }
  split; [exact Hok|].
  destruct (bitmap_cache_bound_and_order 2 ltac:(lia) cache_example Hok)
    as (_ & _ & Hmiss & _).
  destruct (Hmiss 2%nat (mk_gd 42 52 62 0 0 0)) as (st' & Hrun & Hsb & _ & Hheld).
  - reflexivity.
  - intros [|[|k]] Hk; simpl; discriminate.
  - reflexivity.
  - exists st'. split; [exact Hrun|]. rewrite Hsb, Hheld. split; reflexivity.
Defined.

End Ext2_cache.

Section Ext2_checkers.
Import Ext2.

Lemma print_frame_refl (st : fs) : print_frame st st.
Proof. by unfold print_frame. Qed.

Lemma print_frame_printk (st st' : fs) (msg : string) :
  print_frame st st' -> print_frame st (printk st' msg).
Proof. by unfold print_frame. Qed.

Lemma print_frame_trans (st1 st2 st3 : fs) :
  print_frame st1 st2 -> print_frame st2 st3 -> print_frame st1 st3.
Proof. unfold print_frame. intros (-> & -> & ->) (-> & -> & ->). done. Qed.

Lemma block_frame_refl (st : fs) : block_frame st st.
Proof. split; [done|]. by rewrite set_block_cache_id. Qed.

Lemma block_frame_trans (st1 st2 st3 : fs) :
  block_frame st1 st2 -> block_frame st2 st3 -> block_frame st1 st3.
Proof.
  unfold block_frame. intros (Hd1 & Hs1) (Hd2 & Hs2).
  split; [congruence|]. rewrite Hs2, Hs1. reflexivity.
Qed.

Lemma block_frame_print (st st' : fs) :
  print_frame st st' -> block_frame st st'.
Proof.
  intros (Hd & Hs & _). split; [done|]. rewrite Hs. by rewrite set_block_cache_id.
Qed.

Lemma inode_frame_refl (st : fs) : inode_frame st st.
Proof. split; [done|]. by rewrite set_inode_cache_id. Qed.

Lemma inode_frame_trans (st1 st2 st3 : fs) :
  inode_frame st1 st2 -> inode_frame st2 st3 -> inode_frame st1 st3.
Proof.
  unfold inode_frame. intros (Hd1 & Hs1) (Hd2 & Hs2).
  split; [congruence|]. rewrite Hs2, Hs1. reflexivity.
Qed.

Lemma inode_frame_print (st st' : fs) :
  print_frame st st' -> inode_frame st st'.
Proof.
  intros (Hd & Hs & _). split; [done|]. rewrite Hs. by rewrite set_inode_cache_id.
Qed.

Lemma brelse_print_frame_sb (st : fs) (bh : option buffer_head) :
  fs_dev (brelse st bh) = fs_dev st /\ fs_sb (brelse st bh) = fs_sb st.
Proof. by destruct bh. Qed.

Lemma read_block_bitmap_frame (st st' : fs) (g nr : nat) :
  read_block_bitmap st g nr = Ok st' -> block_frame st st'.
Proof.
  unfold read_block_bitmap. intros Hrun.
  apply bind_Ok in Hrun as (gdp & _ & Hrun).
  unfold fs_bread in Hrun.
  destruct (bread (fs_dev st) (bg_block_bitmap gdp)); simpl in Hrun;
    injection Hrun as <-; by split.
Qed.

Lemma read_inode_bitmap_frame (st st' : fs) (g nr : nat) :
  read_inode_bitmap st g nr = Ok st' -> inode_frame st st'.
Proof.
  unfold read_inode_bitmap. intros Hrun.
  apply bind_Ok in Hrun as (gdp & _ & Hrun).
  unfold fs_bread in Hrun.
  destruct (bread (fs_dev st) (bg_inode_bitmap gdp)); simpl in Hrun; [|done].
  injection Hrun as <-; by split.
Qed.

Section WithCapacity.
Variable MAXG : nat.

Lemma load_block_bitmap_frame (st st' : fs) (g nr : nat) :
  load_block_bitmap MAXG st g = Ok (st', nr) -> block_frame st st'.
Proof.
  unfold load_block_bitmap. intros Hrun.
  destruct (decide _) in Hrun; [injection Hrun as <- <-; apply block_frame_refl|].
  destruct (decide _) in Hrun; [injection Hrun as <- <-; apply block_frame_refl|].
  unfold load__block_bitmap in Hrun.
  destruct (decide (s_groups_count (fs_sb st) <= g)%nat) in Hrun; [done|].
  destruct (decide (s_groups_count (fs_sb st) <= MAXG)%nat) in Hrun.
  { destruct (s_block_bitmap (fs_sb st) !!! g) in Hrun.
    - destruct (decide _) in Hrun; [done|]. injection Hrun as <- <-.
      apply block_frame_refl.
    - apply bind_Ok in Hrun as (st1 & Hrun & Hret). injection Hret as <- <-.
      by apply read_block_bitmap_frame in Hrun. }
  destruct (decide (_ /\ _)) in Hrun; [injection Hrun as <- <-; by split|].
  destruct (decide (_ < MAXG)%nat) in Hrun;
    apply bind_Ok in Hrun as (st1 & Hrun & Hret); injection Hret as <- <-;
    apply read_block_bitmap_frame in Hrun;
    (eapply block_frame_trans; [|exact Hrun]); [by split|].
  destruct (brelse_print_frame_sb st (s_block_bitmap (fs_sb st) !!! (MAXG - 1)%nat))
    as [Hd Hs].
  split; simpl; [done|reflexivity].
Qed.

Lemma load_inode_bitmap_frame (st st' : fs) (g nr : nat) :
  load_inode_bitmap MAXG st g = Ok (st', nr) -> inode_frame st st'.
Proof.
  unfold load_inode_bitmap. intros Hrun.
  set (st1 := if decide (s_groups_count (fs_sb st) <= g)%nat then _ else st) in Hrun.
  assert (Hpr : inode_frame st st1).
  { subst st1. destruct (decide (s_groups_count (fs_sb st) <= g)%nat);
      [|apply inode_frame_refl].
    apply inode_frame_print, print_frame_printk, print_frame_refl. }
  clearbody st1. eapply inode_frame_trans; [exact Hpr|]. clear Hpr.
  destruct (decide _) in Hrun; [injection Hrun as <- <-; apply inode_frame_refl|].
  destruct (decide (s_groups_count (fs_sb st1) <= MAXG)%nat) in Hrun.
  { destruct (s_inode_bitmap (fs_sb st1) !!! g) in Hrun.
    - destruct (decide _) in Hrun; [done|]. injection Hrun as <- <-.
      apply inode_frame_refl.
    - apply bind_Ok in Hrun as (st2 & Hrun & Hret). injection Hret as <- <-.
      by apply read_inode_bitmap_frame in Hrun. }
  destruct (decide (_ /\ _)) in Hrun; [injection Hrun as <- <-; by split|].
  destruct (decide (_ < MAXG)%nat) in Hrun;
    apply bind_Ok in Hrun as (st2 & Hrun & Hret); injection Hret as <- <-;
    apply read_inode_bitmap_frame in Hrun;
    (eapply inode_frame_trans; [|exact Hrun]); [by split|].
  destruct (brelse_print_frame_sb st1 (s_inode_bitmap (fs_sb st1) !!! (MAXG - 1)%nat))
    as [Hd Hs].
  split; simpl; [done|reflexivity].
Qed.

Lemma check_desc_blocks_frame (data : list byte) (n j : nat) (st st' : fs) :
  check_desc_blocks st data j n = Ok st' -> print_frame st st'.
Proof.
  revert j st. induction n as [|n IH]; intros j st Hrun; simpl in Hrun.
  - injection Hrun as <-. apply print_frame_refl.
  - apply bind_Ok in Hrun as (used & _ & Hrun).
    apply IH in Hrun. eapply print_frame_trans; [|exact Hrun].
    destruct used; [apply print_frame_refl|].
    apply print_frame_printk, print_frame_refl.
Qed.

Lemma check_inode_table_frame (gdp : ext2_group_desc) (data : list byte)
    (n j : nat) (st st' : fs) :
  check_inode_table st gdp data j n = Ok st' -> print_frame st st'.
Proof.
  revert j st. induction n as [|n IH]; intros j st Hrun; simpl in Hrun.
  - injection Hrun as <-. apply print_frame_refl.
  - apply bind_Ok in Hrun as (used & _ & Hrun).
    apply IH in Hrun. eapply print_frame_trans; [|exact Hrun].
    destruct used; [apply print_frame_refl|].
    apply print_frame_printk, print_frame_refl.
Qed.

Lemma print_frame_if (b : bool) (st : fs) (msg : string) :
  print_frame st (if b then st else printk st msg).
Proof. destruct b; [apply print_frame_refl|]. apply print_frame_printk, print_frame_refl. Qed.

Lemma check_block_groups_frame (desc_blocks n i : nat) (dc bc : Z)
    (st st' : fs) (r : Z) :
  check_block_groups MAXG st desc_blocks i n dc bc = Ok (st', r) ->
  block_frame st st'.
Proof.
  revert i dc bc st. induction n as [|n IH]; intros i dc bc st Hrun; simpl in Hrun.
  - injection Hrun as <- <-. apply block_frame_refl.
  - apply bind_Ok in Hrun as (gdp & _ & Hrun).
    apply bind_Ok in Hrun as ([st1 nr] & Hload & Hrun).
    apply load_block_bitmap_frame in Hload.
    eapply block_frame_trans; [exact Hload|]. clear Hload.
    destruct (s_block_bitmap (fs_sb st1) !!! nr) as [bh|] in Hrun; [|done].
    apply bind_Ok in Hrun as (u0 & _ & Hrun).
    apply bind_Ok in Hrun as (st2 & H2 & Hrun).
    apply check_desc_blocks_frame in H2.
    apply bind_Ok in Hrun as (u1 & _ & Hrun).
    apply bind_Ok in Hrun as (u2 & _ & Hrun).
    apply bind_Ok in Hrun as (st3 & H3 & Hrun).
    apply check_inode_table_frame in H3.
    apply bind_Ok in Hrun as (x & _ & Hrun).
    apply IH in Hrun.
    eapply block_frame_trans; [|exact Hrun].
    apply block_frame_print.
    eapply print_frame_trans; [apply (print_frame_if u0)|].
    eapply print_frame_trans; [exact H2|].
    eapply print_frame_trans; [apply (print_frame_if u1)|].
    eapply print_frame_trans; [apply (print_frame_if u2)|].
    eapply print_frame_trans; [exact H3|].
    destruct (decide _); [|apply print_frame_refl].
    apply print_frame_printk, print_frame_refl.
Qed.

Lemma check_inode_groups_frame (n i : nat) (dc bc : Z) (st st' : fs) (r : Z) :
  check_inode_groups MAXG st i n dc bc = Ok (st', r) -> inode_frame st st'.
Proof.
  revert i dc bc st. induction n as [|n IH]; intros i dc bc st Hrun; simpl in Hrun.
  - injection Hrun as <- <-. apply inode_frame_refl.
  - apply bind_Ok in Hrun as (gdp & _ & Hrun).
    apply bind_Ok in Hrun as ([st1 nr] & Hload & Hrun).
    apply load_inode_bitmap_frame in Hload.
    eapply inode_frame_trans; [exact Hload|]. clear Hload.
    apply bind_Ok in Hrun as (x & _ & Hrun).
    apply IH in Hrun.
    eapply inode_frame_trans; [|exact Hrun].
    apply inode_frame_print.
    destruct (decide _); [|apply print_frame_refl].
    apply print_frame_printk, print_frame_refl.
Qed.

Lemma check_descriptors_loop_frame (n i desc_block k : nat)
    (gdps : list ext2_group_desc) (block : Z) (st st' : fs) (r : Z) :
  check_descriptors_loop st i n desc_block gdps k block = Ok (st', r) ->
  print_frame st st'.
Proof.
  revert i desc_block k gdps block.
  induction n as [|n IH]; intros i desc_block k gdps block Hrun; simpl in Hrun.
  - injection Hrun as <- <-. apply print_frame_refl.
  - destruct (decide _) in Hrun; [done|].
    apply bind_Ok in Hrun as ([[db g'] k'] & _ & Hrun).
    destruct (g' !! k') as [gdp|] in Hrun; [|done].
    repeat (destruct (_ || _) in Hrun;
            [injection Hrun as <- <-;
             apply print_frame_printk, print_frame_refl|]).
    by apply IH in Hrun.
Qed.



(** C4 (as the code has it). [ext2_check_descriptors] only prints: the
    super block, the device and the buffer references are the same
    afterwards. [ext2_check_block_bitmap] and [ext2_check_inode_bitmap]
    never write to the device and leave every field of the super block
    as it was except the three fields of their own bitmap cache, which
    they go through to load each group's bitmap. *)
Theorem checkers_frame (st : fs) :
  (forall st' r, ext2_check_descriptors st = Ok (st', r) -> print_frame st st')
  /\ (forall st', ext2_check_block_bitmap MAXG st = Ok st' -> block_frame st st')
  /\ (forall st', ext2_check_inode_bitmap MAXG st = Ok st' -> inode_frame st st').
Proof.
  split_and!.
  - intros st' r Hrun. by apply check_descriptors_loop_frame in Hrun.
  - intros st' Hrun. unfold ext2_check_block_bitmap in Hrun.
    apply bind_Ok in Hrun as (st0 & Hlock & Hrun).
    unfold lock_super in Hlock.
    destruct (s_lock (fs_sb st)) eqn:Hfree in Hlock; [done|].
    injection Hlock as <-.
    destruct (decide _) in Hrun; [done|].
    apply bind_Ok in Hrun as ([st1 bc] & Hloop & Hrun).
    apply check_block_groups_frame in Hloop as [Hd Hs].
    injection Hrun as <-.
    split.
    + by destruct (decide _).
    + replace (fs_sb (unlock_super _))
        with (set_s_lock (fs_sb st1) false) by (by destruct (decide _)).
      rewrite Hs. simpl. destruct (fs_sb st). simpl in *. by subst.
  - intros st' Hrun. unfold ext2_check_inode_bitmap in Hrun.
    apply bind_Ok in Hrun as (st0 & Hlock & Hrun).
    unfold lock_super in Hlock.
    destruct (s_lock (fs_sb st)) eqn:Hfree in Hlock; [done|].
    injection Hlock as <-.
    apply bind_Ok in Hrun as ([st1 bc] & Hloop & Hrun).
    apply check_inode_groups_frame in Hloop as [Hd Hs].
    injection Hrun as <-.
    split.
    + by destruct (decide _).
    + replace (fs_sb (unlock_super _))
        with (set_s_lock (fs_sb st1) false) by (by destruct (decide _)).
      rewrite Hs. simpl. destruct (fs_sb st). simpl in *. by subst.
Qed.

End WithCapacity.

Lemma checkers_frame_witness :
  exists st',
    ext2_check_block_bitmap 2 cache_example = Ok st'
    /\ block_frame cache_example st'.
Proof.
  eexists. split; [vm_compute; reflexivity|].
  destruct (checkers_frame 2 cache_example) as (_ & Hblock & _).
  apply Hblock. vm_compute. reflexivity.
Defined.

Lemma check_block_bitmap_changes_cache :
  exists st',
    ext2_check_block_bitmap 2 cache_example = Ok st'
    /\ s_block_bitmap_number (fs_sb cache_example) = [1; 0]%nat
    /\ s_block_bitmap_number (fs_sb st') = [2; 1]%nat
    /\ fs_held cache_example = [41; 40]
    /\ fs_held st' = [42; 41]
    /\ fs_sb st' <> fs_sb cache_example.
Proof.
  eexists. split; [vm_compute; reflexivity|].
  split_and!; try reflexivity.
  intros Heq. apply (f_equal s_block_bitmap_number) in Heq. discriminate Heq.
Qed.

End Ext2_checkers.

Section Inode_facts.
Import Inode.

Lemma get_inode_Ok (st : kernel) (i : nat) (a : m_inode) :
  get_inode st i = Ok a <-> inode_table st !! i = Some a.
Proof.
  unfold get_inode. destruct (inode_table st !! i); split; intros H;
    by simplify_eq.
Qed.

Lemma wait_on_inode_eq (st : kernel) (i : nat) (a : m_inode) :
  inode_table st !! i = Some a -> i_lock a = false ->
  wait_on_inode st i = Ok st.
Proof.
  intros Ha Hl. unfold wait_on_inode, get_inode. rewrite Ha. simpl. by rewrite Hl.
Qed.

Lemma wait_on_inode_Ok (st st' : kernel) (i : nat) :
  wait_on_inode st i = Ok st' ->
  st' = st /\ exists a, inode_table st !! i = Some a /\ i_lock a = false.
Proof.
  unfold wait_on_inode, get_inode. intros H.
  destruct (inode_table st !! i) as [a|]; simpl in H; [|done].
  destruct (i_lock a) eqn:Hl; [done|]. injection H as <-. eauto.
Qed.

Lemma set_i_lock_unlock (a : m_inode) (b : bool) :
  i_lock a = false -> set_i_lock (set_i_lock a b) false = a.
Proof. destruct a. simpl. by intros ->. Qed.

Lemma set_inode_lookup (st : kernel) (i : nat) (a b : m_inode) :
  inode_table st !! i = Some a ->
  inode_table (set_inode st i b) !! i = Some b.
Proof.
  intros Ha. simpl. apply list_lookup_insert_eq.
  by apply lookup_lt_Some in Ha.
Qed.

Lemma set_inode_set_inode (st : kernel) (i : nat) (a b : m_inode) :
  set_inode (set_inode st i a) i b = set_inode st i b.
Proof. unfold set_inode, set_table. simpl. by rewrite list_insert_insert_eq. Qed.

Lemma set_inode_id (st : kernel) (i : nat) (a : m_inode) :
  inode_table st !! i = Some a -> set_inode st i a = st.
Proof.
  intros Ha. unfold set_inode, set_table. rewrite list_insert_id by done.
  by destruct st.
Qed.

Lemma inv_update (e e' : option nat) (st st' : kernel) (i : nat)
    (a a' : m_inode) :
  inode_inv e st ->
  inode_table st !! i = Some a ->
  inode_table st' = <[i := a']> (inode_table st) ->
  super_blocks st' = super_blocks st ->
  (i_dev a' = 0 \/ (i_dev a' = i_dev a /\ i_num a' = i_num a)) ->
  0 <= i_count a' ->
  i_lock a' = false ->
  (0 < i_count a' -> Some i <> e' -> i_dev a' <> 0) ->
  (i_mount a' = true -> i_mount a = true) ->
  (forall j, j <> i -> Some j = e -> Some j = e') ->
  inode_inv e' st'.
Proof.
  intros (HU & HC & HS) Ha Ht Hsb Hkey Hc Hl Hd Hm He.
  unfold inode_inv. rewrite Ht, Hsb. split_and!.
  - intros x y ax ay Hx Hy Hxy Hdev Hdeq Hneq.
    apply list_lookup_insert_Some in Hx as [(<- & <- & _)|(Hix & Hx)];
      apply list_lookup_insert_Some in Hy as [(<- & <- & _)|(Hiy & Hy)];
      try done.
    + destruct Hkey as [?|[Hk1 Hk2]]; [done|].
      apply (HU i y a ay); try done; congruence.
    + destruct Hkey as [?|[Hk1 Hk2]]; [congruence|].
      apply (HU x i ax a); try done; congruence.
    + by apply (HU x y ax ay).
  - intros x ax Hx.
    apply list_lookup_insert_Some in Hx as [(<- & <- & _)|(Hix & Hx)]; [done|].
    destruct (HC x ax Hx) as (? & ? & Hdx). split_and!; try done.
    intros Hpos Hne. apply Hdx; [done|]. intros Heq. apply Hne, He; done.
  - intros x ax sb Hx Hmx Hin Him.
    apply list_lookup_insert_Some in Hx as [(<- & <- & _)|(Hix & Hx)].
    + apply (HS i a sb); auto.
    + by apply (HS x ax sb).
Qed.

Lemma inv_assign (k : nat) (st st' : kernel) (a a' : m_inode) (dev nr : Z) :
  inode_inv (Some k) st ->
  inode_table st !! k = Some a ->
  inode_table st' = <[k := a']> (inode_table st) ->
  super_blocks st' = super_blocks st ->
  i_dev a' = dev -> i_num a' = nr -> dev <> 0 ->
  (forall j b, inode_table st !! j = Some b -> i_dev b = dev -> i_num b <> nr) ->
  0 <= i_count a' ->
  i_lock a' = false ->
  (i_mount a' = true -> i_mount a = true) ->
  inode_inv None st'.
Proof.
  intros (HU & HC & HS) Ha Ht Hsb Hdev Hnr Hnz Hfresh Hc Hl Hm.
  unfold inode_inv. rewrite Ht, Hsb. split_and!.
  - intros x y ax ay Hx Hy Hxy Hdx Hdeq Hneq.
    apply list_lookup_insert_Some in Hx as [(<- & <- & _)|(Hix & Hx)];
      apply list_lookup_insert_Some in Hy as [(<- & <- & _)|(Hiy & Hy)];
      try done.
    + apply (Hfresh y ay Hy); congruence.
    + apply (Hfresh x ax Hx); congruence.
    + by apply (HU x y ax ay).
  - intros x ax Hx.
    apply list_lookup_insert_Some in Hx as [(<- & <- & _)|(Hix & Hx)].
    + split_and!; try done. intros _ _. congruence.
    + destruct (HC x ax Hx) as (? & ? & Hdx). split_and!; try done.
      intros Hpos _. apply Hdx; [done|]. congruence.
  - intros x ax sb Hx Hmx Hin Him.
    apply list_lookup_insert_Some in Hx as [(<- & <- & _)|(Hix & Hx)].
    + apply (HS k a sb); auto.
    + by apply (HS x ax sb).
Qed.

Lemma inv_same_table (e : option nat) (st st' : kernel) :
  inode_table st' = inode_table st -> super_blocks st' = super_blocks st ->
  inode_inv e st -> inode_inv e st'.
Proof. unfold inode_inv. by intros -> ->. Qed.

Lemma find_inode_None (t : list m_inode) (dev nr : Z) (i0 : nat) :
  find_inode t dev nr i0 = None ->
  forall j b, t !! j = Some b -> i_dev b = dev -> i_num b <> nr.
Proof.
  revert i0. induction t as [|a t IH]; intros i0 Hf j b Hj Hd; [done|].
  simpl in Hf. destruct (decide _) as [Hne|] in Hf; [|done].
  destruct j as [|j]; simpl in Hj.
  - injection Hj as <-. destruct Hne; done.
  - by apply (IH (S i0) Hf j b).
Qed.

Lemma find_inode_Some (t : list m_inode) (dev nr : Z) (i0 i : nat) :
  find_inode t dev nr i0 = Some i ->
  exists b, (i0 <= i)%nat /\ t !! (i - i0)%nat = Some b
            /\ i_dev b = dev /\ i_num b = nr.
Proof.
  revert i0. induction t as [|a t IH]; intros i0 Hf; [done|].
  simpl in Hf. destruct (decide _) as [Hne|Heq] in Hf.
  - destruct (IH (S i0) Hf) as (b & Hle & Hb & Hk).
    exists b. split; [lia|]. split; [|done].
    replace (i - i0)%nat with (S (i - S i0)) by lia. done.
  - injection Hf as <-. exists a. rewrite Nat.sub_diag.
    split; [lia|]. split; [done|].
    destruct (decide (i_dev a = dev)); destruct (decide (i_num a = nr)); tauto.
Qed.

Section WithConstants.
Variables IPB ROOT : Z.
Variable ISBLK : Z -> bool.

(** [write_inode] on an unlocked slot, as one equation. *)
Lemma write_inode_eq (st : kernel) (i : nat) (a : m_inode) :
  inode_table st !! i = Some a -> i_lock a = false ->
  write_inode IPB st i
  = if negb (i_dirt a) || (i_dev a =? 0) then Ok st
    else match get_super st (i_dev a) with
         | None => Panic "trying to write inode without device"
         | Some sb =>
             match bread st (i_dev a) (inode_block_nr IPB sb (i_num a)) with
             | None => Panic "unable to read i-node block"
             | Some _ =>
                 Ok (set_inode
                       (write_block st (i_dev a)
                          (inode_block_nr IPB sb (i_num a))
                          (inode_slot IPB (i_num a)) (i_disk a))
                       i (set_i_dirt a false))
             end
         end.
Proof.
  intros Ha Hl. unfold write_inode, lock_inode, get_inode.
  rewrite Ha. simpl. rewrite Hl. simpl.
  rewrite list_lookup_insert_eq by (by apply lookup_lt_Some in Ha). simpl.
  destruct (negb (i_dirt a) || (i_dev a =? 0)).
  - unfold unlock_inode, get_inode. simpl.
    rewrite list_lookup_insert_eq by (by apply lookup_lt_Some in Ha). simpl.
    rewrite set_inode_set_inode, set_i_lock_unlock by done.
    by rewrite set_inode_id.
  - change (get_super (set_inode st i (set_i_lock a true)) (i_dev a))
      with (get_super st (i_dev a)).
    destruct (get_super st (i_dev a)) as [sb|]; [|done].
    unfold bread. simpl.
    destruct (disk st (i_dev a) _); [|done].
    unfold unlock_inode, get_inode. simpl.
    rewrite list_lookup_insert_eq
      by (rewrite length_insert; by apply lookup_lt_Some in Ha).
    simpl. f_equal. unfold set_inode, set_table, write_block, set_disk. simpl.
    rewrite !list_insert_insert_eq. do 2 f_equal.
    destruct a; simpl in *; by subst.
Qed.

Lemma read_inode_eq (st : kernel) (i : nat) (a : m_inode) :
  inode_table st !! i = Some a -> i_lock a = false ->
  read_inode IPB st i
  = match get_super st (i_dev a) with
    | None => Panic "tring to read inode without dev"
    | Some sb =>
        match bread st (i_dev a) (inode_block_nr IPB sb (i_num a)) with
        | None => Panic "unable to read i_node block"
        | Some data =>
            Ok (set_inode st i
                  (set_i_disk a (data (inode_slot IPB (i_num a)))))
        end
    end.
Proof.
  intros Ha Hl. unfold read_inode, lock_inode, get_inode.
  rewrite Ha. simpl. rewrite Hl. simpl.
  rewrite list_lookup_insert_eq by (by apply lookup_lt_Some in Ha). simpl.
  change (get_super (set_inode st i (set_i_lock a true)) (i_dev a))
    with (get_super st (i_dev a)).
  destruct (get_super st (i_dev a)) as [sb|]; [|done].
  unfold bread. simpl.
  destruct (disk st (i_dev a) _); [|done].
  unfold unlock_inode, get_inode. simpl.
  rewrite list_lookup_insert_eq
    by (rewrite length_insert; by apply lookup_lt_Some in Ha).
  simpl. f_equal. unfold set_inode, set_table. simpl.
  rewrite !list_insert_insert_eq. do 2 f_equal.
  destruct a; simpl in *; by subst.
Qed.

Lemma iput_repeat_Ok (fuel : nat) (st st' : kernel) (i : nat) (a : m_inode) :
  inode_table st !! i = Some a -> i_lock a = false -> i_dev a <> 0 ->
  iput_repeat IPB fuel st i = Ok st' ->
  slot_step i (fun b b' => b = a /\ put_rel b b') st st'.
Proof.
  intros Ha Hl Hdev Hrun.
  assert (Hlen : (i < length (inode_table st))%nat) by (by apply lookup_lt_Some in Ha).
  destruct fuel as [|fuel]; [done|]. simpl in Hrun.
  unfold get_inode in Hrun. rewrite Ha in Hrun. simpl in Hrun.
  destruct (1 <? i_count a) in Hrun.
  { injection Hrun as <-. split; [done|]. exists a, (set_i_count a (i_count a - 1)).
    unfold put_rel. simpl. auto 10. }
  destruct (i_nlinks (i_disk a) =? 0) in Hrun.
  { unfold truncate, free_inode, get_inode in Hrun. rewrite Ha in Hrun.
    simpl in Hrun. rewrite list_lookup_insert_eq in Hrun by done.
    simpl in Hrun. injection Hrun as <-. split; [done|].
    eexists a, _. split; [done|]. split.
    - simpl. by rewrite list_insert_insert_eq.
    - unfold put_rel. simpl. auto 10. }
  destruct (i_dirt a) eqn:Hdirt in Hrun.
  - rewrite (write_inode_eq st i a Ha Hl) in Hrun.
    rewrite Hdirt in Hrun.
    destruct (Z.eqb_spec (i_dev a) 0) as [|_] in Hrun; [done|]. simpl in Hrun.
    destruct (get_super st (i_dev a)) as [sb|] in Hrun; [|done].
    destruct (bread st (i_dev a) _) in Hrun; [|done]. simpl in Hrun.
    rewrite (wait_on_inode_eq _ i (set_i_dirt a false)) in Hrun;
      [|by apply list_lookup_insert_eq|done].
    simpl in Hrun. destruct fuel as [|fuel]; [done|]. simpl in Hrun.
    unfold get_inode in Hrun. simpl in Hrun.
    rewrite list_lookup_insert_eq in Hrun by done. simpl in Hrun.
    destruct (1 <? i_count a) in Hrun;
      [injection Hrun as <-; split; [done|];
       eexists a, _; split; [done|]; split;
       [simpl; by rewrite list_insert_insert_eq|unfold put_rel; simpl; auto 10]|].
    destruct (i_nlinks (i_disk a) =? 0) in Hrun.
    { unfold truncate, free_inode, get_inode in Hrun. simpl in Hrun.
      rewrite list_lookup_insert_eq in Hrun by done. simpl in Hrun.
      rewrite list_lookup_insert_eq in Hrun by (by rewrite length_insert).
      simpl in Hrun. injection Hrun as <-. split; [done|].
      eexists a, _. split; [done|]. split.
      - simpl. by rewrite !list_insert_insert_eq.
      - unfold put_rel. simpl. auto 10. }
    injection Hrun as <-; split; [done|].
    eexists a, _; split; [done|]; split;
      [simpl; by rewrite list_insert_insert_eq|unfold put_rel; simpl; auto 10].
  - injection Hrun as <-. split; [done|]. exists a, (set_i_count a (i_count a - 1)).
    unfold put_rel. simpl. auto 10.
Qed.

Lemma iput_Ok (fuel : nat) (st st' : kernel) (i : nat) :
  iput IPB ISBLK fuel st (Some i) = Ok st' ->
  slot_step i (fun a a' => i_lock a = false /\ i_count a <> 0 /\ put_rel a a')
    st st'.
Proof.
  intros Hrun. simpl in Hrun.
  apply bind_Ok in Hrun as (st1 & Hwait & Hrun).
  apply wait_on_inode_Ok in Hwait as (-> & a & Ha & Hl).
  unfold get_inode in Hrun. rewrite Ha in Hrun. simpl in Hrun.
  destruct (Z.eqb_spec (i_count a) 0) as [|Hc] in Hrun; [done|].
  destruct (i_pipe a) in Hrun.
  { simpl in Hrun.
    destruct (negb (i_count a - 1 =? 0)) in Hrun; injection Hrun as <-;
      (split; [done|]); eexists a, _; (split; [done|]);
      (split; [reflexivity|]); unfold put_rel; simpl; auto 10. }
  destruct (Z.eqb_spec (i_dev a) 0) as [|Hdev] in Hrun.
  { injection Hrun as <-. split; [done|]. eexists a, _. split; [done|].
    split; [reflexivity|]. unfold put_rel; simpl; auto 10. }
  apply bind_Ok in Hrun as (st1 & Hsync & Hrun).
  assert (st1 = st) as ->.
  { destruct (ISBLK _) in Hsync; [|by injection Hsync].
    by apply wait_on_inode_Ok in Hsync as [-> _]. }
  apply (iput_repeat_Ok _ _ _ _ a Ha Hl Hdev) in Hrun as (Hsb & b & b' & Hb & Ht & -> & Hrel).
  split; [done|]. exists a, b'. auto.
Qed.

Lemma iput_inv (e : option nat) (fuel : nat) (st st' : kernel) (i : nat) :
  inode_inv e st -> iput IPB ISBLK fuel st (Some i) = Ok st' ->
  inode_inv e st'
  /\ forall j, j <> i -> inode_table st' !! j = inode_table st !! j.
Proof.
  intros Hinv Hrun.
  apply iput_Ok in Hrun as (Hsb & a & a' & Ha & Ht & Hl & Hc & Hrel).
  destruct Hrel as (Hd & Hn & Hm & Hl' & Hcount).
  pose proof Hinv as (HU & HC & HS).
  destruct (HC i a Ha) as (Hc0 & _ & HD).
  split.
  - apply (inv_update e e st st' i a a' Hinv Ha Ht Hsb).
    + auto.
    + lia.
    + done.
    + intros Hpos Hne. rewrite Hd. apply HD; [lia|done].
    + congruence.
    + done.
  - intros j Hj. rewrite Ht. by apply list_lookup_insert_ne.
Qed.

Lemma iput_spare_eq (fuel : nat) (st : kernel) (k : nat) :
  inode_table st !! k = Some (set_i_count zero_inode 1) ->
  iput IPB ISBLK fuel st (Some k) = Ok (set_inode st k zero_inode).
Proof.
  intros Hk. simpl.
  rewrite (wait_on_inode_eq st k _ Hk) by done. simpl.
  unfold get_inode. rewrite Hk. reflexivity.
Qed.

Lemma inv_release_spare (st : kernel) (k : nat) :
  inode_inv (Some k) st ->
  inode_table st !! k = Some (set_i_count zero_inode 1) ->
  inode_inv None (set_inode st k zero_inode).
Proof.
  intros Hinv Hk.
  apply (inv_update (Some k) None st _ k (set_i_count zero_inode 1) zero_inode
           Hinv Hk); simpl; auto; try lia; try done.
  intros j Hj [= ->]. done.
Qed.

Lemma scan_free_count (t : list m_inode) (n last : nat) (c : option nat)
    (last' k : nat) :
  scan_free t n last c = (last', Some k) ->
  (forall k0, c = Some k0 ->
     exists a, t !! k0 = Some a /\ i_count a = 0) ->
  exists a, t !! k = Some a /\ i_count a = 0.
Proof.
  revert last c. induction n as [|n IH]; intros last c Hs Hc; simpl in Hs.
  - injection Hs as _ ->. by apply Hc.
  - set (l := if decide (length t <= S last)%nat then 0%nat else S last) in *.
    destruct (t !! l) as [a|] eqn:Ha; [|by apply (IH l c)].
    destruct (Z.eqb_spec (i_count a) 0) as [Hz|_]; [|by apply (IH l c)].
    destruct (negb (i_dirt a) && negb (i_lock a)).
    + injection Hs as _ <-. eauto.
    + apply (IH l (Some l) Hs). intros k0 [= <-]. eauto.
Qed.

Lemma write_until_clean_Ok (fuel : nat) (st st' : kernel) (i : nat) (a : m_inode) :
  inode_table st !! i = Some a -> i_lock a = false ->
  write_until_clean IPB fuel st i = Ok st' ->
  super_blocks st' = super_blocks st
  /\ exists a', inode_table st' = <[i := a']> (inode_table st)
                /\ (a' = a \/ a' = set_i_dirt a false).
Proof.
  revert st. induction fuel as [|fuel IH]; intros st Ha Hl Hrun; [done|].
  simpl in Hrun. unfold get_inode in Hrun. rewrite Ha in Hrun. simpl in Hrun.
  destruct (i_dirt a) eqn:Hdirt in Hrun.
  - rewrite (write_inode_eq st i a Ha Hl) in Hrun. rewrite Hdirt in Hrun.
    simpl in Hrun.
    destruct (i_dev a =? 0) in Hrun.
    + simpl in Hrun. rewrite (wait_on_inode_eq st i a Ha Hl) in Hrun.
      simpl in Hrun. by apply (IH st).
    + destruct (get_super st (i_dev a)) as [sb|] in Hrun; [|done].
      destruct (bread st (i_dev a) _) in Hrun; [|done]. simpl in Hrun.
      assert (Hlen : (i < length (inode_table st))%nat)
        by (by apply lookup_lt_Some in Ha).
      rewrite (wait_on_inode_eq _ i (set_i_dirt a false)) in Hrun;
        [|by apply list_lookup_insert_eq|done].
      simpl in Hrun. destruct fuel as [|fuel]; [done|]. simpl in Hrun.
      unfold get_inode in Hrun. simpl in Hrun.
      rewrite list_lookup_insert_eq in Hrun by done. simpl in Hrun.
      injection Hrun as <-. split; [done|]. eauto.
  - injection Hrun as <-. split; [done|]. exists a.
    split; [by rewrite list_insert_id|auto].
Qed.

Lemma get_empty_inode_loop_S (fuel : nat) (st : kernel) :
  get_empty_inode_loop IPB (S fuel) st
  = let '(last, inode) :=
      scan_free (inode_table st) (NR_INODE st) (last_inode st) None in
    let st := set_last_inode st last in
    match inode with
    | None => Panic "No free inodes in mem"
    | Some inode =>
        let* st := wait_on_inode st inode in
        let* st := write_until_clean IPB (S fuel) st inode in
        let* a := get_inode st inode in
        if negb (i_count a =? 0) then get_empty_inode_loop IPB fuel st
        else Ok (st, inode)
    end.
Proof. reflexivity. Qed.

Lemma get_empty_inode_Ok (fuel : nat) (st st' : kernel) (k : nat) :
  get_empty_inode IPB fuel st = Ok (st', k) ->
  super_blocks st' = super_blocks st
  /\ exists a, inode_table st !! k = Some a /\ i_count a = 0
     /\ inode_table st' = <[k := set_i_count zero_inode 1]> (inode_table st).
Proof.
  unfold get_empty_inode. intros Hrun.
  apply bind_Ok in Hrun as ([st1 k1] & Hloop & Hret). injection Hret as <- <-.
  destruct fuel as [|fuel]; [done|]. rewrite get_empty_inode_loop_S in Hloop.
  destruct (scan_free _ _ _ _) as [last [c|]] eqn:Hscan; [|done].
  apply scan_free_count in Hscan as (a & Ha & Hc); [|done].
  apply bind_Ok in Hloop as (st2 & Hwait & Hloop).
  apply wait_on_inode_Ok in Hwait as (-> & a0 & Ha0 & Hl).
  simpl in Ha0. rewrite Ha in Ha0. injection Ha0 as <-.
  apply bind_Ok in Hloop as (st3 & Hclean & Hloop).
  apply (write_until_clean_Ok _ _ _ _ a) in Hclean as (Hsb & a' & Ht & Ha');
    [|done|done].
  simpl in Hsb, Ht.
  assert (Hlen : (c < length (inode_table st))%nat)
    by (by apply lookup_lt_Some in Ha).
  unfold get_inode in Hloop. rewrite Ht in Hloop.
  rewrite list_lookup_insert_eq in Hloop by done. simpl in Hloop.
  assert (Hc' : i_count a' = 0) by (by destruct Ha' as [->| ->]).
  rewrite Hc' in Hloop. simpl in Hloop. injection Hloop as <- <-.
  split; [done|]. exists a. split; [done|]. split; [done|].
  simpl. rewrite Ht. by rewrite list_insert_insert_eq.
Qed.

Lemma get_empty_inode_inv (fuel : nat) (st st' : kernel) (k : nat) :
  inode_inv None st ->
  get_empty_inode IPB fuel st = Ok (st', k) ->
  inode_inv (Some k) st'
  /\ inode_table st' !! k = Some (set_i_count zero_inode 1).
Proof.
  intros Hinv Hrun.
  apply get_empty_inode_Ok in Hrun as (Hsb & a & Ha & Hc & Ht).
  split.
  - apply (inv_update None (Some k) st st' k a (set_i_count zero_inode 1)
             Hinv Ha Ht Hsb); simpl; auto; try lia; try done.
  - rewrite Ht. apply list_lookup_insert_eq. by apply lookup_lt_Some in Ha.
Qed.

Local Arguments iput : simpl never.
Local Arguments read_inode : simpl never.

Lemma mounted_super_Some (st : kernel) (i : nat) (sb : super_block) :
  mounted_super st i = Some sb ->
  sb ∈ super_blocks st /\ s_imount sb = Some i.
Proof.
  unfold mounted_super. intros H.
  destruct (list_find _ _) as [[n sb']|] eqn:Hf; simpl in H; [|done].
  injection H as ->. apply list_find_Some in Hf as (Hn & Hm & _).
  split; [by apply list_elem_of_lookup_2 in Hn|done].
Qed.

Lemma iget_scan_S (fuel : nat) (st : kernel) (empty : option nat) (dev nr : Z) :
  iget_scan IPB ROOT ISBLK (S fuel) st empty dev nr
  = match find_inode (inode_table st) dev nr 0 with
    | None =>
        match empty with
        | None => Ok (st, None)
        | Some inode =>
            let* a := get_inode st inode in
            let st := set_inode st inode (set_i_num (set_i_dev a dev) nr) in
            let* st := read_inode IPB st inode in
            Ok (st, Some inode)
        end
    | Some inode =>
        let* st := wait_on_inode st inode in
        let* a := get_inode st inode in
        if decide (i_dev a <> dev \/ i_num a <> nr) then
          iget_scan IPB ROOT ISBLK fuel st empty dev nr
        else
          let st := set_inode st inode (set_i_count a (i_count a + 1)) in
          if i_mount a then
            match mounted_super st inode with
            | None =>
                let st := printk st "Mounted inode hasn't got sb\n" in
                let* st := iput IPB ISBLK (S fuel) st empty in
                Ok (st, Some inode)
            | Some sb =>
                let* st := iput IPB ISBLK (S fuel) st (Some inode) in
                iget_scan IPB ROOT ISBLK fuel st empty (s_dev sb) ROOT
            end
          else
            let* st := iput IPB ISBLK (S fuel) st empty in
            Ok (st, Some inode)
    end.
Proof. reflexivity. Qed.

Lemma iget_scan_inv (fuel : nat) (st st' : kernel) (e : nat) (dev nr : Z)
    (h : option nat) :
  inode_inv (Some e) st ->
  inode_table st !! e = Some (set_i_count zero_inode 1) ->
  dev <> 0 ->
  iget_scan IPB ROOT ISBLK fuel st (Some e) dev nr = Ok (st', h) ->
  inode_inv None st'.
Proof.
  revert st dev nr. induction fuel as [|fuel IH];
    intros st dev nr Hinv He Hdev Hrun; [done|].
  rewrite iget_scan_S in Hrun.
  assert (Hlen : (e < length (inode_table st))%nat)
    by (by apply lookup_lt_Some in He).
  destruct (find_inode (inode_table st) dev nr 0) as [i|] eqn:Hfind.
  - (* an entry with this key exists *)
    apply find_inode_Some in Hfind as (b & _ & Hb & Hbd & Hbn).
    rewrite Nat.sub_0_r in Hb.
    apply bind_Ok in Hrun as (st1 & Hwait & Hrun).
    apply wait_on_inode_Ok in Hwait as (-> & a & Ha & Hl).
    rewrite Hb in Ha. injection Ha as <-.
    unfold get_inode in Hrun. rewrite Hb in Hrun. simpl in Hrun.
    destruct (decide _) in Hrun; [by apply (IH st dev nr)|].
    assert (Hie : i <> e).
    { intros ->. rewrite He in Hb. injection Hb as <-. simpl in Hbd. lia. }
    pose proof Hinv as (HU & HC & HS).
    destruct (HC i b Hb) as (Hc0 & _ & _).
    set (st1 := set_inode st i (set_i_count b (i_count b + 1))) in *.
    assert (Hinv1 : inode_inv (Some e) st1).
    { apply (inv_update (Some e) (Some e) st st1 i b
               (set_i_count b (i_count b + 1)) Hinv Hb);
        simpl; auto; try lia; try done. }
    assert (He1 : inode_table st1 !! e = Some (set_i_count zero_inode 1)).
    { simpl. by rewrite list_lookup_insert_ne. }
    destruct (i_mount b) eqn:Hmount in Hrun.
    + destruct (mounted_super st1 i) as [sb|] eqn:Hsb in Hrun.
      * apply bind_Ok in Hrun as (st2 & Hput & Hrun).
        apply (iput_inv (Some e)) in Hput as [Hinv2 Hsame]; [|done].
        apply mounted_super_Some in Hsb as [Hin Him].
        apply (IH st2 (s_dev sb) ROOT); try done.
        -- rewrite Hsame by done. done.
        -- apply (HS i b sb Hb Hmount); done.
      * rewrite (iput_spare_eq _ (printk st1 _) e) in Hrun by done.
        injection Hrun as <- <-.
        apply (inv_same_table None (set_inode st1 e zero_inode)); [done|done|].
        by apply inv_release_spare.
    + rewrite (iput_spare_eq _ st1 e) in Hrun by done.
      injection Hrun as <- <-. by apply inv_release_spare.
  - (* no entry: the spare slot takes the key *)
    unfold get_inode in Hrun. rewrite He in Hrun. simpl in Hrun.
    apply bind_Ok in Hrun as (st1 & Hread & Hret). injection Hret as <- <-.
    rewrite (read_inode_eq _ e
               (set_i_num (set_i_dev (set_i_count zero_inode 1) dev) nr))
      in Hread; [|by apply list_lookup_insert_eq|done].
    simpl in Hread.
    destruct (get_super _ dev) as [sb|] in Hread; [|done].
    destruct (disk st dev _) as [data|] in Hread; [|done].
    injection Hread as <-.
    apply (inv_assign e st _ _
             (set_i_disk
                (set_i_num (set_i_dev (set_i_count zero_inode 1) dev) nr)
                (data (inode_slot IPB nr)))
             dev nr Hinv He); simpl; try done.
    + by rewrite list_insert_insert_eq.
    + apply (find_inode_None _ _ _ _ Hfind).
Qed.

Lemma iget_inv (fuel : nat) (st st' : kernel) (dev nr : Z) (h : option nat) :
  inode_inv None st -> iget IPB ROOT ISBLK fuel st dev nr = Ok (st', h) ->
  inode_inv None st'.
Proof.
  intros Hinv Hrun. unfold iget in Hrun.
  destruct (Z.eqb_spec dev 0) as [|Hdev] in Hrun; [done|].
  apply bind_Ok in Hrun as ([st1 e] & Hempty & Hrun).
  apply (get_empty_inode_inv _ _ _ _ Hinv) in Hempty as [Hinv1 He].
  by apply (iget_scan_inv fuel st1 st' e dev nr h).
Qed.

Lemma step_inv (st st' : kernel) :
  inode_inv None st -> step IPB ROOT ISBLK st st' -> inode_inv None st'.
Proof.
  intros Hinv [fuel dev nr h Hrun|fuel [i|] Hrun].
  - by apply (iget_inv fuel st st' dev nr h).
  - by apply (iput_inv None fuel st st' i).
  - simpl in Hrun. by injection Hrun as <-.
Qed.

Lemma reachable_inv (st0 st : kernel) :
  inode_inv None st0 -> reachable IPB ROOT ISBLK st0 st -> inode_inv None st.
Proof.
  intros Hinv Hreach. induction Hreach as [|st st' _ IH Hstep]; [done|].
  by apply (step_inv st st').
Qed.

Lemma inv_one_entry_per_key (st : kernel) :
  inode_inv None st -> one_entry_per_key st.
Proof.
  intros (HU & HC & _) i j a b Ha Hb Hca Hcb Hd Hn.
  destruct (decide (i = j)) as [|Hne]; [done|]. exfalso.
  destruct (HC i a Ha) as (_ & _ & HD).
  by apply (HU i j a b Ha Hb Hne (HD Hca ltac:(done)) Hd).
Qed.

Lemma boot_inv (n : nat) (sbs : list super_block)
    (d : Z -> Z -> option inode_block) :
  inode_inv None (boot n sbs d).
Proof.
  unfold inode_inv, boot. simpl. split_and!.
  - intros i j a b Ha _ _ Hd. apply lookup_replicate in Ha as [-> _]. done.
  - intros i a Ha. apply lookup_replicate in Ha as [-> _]. simpl.
    split_and!; [lia|done|lia].
  - intros i a sb Ha Hm. apply lookup_replicate in Ha as [-> _]. done.
Qed.

Local Arguments iget_scan : simpl never.

Lemma find_inode_first (t : list m_inode) (dev nr : Z) (i0 i : nat) (a : m_inode) :
  t !! i = Some a -> i_dev a = dev -> i_num a = nr ->
  exists j, find_inode t dev nr i0 = Some (i0 + j)%nat /\ (j <= i)%nat.
Proof.
  revert i0 i. induction t as [|b t IH]; intros i0 i Ha Hd Hn; [done|].
  simpl. destruct (decide _) as [Hne|_].
  - destruct i as [|i]; simpl in Ha.
    + injection Ha as ->. destruct Hne; done.
    + destruct (IH (S i0) i Ha Hd Hn) as (j & Hj & Hle).
      exists (S j). split; [|lia]. rewrite Hj. f_equal. lia.
  - exists 0%nat. split; [f_equal; lia|lia].
Qed.

(** When the scan of [iget] meets the key, the entry is returned. *)
Lemma iget_existing (fuel : nat) (st st1 : kernel) (dev nr : Z) (i e : nat)
    (a : m_inode) :
  inode_inv None st ->
  get_empty_inode IPB fuel st = Ok (st1, e) ->
  inode_table st1 !! i = Some a ->
  i_dev a = dev -> i_num a = nr -> dev <> 0 -> i_mount a = false ->
  iget IPB ROOT ISBLK fuel st dev nr
  = Ok (set_inode (set_inode st1 i (set_i_count a (i_count a + 1)))
          e zero_inode, Some i).
Proof.
  intros Hinv Hempty Ha1 Hd Hn Hdev Hm.
  destruct fuel as [|fuel]; [simpl in Hempty; discriminate|].
  unfold iget. destruct (Z.eqb_spec dev 0) as [|_]; [done|].
  rewrite Hempty. simpl.
  destruct (get_empty_inode_inv _ _ _ _ Hinv Hempty) as [Hinv1 He1].
  pose proof Hinv1 as (HU1 & HC1 & _).
  destruct (HC1 i a Ha1) as (_ & Hl & _).
  assert (Hie : i <> e).
  { intros ->. rewrite He1 in Ha1. injection Ha1 as <-. simpl in Hd. lia. }
  rewrite iget_scan_S.
  destruct (find_inode_first (inode_table st1) dev nr 0 i a Ha1 Hd Hn)
    as (j & Hj & Hle).
  rewrite Hj. simpl.
  assert (j = i) as ->.
  { apply find_inode_Some in Hj as (c & _ & Hc1 & Hcd & Hcn).
    simpl in Hc1. rewrite Nat.sub_0_r in Hc1.
    destruct (decide (j = i)) as [|Hne]; [done|]. exfalso.
    apply (HU1 i j a c Ha1 Hc1); [done|congruence|congruence|congruence]. }
  rewrite (wait_on_inode_eq st1 i a Ha1 Hl). simpl.
  unfold get_inode. rewrite Ha1. simpl.
  destruct (decide _) as [[?|?]|_]; [done|done|].
  rewrite Hm.
  rewrite (iput_spare_eq (S fuel)
             (set_inode st1 i (set_i_count a (i_count a + 1))) e);
    [done|]. simpl. by rewrite list_lookup_insert_ne.
Qed.

(** C1. Start from a table that satisfies [inode_inv] (the table the
    kernel boots with does, [boot_inv]) and make any sequence of [iget]
    and [iput] calls that return: no two entries in use carry the same
    device and inode number. And in such a state, when [iget] has taken
    its spare slot [e] and the key asked for is in the table, in an
    entry that is not a mount point, [iget] returns that entry with its
    count one higher and gives the spare slot back (it is zero again):
    no second entry for the key is made. *)
Theorem iget_iput_one_entry_per_key (st0 st : kernel) :
  inode_inv None st0 -> reachable IPB ROOT ISBLK st0 st ->
  one_entry_per_key st
  /\ forall fuel dev nr i a st1 e,
       get_empty_inode IPB fuel st = Ok (st1, e) ->
       inode_table st1 !! i = Some a ->
       i_dev a = dev -> i_num a = nr -> dev <> 0 -> i_mount a = false ->
       iget IPB ROOT ISBLK fuel st dev nr
       = Ok (set_inode (set_inode st1 i (set_i_count a (i_count a + 1)))
               e zero_inode, Some i).
Proof.
  intros Hinv0 Hreach.
  pose proof (reachable_inv st0 st Hinv0 Hreach) as Hinv.
  split; [by apply inv_one_entry_per_key|].
  intros fuel dev nr i a st1 e. by apply iget_existing.
Qed.

(** C6. From a table that satisfies [inode_inv], after any sequence of
    [iget] and [iput] calls that return, no entry has a negative count;
    and [iput] on an entry whose count is 0 does not decrement: it
    panics. *)
Theorem iput_count_never_negative (st0 st : kernel) :
  inode_inv None st0 -> reachable IPB ROOT ISBLK st0 st ->
  (forall i a, inode_table st !! i = Some a -> 0 <= i_count a)
  /\ (forall fuel i a,
        inode_table st !! i = Some a -> i_count a = 0 ->
        iput IPB ISBLK fuel st (Some i) = Panic "iput: trying to free free inode").
Proof.
  intros Hinv0 Hreach.
  pose proof (reachable_inv st0 st Hinv0 Hreach) as (_ & HC & _).
  split.
  - intros i a Ha. by destruct (HC i a Ha).
  - intros fuel i a Ha Hc. destruct (HC i a Ha) as (_ & Hl & _).
    unfold iput. rewrite (wait_on_inode_eq st i a Ha Hl). simpl.
    unfold get_inode. rewrite Ha. simpl. by rewrite Hc.
Qed.

Lemma iput_last_dirty_eq (fuel : nat) (st : kernel) (i : nat) (a : m_inode) :
  inode_table st !! i = Some a ->
  i_lock a = false -> i_pipe a = false -> i_dev a <> 0 ->
  i_count a = 1 -> 0 < i_nlinks (i_disk a) -> i_dirt a = true ->
  iput IPB ISBLK fuel st (Some i)
  = match fuel with
    | O => Fuel
    | S fuel =>
        match get_super st (i_dev a) with
        | None => Panic "trying to write inode without device"
        | Some sb =>
            match bread st (i_dev a) (inode_block_nr IPB sb (i_num a)) with
            | None => Panic "unable to read i-node block"
            | Some _ =>
                match fuel with
                | O => Fuel
                | S _ =>
                    Ok (set_inode
                          (write_block st (i_dev a)
                             (inode_block_nr IPB sb (i_num a))
                             (inode_slot IPB (i_num a)) (i_disk a))
                          i (set_i_count (set_i_dirt a false) 0))
                end
            end
        end
    end.
Proof.
  intros Ha Hl Hp Hdev Hc Hn Hdirt.
  assert (Hlen : (i < length (inode_table st))%nat)
    by (by apply lookup_lt_Some in Ha).
  unfold iput. rewrite (wait_on_inode_eq st i a Ha Hl). simpl.
  unfold get_inode at 1. rewrite Ha. simpl. rewrite Hc, Hp. simpl.
  destruct (Z.eqb_spec (i_dev a) 0) as [|_]; [done|].
  assert (Hsync : (if ISBLK (i_mode (i_disk a))
                   then wait_on_inode (sync_dev st (i_zone (i_disk a) !!! 0%nat)) i
                   else Ok st) = Ok st).
  { destruct (ISBLK _); [|done]. apply (wait_on_inode_eq st i a Ha Hl). }
  rewrite Hsync. simpl.
  destruct fuel as [|fuel]; [done|]. simpl.
  unfold get_inode at 1. rewrite Ha. simpl. rewrite Hc. simpl.
  destruct (Z.eqb_spec (i_nlinks (i_disk a)) 0) as [|_]; [lia|].
  rewrite Hdirt. rewrite (write_inode_eq st i a Ha Hl). rewrite Hdirt. simpl.
  destruct (Z.eqb_spec (i_dev a) 0) as [|_]; [done|].
  destruct (get_super st (i_dev a)) as [sb|]; [|done].
  destruct (bread st (i_dev a) _); [|done]. simpl.
  rewrite (wait_on_inode_eq _ i (set_i_dirt a false));
    [|by apply list_lookup_insert_eq|done].
  simpl. destruct fuel as [|fuel]; [done|]. simpl.
  unfold get_inode. simpl. rewrite list_lookup_insert_eq by done. simpl.
  rewrite Hc. simpl.
  destruct (Z.eqb_spec (i_nlinks (i_disk a)) 0) as [|_]; [lia|].
  by rewrite set_inode_set_inode.
Qed.

Lemma invalidate_loop_eq (dev : Z) (n i : nat) (t : list m_inode) (last : nat)
    (sbs : list super_block) (d : Z -> Z -> option inode_block)
    (log : list string) :
  (i + n)%nat = length t ->
  Forall (fun a => i_lock a = false) (drop i t) ->
  invalidate_loop (mk_kernel t last sbs d log) dev i n
  = Ok (mk_kernel (take i t ++ (invalidated dev <$> drop i t)) last sbs d
          (log ++ in_use_messages dev (drop i t))).
Proof.
  revert i t log. induction n as [|n IH]; intros i t log Hlen Hunl;
    cbn [invalidate_loop].
  - rewrite drop_ge, take_ge by lia. simpl. by rewrite !app_nil_r.
  - destruct (lookup_lt_is_Some_2 t i ltac:(lia)) as [a Ha].
    rewrite (drop_S _ _ _ Ha) in Hunl |- *.
    apply Forall_cons in Hunl as [Hl Hunl].
    rewrite (wait_on_inode_eq (mk_kernel t last sbs d log) i a Ha Hl).
    cbn [bind]. unfold get_inode. cbn [inode_table]. rewrite Ha. cbn [bind].
    assert (Hstep : forall log',
      invalidate_loop
        (mk_kernel (<[i := invalidated dev a]> t) last sbs d log') dev (S i) n
      = Ok (mk_kernel (take i t ++ invalidated dev a
                         :: (invalidated dev <$> drop (S i) t)) last sbs d
              (log' ++ in_use_messages dev (drop (S i) t)))).
    { intros log'. rewrite IH.
      - rewrite drop_insert_lt by lia.
        erewrite take_S_r by (apply list_lookup_insert_eq; lia).
        rewrite take_insert_ge by lia. by rewrite <- app_assoc.
      - rewrite length_insert. lia.
      - by rewrite drop_insert_lt by lia. }
    unfold in_use_messages. rewrite bind_cons.
    fold (in_use_messages dev (drop (S i) t)). rewrite fmap_cons.
    destruct (i_dev a =? dev) eqn:Hmatch.
    + assert (Hi : invalidated dev a = set_i_dirt (set_i_dev a 0) false)
        by (unfold invalidated; by rewrite Hmatch).
      rewrite <- Hi.
      destruct (negb (i_count a =? 0)); unfold set_inode, set_table, printk;
        cbn [inode_table last_inode super_blocks disk klog andb];
        rewrite Hstep; by rewrite <- ?app_assoc.
    + assert (Hi : invalidated dev a = a)
        by (unfold invalidated; by rewrite Hmatch).
      rewrite Hi in Hstep |- *. rewrite <- (list_insert_id t i a Ha) at 1.
      by rewrite Hstep.
Qed.

(** C2 (as the code has it). [invalidate_inodes] on a table with no
    lock held returns, and every slot of the removed device, in use or
    not, has lost its device and its dirty flag and kept everything
    else, its count included; the other slots are as they were; and the
    diagnostic is printed once for each slot of the device that is in
    use. *)
Theorem invalidate_inodes_clears_every_match (st : kernel) (dev : Z) :
  Forall (fun a => i_lock a = false) (inode_table st) ->
  invalidate_inodes st dev
  = Ok (mk_kernel (invalidated dev <$> inode_table st) (last_inode st)
          (super_blocks st) (disk st)
          (klog st ++ in_use_messages dev (inode_table st))).
Proof.
  intros Hunl. unfold invalidate_inodes, NR_INODE. destruct st as [t last sbs d log].
  simpl in *. by rewrite invalidate_loop_eq.
Qed.

(** C10. [iput(NULL)] returns at once and leaves the state as it is. *)
Theorem iput_null_is_noop (fuel : nat) (st : kernel) :
  iput IPB ISBLK fuel st None = Ok st.
Proof. reflexivity. Qed.

End WithConstants.

Lemma iget_iput_one_entry_per_key_witness :
  exists st st',
    iget 32 1 example_isblk 3 example_kernel 3 7 = Ok (st, Some 1%nat)
    /\ one_entry_per_key st
    /\ iget 32 1 example_isblk 3 st 3 7 = Ok (st', Some 1%nat)
    /\ i_count <$> inode_table st' = [0; 2].
Proof.
  eassert (Hreach : reachable 32 1 example_isblk example_kernel _).
  { eapply reach_step; [apply reach_start|].
    apply (step_iget 32 1 example_isblk _ _ 3%nat 3 7 (Some 1%nat)).
    vm_compute. reflexivity. }
  destruct (iget_iput_one_entry_per_key 32 1 example_isblk example_kernel _
              (boot_inv 2 _ _) Hreach) as [Hone Hagain].
  do 2 eexists. split; [vm_compute; reflexivity|].
  split; [exact Hone|]. split.
  - eapply (Hagain 3%nat 3 7 1%nat _ _ 0%nat); try reflexivity. lia.
  - reflexivity.
Defined.

Lemma iput_count_never_negative_witness :
  exists st,
    iget 32 1 example_isblk 3 example_kernel 3 7 = Ok (st, Some 1%nat)
    /\ (forall i a, inode_table st !! i = Some a -> 0 <= i_count a)
    /\ iput 32 example_isblk 3 st (Some 0%nat) = Panic "iput: trying to free free inode".
Proof.
  eassert (Hreach : reachable 32 1 example_isblk example_kernel _).
  { eapply reach_step; [apply reach_start|].
    apply (step_iget 32 1 example_isblk _ _ 3%nat 3 7 (Some 1%nat)). vm_compute. reflexivity. }
  destruct (iput_count_never_negative 32 1 example_isblk _ _ (boot_inv 2 _ _) Hreach)
    as [Hcount Hpanic].
  eexists. split; [vm_compute; reflexivity|].
  split; [exact Hcount|].
  apply (Hpanic 3%nat 0%nat zero_inode); reflexivity.
Defined.

Lemma invalidate_inodes_clears_every_match_witness :
  invalidate_inodes example_dirty 3
  = Ok (mk_kernel (invalidated 3 <$> inode_table example_dirty) 0
          (super_blocks example_dirty) (disk example_dirty)
          ["inode in use on removed disk\n\r"]).
Proof.
  apply (invalidate_inodes_clears_every_match example_dirty 3).
  repeat constructor.
Defined.

Lemma invalidate_inodes_clears_referenced :
  exists a st' a',
    inode_table example_dirty !! 0%nat = Some a
    /\ i_dev a = 3 /\ i_count a = 1 /\ i_dirt a = true
    /\ invalidate_inodes example_dirty 3 = Ok st'
    /\ inode_table st' !! 0%nat = Some a'
    /\ i_count a' = 1 /\ i_dev a' = 0 /\ i_dirt a' = false.
Proof.
  do 3 eexists. split; [reflexivity|].
  do 3 (split; [reflexivity|]).
  split; [vm_compute; reflexivity|].
  split; [reflexivity|]. repeat split.
Qed.

End Inode_facts.

Section Ext2_more.
Import Ext2.

(** X18. The block [ext2_inode] loads is always the first block of
    the file: whatever the block size (not 0), the number of addresses
    in a block, the device and the inode, the walk ends at once with
    the number in direct pointer 0. No indirect block is read, and none
    of the three indirect arms is ever entered. *)
Theorem ext2_inode_block_first_direct (sb : super_block) (dev : blockdev)
    (i_data : list Z) (addr_per_block : Z) :
  s_blocksize sb <> 0 ->
  ext2_inode_block sb dev i_data addr_per_block = Ok (i_data !!! 0%nat).
Proof.
  intros Hbs. unfold ext2_inode_block.
  destruct (Z.eqb_spec (s_blocksize sb) 0) as [|_]; [done|].
  by rewrite Z.div_0_l.
Qed.

Lemma lookup_group_desc_table (bufs : list (list ext2_group_desc))
    (dpb g : nat) :
  (0 < dpb)%nat -> Forall (fun b => length b = dpb) bufs ->
  group_desc_table bufs !! g
  = bufs !! (g / dpb)%nat ≫= fun b => b !! (g mod dpb)%nat.
Proof.
  intros Hd Hall. unfold group_desc_table. revert g.
  induction Hall as [|b bufs Hb _ IH]; intros g; [done|]. simpl.
  destruct (decide (g < dpb)%nat) as [Hlt|Hge].
  - rewrite lookup_app_l by lia.
    rewrite Nat.div_small, Nat.mod_small by done. done.
  - rewrite lookup_app_r by lia. rewrite IH, Hb.
    assert (Hq : (g / dpb)%nat = S ((g - dpb) / dpb)).
    { replace (S ((g - dpb) / dpb)) with ((g - dpb) / dpb + 1)%nat by lia.
      rewrite <- Nat.div_add by lia. f_equal. lia. }
    assert (Hm : (g mod dpb)%nat = ((g - dpb) mod dpb)%nat).
    { rewrite <- (Nat.Div0.mod_add (g - dpb) 1 dpb). f_equal. lia. }
    by rewrite Hq, Hm.
Qed.

Lemma get_group_desc_table_eq (sb : super_block)
    (bufs : list (list ext2_group_desc)) (g : nat) (gdp : ext2_group_desc) :
  (0 < s_desc_per_block sb)%nat ->
  s_group_desc sb = Some <$> bufs ->
  Forall (fun b => length b = s_desc_per_block sb) bufs ->
  group_desc_table bufs !! g = Some gdp ->
  (g < s_groups_count sb)%nat ->
  get_group_desc sb g = Ok gdp.
Proof.
  intros Hd Hbufs Hall Hgdp Hlt. unfold get_group_desc.
  destruct (decide (s_groups_count sb <= g)%nat); [lia|].
  destruct (decide _) as [|_]; [lia|].
  rewrite (lookup_group_desc_table bufs (s_desc_per_block sb)) in Hgdp by done.
  rewrite Hbufs, list_lookup_fmap.
  destruct (bufs !! _) as [b|]; [|done]. simpl in *. by rewrite Hgdp.
Qed.

(** X20. [get_group_desc] on a descriptor table that is loaded, with
    [s_desc_per_block] descriptors in every buffer: the descriptor of
    group [g] is entry [g] of the buffers laid end to end. A group
    number at or above [s_groups_count] panics, whatever the table. *)
Theorem get_group_desc_is_table_entry (sb : super_block)
    (bufs : list (list ext2_group_desc)) (g : nat) (gdp : ext2_group_desc) :
  (0 < s_desc_per_block sb)%nat ->
  s_group_desc sb = Some <$> bufs ->
  Forall (fun b => length b = s_desc_per_block sb) bufs ->
  group_desc_table bufs !! g = Some gdp ->
  get_group_desc sb g
  = if decide (s_groups_count sb <= g)%nat
    then Panic "get_group_desc: block_group > groups_count"
    else Ok gdp.
Proof.
  intros Hd Hbufs Hall Hg.
  destruct (decide (s_groups_count sb <= g)%nat) as [Hge|Hlt].
  - unfold get_group_desc. by rewrite decide_True.
  - apply (get_group_desc_table_eq sb bufs g); try done. lia.
Qed.

Lemma succ_div_mod (i d : nat) :
  (0 < d)%nat ->
  ((S i) mod d = 0 /\ (S i) / d = S (i / d))%nat
  \/ ((S i) mod d = S (i mod d) /\ (S i) / d = i / d)%nat.
Proof.
  intros Hd.
  pose proof (Nat.div_mod_eq i d) as Hi.
  pose proof (Nat.mod_upper_bound i d ltac:(lia)) as Hm.
  destruct (decide (S (i mod d) = d)) as [Heq|Hne].
  - left.
    assert (Hs : S i = (d * S (i / d) + 0)%nat) by nia.
    split.
    + symmetry. apply (Nat.mod_unique _ _ (S (i / d))); [lia|done].
    + symmetry. apply (Nat.div_unique _ _ _ 0); [lia|done].
  - right.
    assert (Hs : S i = (d * (i / d) + S (i mod d))%nat) by lia.
    split.
    + symmetry. apply (Nat.mod_unique _ _ (i / d)); [lia|done].
    + symmetry. apply (Nat.div_unique _ _ _ (S (i mod d))); [lia|done].
Qed.

Lemma check_descriptors_loop_spec (st : fs) (bufs : list (list ext2_group_desc))
    (n i desc_block k : nat) (gdps : list ext2_group_desc) :
  let sb := fs_sb st in
  (0 < s_desc_per_block sb)%nat ->
  s_group_desc sb = Some <$> bufs ->
  Forall (fun b => length b = s_desc_per_block sb) bufs ->
  (i + n <= length (group_desc_table bufs))%nat ->
  0 <= s_first_data_block sb -> 0 <= s_blocks_per_group sb ->
  s_first_data_block sb + Z.of_nat (i + n) * s_blocks_per_group sb < 2 ^ 32 ->
  ((i mod s_desc_per_block sb = 0 /\ desc_block = i / s_desc_per_block sb)%nat
   \/ ((i mod s_desc_per_block sb)%nat <> 0%nat
       /\ desc_block = S (i / s_desc_per_block sb)
       /\ bufs !! (i / s_desc_per_block sb)%nat = Some gdps
       /\ k = (i mod s_desc_per_block sb)%nat)) ->
  exists st' r,
    check_descriptors_loop st i n desc_block gdps k
      (s_first_data_block sb + Z.of_nat i * s_blocks_per_group sb)
    = Ok (st', r)
    /\ (r = 1 /\ st' = st
        /\ (forall g, (i <= g < i + n)%nat ->
              exists gdp, group_desc_table bufs !! g = Some gdp
                          /\ desc_in_group sb g gdp)
        \/ r = 0 /\ fs_log st' <> fs_log st
           /\ exists g gdp, (i <= g < i + n)%nat
                /\ group_desc_table bufs !! g = Some gdp
                /\ ~ desc_in_group sb g gdp).
Proof.
  intros sb Hd Hbufs Hall. revert i desc_block k gdps.
  induction n as [|n IH]; intros i desc_block k gdps Hlen Hf Hb Hfit Hinv.
  { exists st, 1. split; [done|]. left. split_and!; try done. intros g. lia. }
  cbn [check_descriptors_loop]. fold sb.
  destruct (decide (s_desc_per_block sb = 0%nat)) as [|_]; [lia|].
  assert (Hi : (i < length (group_desc_table bufs))%nat) by lia.
  destruct (lookup_lt_is_Some_2 _ _ Hi) as [gdp Hgdp].
  pose proof Hgdp as Hgdp'.
  rewrite (lookup_group_desc_table bufs (s_desc_per_block sb)) in Hgdp'
    by done.
  destruct (bufs !! (i / s_desc_per_block sb)%nat) as [buf|] eqn:Hbuf;
    [|done]. simpl in Hgdp'.
  assert (Hsel :
    (if decide ((i mod s_desc_per_block sb)%nat = 0%nat) then
       match s_group_desc sb !! desc_block with
       | Some (Some g) => Ok (S desc_block, g, 0%nat)
       | _ => Fault
       end
     else Ok (desc_block, gdps, k))
    = Ok (S (i / s_desc_per_block sb), buf, (i mod s_desc_per_block sb)%nat)).
  { destruct Hinv as [[Hm ->]|(Hm & -> & Hg & ->)].
    - rewrite decide_True by done.
      rewrite Hbufs, list_lookup_fmap, Hbuf. simpl. by rewrite Hm.
    - rewrite decide_False by done. congruence. }
  rewrite Hsel. cbn [bind]. rewrite Hgdp'.
  set (block := s_first_data_block sb + Z.of_nat i * s_blocks_per_group sb).
  assert (Hlast : wrap32 (block + s_blocks_per_group sb)
                  = s_first_data_block sb
                    + Z.of_nat (S i) * s_blocks_per_group sb).
  { unfold wrap32, block. rewrite Z.mod_small; [lia|]. split; [nia|nia]. }
  rewrite Hlast.
  assert (Hin : desc_in_group sb i gdp
                <-> (bg_block_bitmap gdp <? block)
                    || (s_first_data_block sb
                        + Z.of_nat (S i) * s_blocks_per_group sb
                        <=? bg_block_bitmap gdp) = false
                    /\ (bg_inode_bitmap gdp <? block)
                       || (s_first_data_block sb
                           + Z.of_nat (S i) * s_blocks_per_group sb
                           <=? bg_inode_bitmap gdp) = false
                    /\ (bg_inode_table gdp <? block)
                       || (s_first_data_block sb
                           + Z.of_nat (S i) * s_blocks_per_group sb
                           <=? bg_inode_table gdp) = false).
  { unfold desc_in_group. fold sb. fold block.
    rewrite !orb_false_iff, !Z.ltb_ge, !Z.leb_gt. lia. }
  assert (Hbad : forall st1, fs_log st1 <> fs_log st ->
            ~ desc_in_group sb i gdp ->
            exists st' r, Ok (st1, 0) = Ok (st', r)
              /\ (r = 1 /\ st' = st
                  /\ (forall g, (i <= g < i + S n)%nat ->
                        exists gdp, group_desc_table bufs !! g = Some gdp
                                    /\ desc_in_group sb g gdp)
                  \/ r = 0 /\ fs_log st' <> fs_log st
                     /\ exists g gdp, (i <= g < i + S n)%nat
                          /\ group_desc_table bufs !! g = Some gdp
                          /\ ~ desc_in_group sb g gdp)).
  { intros st1 Hlog Hnot. exists st1, 0. split; [done|]. right.
    split_and!; try done. exists i, gdp. split; [lia|done]. }
  assert (Hlog : forall msg, fs_log (printk st msg) <> fs_log st).
  { intros msg. simpl. intros Heq.
    apply (f_equal length) in Heq. rewrite length_app in Heq. simpl in Heq.
    lia. }
  destruct ((bg_block_bitmap gdp <? block) || _) eqn:H1;
    [apply Hbad; [apply Hlog|]; intros (? & _)%Hin; done|].
  destruct ((bg_inode_bitmap gdp <? block) || _) eqn:H2;
    [apply Hbad; [apply Hlog|]; intros (_ & ? & _)%Hin; done|].
  destruct ((bg_inode_table gdp <? block) || _) eqn:H3;
    [apply Hbad; [apply Hlog|]; intros (_ & _ & ?)%Hin; done|].
  destruct (IH (S i) (S (i / s_desc_per_block sb))
              (S (i mod s_desc_per_block sb)) buf)
    as (st' & r & Hrun & Hres).
  - lia.
  - done.
  - done.
  - replace (S i + n)%nat with (i + S n)%nat by lia. done.
  - destruct (succ_div_mod i (s_desc_per_block sb) Hd) as [[Hm Hq]|[Hm Hq]].
    + left. by rewrite Hm, Hq.
    + right. rewrite Hm, Hq. done.
  - exists st', r. split; [done|].
    destruct Hres as [(-> & -> & Hall')|(-> & Hlog' & g & gdp' & Hg & Hnot)].
    + left. split_and!; try done. intros g Hg.
      destruct (decide (g = i)) as [->|Hne].
      * exists gdp. split; [done|]. by apply Hin.
      * apply Hall'. lia.
    + right. split_and!; try done. exists g, gdp'. split; [lia|done].
Qed.

(** X21. [ext2_check_descriptors] on a loaded descriptor table that
    covers every group returns 1, printing nothing, when for every
    group the block bitmap, the inode bitmap and the first block of the
    inode table lie in the blocks of that group; otherwise it returns 0,
    having printed, and some group has one of the three outside. The
    descriptor the walk looks at for a group is the one
    [get_group_desc] gives. *)
Theorem ext2_check_descriptors_result (st : fs)
    (bufs : list (list ext2_group_desc)) :
  (0 < s_desc_per_block (fs_sb st))%nat ->
  s_group_desc (fs_sb st) = Some <$> bufs ->
  Forall (fun b => length b = s_desc_per_block (fs_sb st)) bufs ->
  (s_groups_count (fs_sb st) <= length (group_desc_table bufs))%nat ->
  0 <= s_first_data_block (fs_sb st) -> 0 <= s_blocks_per_group (fs_sb st) ->
  s_first_data_block (fs_sb st)
  + Z.of_nat (s_groups_count (fs_sb st)) * s_blocks_per_group (fs_sb st)
  < 2 ^ 32 ->
  exists st' r,
    ext2_check_descriptors st = Ok (st', r)
    /\ (r = 1 /\ st' = st
        /\ (forall g, (g < s_groups_count (fs_sb st))%nat ->
              exists gdp, get_group_desc (fs_sb st) g = Ok gdp
                          /\ desc_in_group (fs_sb st) g gdp)
        \/ r = 0 /\ fs_log st' <> fs_log st
           /\ exists g gdp, (g < s_groups_count (fs_sb st))%nat
                /\ get_group_desc (fs_sb st) g = Ok gdp
                /\ ~ desc_in_group (fs_sb st) g gdp).
Proof.
  intros Hd Hbufs Hall Hlen Hf Hb Hfit. unfold ext2_check_descriptors.
  destruct (check_descriptors_loop_spec st bufs (s_groups_count (fs_sb st))
              0 0 0 [])
    as (st' & r & Hrun & Hres); try done.
  { left. by rewrite Nat.Div0.mod_0_l, Nat.Div0.div_0_l. }
  replace (s_first_data_block (fs_sb st)
           + Z.of_nat 0 * s_blocks_per_group (fs_sb st))
    with (s_first_data_block (fs_sb st)) in Hrun by lia.
  exists st', r. split; [done|].
  destruct Hres as [(-> & -> & Hin)|(-> & Hlog & g & gdp & Hg & Hgdp & Hnot)].
  - left. split_and!; try done. intros g Hg.
    destruct (Hin g) as (gdp & Hgdp & Hok); [lia|].
    exists gdp. split; [|done].
    by apply (get_group_desc_table_eq (fs_sb st) bufs g).
  - right. split_and!; try done. exists g, gdp.
    split_and!; [lia| |done].
    apply (get_group_desc_table_eq (fs_sb st) bufs g); try done. lia.
Qed.

Lemma ext2_inode_location_place (sb : super_block) (ipb ino block slot : Z) :
  0 < ipb -> 0 < s_inodes_per_group sb ->
  (ipb | s_inodes_per_group sb) ->
  1 <= ino < 2 ^ 32 ->
  ext2_inode_location sb ipb ino = Ok (block, slot) ->
  exists gdp,
    get_group_desc sb (Z.to_nat ((ino - 1) / s_inodes_per_group sb)) = Ok gdp
    /\ 0 <= slot < ipb
    /\ (bg_inode_table gdp + s_inodes_per_group sb / ipb <= 2 ^ 32 ->
        0 <= bg_inode_table gdp ->
        (block - bg_inode_table gdp) * ipb + slot
        = (ino - 1) mod s_inodes_per_group sb).
Proof.
  intros Hipb Hipg Hdiv Hino Hrun. unfold ext2_inode_location in Hrun.
  destruct (Z.eqb_spec (s_inodes_per_group sb) 0) as [|_]; [lia|].
  destruct (Z.eqb_spec ipb 0) as [|_]; [lia|]. simpl in Hrun.
  unfold wrap32 in Hrun. rewrite (Z.mod_small (ino - 1)) in Hrun by lia.
  set (grp := (ino - 1) / s_inodes_per_group sb) in *.
  assert (Hgrp : 0 <= grp) by (apply Z.div_pos; lia).
  destruct (Z.leb_spec (Z.of_nat (s_groups_count sb)) grp) as [|Hlt] in Hrun;
    [done|].
  destruct (decide (s_desc_per_block sb = 0%nat)) as [|Hd] in Hrun; [done|].
  destruct (s_group_desc sb !! _) as [[gdps|]|] eqn:Hbuf in Hrun;
    [|done|done].
  destruct (gdps !! _) as [gdp|] eqn:Hgdp in Hrun; [|done].
  injection Hrun as <- <-. exists gdp.
  split.
  { unfold get_group_desc.
    rewrite decide_False by lia. rewrite decide_False by done.
    by rewrite Hbuf, Hgdp. }
  split; [apply Z.mod_pos_bound; lia|].
  intros Hfit Htab.
  pose proof (Z.mod_pos_bound (ino - 1) (s_inodes_per_group sb) Hipg) as Hm.
  set (idx := (ino - 1) mod s_inodes_per_group sb) in *.
  assert (Hq : 0 <= idx / ipb < s_inodes_per_group sb / ipb).
  { split; [apply Z.div_pos; lia|].
    destruct Hdiv as [q Hq]. rewrite Hq, Z.div_mul by lia.
    apply Z.div_lt_upper_bound; [lia|]. rewrite Z.mul_comm. lia. }
  rewrite Z.mod_small by lia.
  rewrite <- (Z.mod_mod_divide (ino - 1) (s_inodes_per_group sb) ipb) by done.
  fold idx. pose proof (Z.div_mod idx ipb ltac:(lia)). lia.
Qed.

(** X27. Where [ext2_inode] looks for an inode. For inode numbers from
    1 on, with a whole number of inode blocks in a group, and with the
    inode tables of the groups inside the 32-bit block range and not
    overlapping one another: the place returned is in the inode table
    of the inode's group, the block offset in the table and the index
    in the block being the quotient and remainder of the inode's index
    in its group, and two inodes that get the same place are the same
    inode. Without the condition on the tables two inodes of different
    groups can get the same place. *)
Theorem ext2_inode_location_inj (sb : super_block)
    (ipb ino1 ino2 block slot : Z) :
  0 < ipb -> 0 < s_inodes_per_group sb ->
  (ipb | s_inodes_per_group sb) ->
  (forall g gdp, get_group_desc sb g = Ok gdp ->
     0 <= bg_inode_table gdp
     /\ bg_inode_table gdp + s_inodes_per_group sb / ipb <= 2 ^ 32) ->
  (forall g1 g2 gdp1 gdp2, g1 <> g2 ->
     get_group_desc sb g1 = Ok gdp1 -> get_group_desc sb g2 = Ok gdp2 ->
     bg_inode_table gdp1 + s_inodes_per_group sb / ipb <= bg_inode_table gdp2
     \/ bg_inode_table gdp2 + s_inodes_per_group sb / ipb
        <= bg_inode_table gdp1) ->
  1 <= ino1 < 2 ^ 32 -> 1 <= ino2 < 2 ^ 32 ->
  ext2_inode_location sb ipb ino1 = Ok (block, slot) ->
  ext2_inode_location sb ipb ino2 = Ok (block, slot) ->
  ino1 = ino2
  /\ exists gdp,
       get_group_desc sb (Z.to_nat ((ino1 - 1) / s_inodes_per_group sb))
       = Ok gdp
       /\ 0 <= slot < ipb
       /\ bg_inode_table gdp <= block
          < bg_inode_table gdp + s_inodes_per_group sb / ipb
       /\ (block - bg_inode_table gdp) * ipb + slot
          = (ino1 - 1) mod s_inodes_per_group sb.
Proof.
  intros Hipb Hipg Hdiv Hrange Hdisj Hino1 Hino2 Hloc1 Hloc2.
  destruct (ext2_inode_location_place sb ipb ino1 block slot)
    as (gdp1 & Hg1 & Hslot & Hplace1); try done.
  destruct (ext2_inode_location_place sb ipb ino2 block slot)
    as (gdp2 & Hg2 & _ & Hplace2); try done.
  destruct (Hrange _ _ Hg1) as [Ht1 Hf1]. destruct (Hrange _ _ Hg2) as [Ht2 Hf2].
  specialize (Hplace1 Hf1 Ht1). specialize (Hplace2 Hf2 Ht2).
  pose proof (Z.mod_pos_bound (ino1 - 1) (s_inodes_per_group sb) Hipg) as Hm1.
  pose proof (Z.mod_pos_bound (ino2 - 1) (s_inodes_per_group sb) Hipg) as Hm2.
  destruct Hdiv as [q Hq].
  assert (Hqd : s_inodes_per_group sb / ipb = q)
    by (rewrite Hq; apply Z.div_mul; lia).
  rewrite Hqd in *.
  assert (Hb1 : bg_inode_table gdp1 <= block < bg_inode_table gdp1 + q) by nia.
  assert (Hb2 : bg_inode_table gdp2 <= block < bg_inode_table gdp2 + q) by nia.
  set (g1 := Z.to_nat ((ino1 - 1) / s_inodes_per_group sb)) in *.
  set (g2 := Z.to_nat ((ino2 - 1) / s_inodes_per_group sb)) in *.
  assert (Hg : g1 = g2).
  { destruct (decide (g1 = g2)) as [|Hne]; [done|]. exfalso.
    destruct (Hdisj g1 g2 gdp1 gdp2 Hne Hg1 Hg2); lia. }
  split; [|by exists gdp1].
  rewrite <- Hg, Hg1 in Hg2. injection Hg2 as <-.
  assert (Hquot : (ino1 - 1) / s_inodes_per_group sb
                  = (ino2 - 1) / s_inodes_per_group sb).
  { apply Z2Nat.inj; [apply Z.div_pos; lia|apply Z.div_pos; lia|done]. }
  pose proof (Z.div_mod (ino1 - 1) (s_inodes_per_group sb) ltac:(lia)) as E1.
  pose proof (Z.div_mod (ino2 - 1) (s_inodes_per_group sb) ltac:(lia)) as E2.
  rewrite Hquot in E1. lia.
Qed.

(** X28. [ext2_inode] on an inode number that no group holds: number 0
    (one less wraps around) and the numbers above
    [groups * inodes_per_group] end in the panic on the group number. *)
Theorem ext2_inode_location_rejects (sb : super_block) (ipb ino : Z) :
  0 < ipb -> 0 < s_inodes_per_group sb ->
  Z.of_nat (s_groups_count sb) * s_inodes_per_group sb < 2 ^ 32 ->
  0 <= ino < 2 ^ 32 ->
  ino = 0 \/ Z.of_nat (s_groups_count sb) * s_inodes_per_group sb < ino ->
  ext2_inode_location sb ipb ino = Panic "EXT2-fs: group > groups count".
Proof.
  intros Hipb Hipg Hfit Hino Hbad. unfold ext2_inode_location.
  destruct (Z.eqb_spec (s_inodes_per_group sb) 0) as [|_]; [lia|].
  destruct (Z.eqb_spec ipb 0) as [|_]; [lia|]. simpl.
  assert (Hge : Z.of_nat (s_groups_count sb) * s_inodes_per_group sb
                <= wrap32 (ino - 1)).
  { unfold wrap32. destruct Hbad as [->|Hgt].
    - change ((0 - 1) mod 2 ^ 32) with (2 ^ 32 - 1). lia.
    - rewrite Z.mod_small by lia. lia. }
  destruct (Z.leb_spec (Z.of_nat (s_groups_count sb))
              (wrap32 (ino - 1) / s_inodes_per_group sb)) as [|Hlt]; [done|].
  exfalso.
  assert (wrap32 (ino - 1)
          < Z.of_nat (s_groups_count sb) * s_inodes_per_group sb); [|lia].
  pose proof (Z.div_mod (wrap32 (ino - 1)) (s_inodes_per_group sb)
                ltac:(lia)) as Hdm.
  pose proof (Z.mod_pos_bound (wrap32 (ino - 1)) (s_inodes_per_group sb)
                Hipg) as Hm.
  nia.
Qed.

Lemma lru_scan_spec (number : list nat) (g i0 n : nat) :
  (i0 <= lru_scan number g i0 n <= i0 + n)%nat
  /\ (forall k, (i0 <= k < lru_scan number g i0 n)%nat -> number !!! k <> g)
  /\ ((lru_scan number g i0 n < i0 + n)%nat ->
      number !!! lru_scan number g i0 n = g).
Proof.
  revert i0. induction n as [|n IH]; intros i0; simpl.
  { split; [lia|]. split; [intros k; lia|lia]. }
  destruct (decide (number !!! i0 = g)) as [Heq|Hne].
  { split; [lia|]. split; [intros k; lia|done]. }
  destruct (IH (S i0)) as (Hr & Hbefore & Hat).
  split; [lia|]. split; [|intros Hlt; apply Hat; lia].
  intros k Hk. destruct (decide (k = i0)) as [->|]; [done|].
  apply Hbefore. lia.
Qed.

Lemma take_promote {A : Type} `{Inhabited A} (loaded i : nat) (a : list A) :
  (i < loaded)%nat -> (loaded <= length a)%nat ->
  take loaded (promote i a) = promote i (take loaded a).
Proof.
  intros Hi Hl. unfold promote.
  rewrite lookup_total_take, decide_True by lia.
  destruct loaded as [|loaded]; [lia|].
  rewrite firstn_cons. f_equal.
  rewrite take_app_ge by (rewrite length_take; lia).
  rewrite length_take, take_take.
  replace (i `min` length a)%nat with i by lia.
  replace (i `min` S loaded)%nat with i by lia.
  f_equal. rewrite take_drop_commute. f_equal. f_equal. lia.
Qed.

Lemma take_cons_pos {A : Type} (n : nat) (x : A) (l : list A) :
  (0 < n)%nat -> take n (x :: l) = x :: take (n - 1) l.
Proof. destruct n; [lia|]. intros _. simpl. by rewrite Nat.sub_0_r. Qed.

Lemma filter_ne_id (g : nat) (l : list nat) :
  g ∉ l -> filter (fun x => x <> g) l = l.
Proof.
  induction l as [|y l IH]; intros Hnot; [done|].
  apply not_elem_of_cons in Hnot as [Hne Hnot].
  rewrite filter_cons, decide_True by done. by rewrite IH.
Qed.

Lemma miss_not_resident (loaded : nat) (number : list nat) (g : nat) :
  miss loaded number g -> g ∉ take loaded number.
Proof.
  intros Hmiss Hin. apply list_elem_of_lookup in Hin as [k Hk].
  apply lookup_take_Some in Hk as [Hk Hlt]. by apply (Hmiss k).
Qed.

Lemma promote_hit (l : list nat) (g i : nat) :
  NoDup l -> l !! i = Some g ->
  promote i l = g :: filter (fun x => x <> g) l /\ NoDup (promote i l).
Proof.
  intros Hnd Hi. unfold promote.
  rewrite (list_lookup_total_correct _ _ _ Hi).
  pose proof (take_drop_middle l i g Hi) as Hl.
  rewrite <- Hl in Hnd.
  apply NoDup_app in Hnd as (Hnd1 & Hdisj & Hnd2).
  apply NoDup_cons in Hnd2 as [Hnot2 Hnd2].
  assert (Hnot1 : g ∉ take i l).
  { intros Hin. apply (Hdisj g Hin). by left. }
  split.
  - f_equal. rewrite <- Hl at 3.
    rewrite filter_app, filter_cons, decide_False by (intros Hne; by apply Hne).
    by rewrite !filter_ne_id.
  - apply NoDup_cons. split.
    + intros Hin. apply elem_of_app in Hin as [Hin|Hin]; done.
    + apply NoDup_app. split_and!; [done| |done].
      intros y Hy1 Hy2. apply (Hdisj y Hy1). by right.
Qed.

Lemma Forall2_promote {A B : Type} `{Inhabited A} `{Inhabited B}
    (P : A -> B -> Prop) (i : nat) (l1 : list A) (l2 : list B) :
  (i < length l1)%nat -> Forall2 P l1 l2 ->
  Forall2 P (promote i l1) (promote i l2).
Proof.
  intros Hi Hall. unfold promote.
  destruct (lookup_lt_is_Some_2 l1 i Hi) as [x Hx].
  destruct (Forall2_lookup_l P l1 l2 i x Hall Hx) as (y & Hy & Hxy).
  rewrite (list_lookup_total_correct _ _ _ Hx).
  rewrite (list_lookup_total_correct _ _ _ Hy).
  constructor; [done|]. apply Forall2_app.
  - by apply Forall2_take.
  - by apply Forall2_drop.
Qed.

Section WithCapacity.
Variable MAXG : nat.
Hypothesis MAXG_pos : (0 < MAXG)%nat.

(** What a call of [load_block_bitmap] that returns has done to a
    cache in LRU mode: either the group was resident, at slot [i], and
    is now in front; or it was not, and it is now in front of the
    entries that were resident, the last of them dropped when the cache
    was full. *)
Lemma load_block_bitmap_cases (st st' : fs) (g nr : nat) :
  cache_ok MAXG st ->
  load_block_bitmap MAXG st g = Ok (st', nr) ->
  nr = 0%nat /\ fs_dev st' = fs_dev st
  /\ ((exists i,
         hit_at (s_loaded_block_bitmaps (fs_sb st))
           (s_block_bitmap_number (fs_sb st)) g i
         /\ fs_sb st'
            = set_block_cache (fs_sb st) (s_loaded_block_bitmaps (fs_sb st))
                (promote i (s_block_bitmap_number (fs_sb st)))
                (promote i (s_block_bitmap (fs_sb st))))
      \/ (exists gdp loaded',
            miss (s_loaded_block_bitmaps (fs_sb st))
              (s_block_bitmap_number (fs_sb st)) g
            /\ get_group_desc (fs_sb st) g = Ok gdp
            /\ loaded' = (S (s_loaded_block_bitmaps (fs_sb st)) `min` MAXG)%nat
            /\ fs_sb st'
               = set_block_cache (fs_sb st) loaded'
                   (g :: take (loaded' - 1) (s_block_bitmap_number (fs_sb st))
                      ++ drop loaded' (s_block_bitmap_number (fs_sb st)))
                   (bread (fs_dev st) (bg_block_bitmap gdp)
                      :: take (loaded' - 1) (s_block_bitmap (fs_sb st))
                      ++ drop loaded' (s_block_bitmap (fs_sb st))))).
Proof.
  intros Hok Hrun.
  pose proof Hok as (Hlru & Hld & Hn & Hb & _).
  unfold load_block_bitmap in Hrun.
  destruct (decide _) as [[H0 Hg0]|_] in Hrun.
  { injection Hrun as <- <-. split_and!; try done.
    left. exists 0%nat. split.
    + split_and!; [done| |intros k; lia].
      apply lookup_total_eq_iff; [lia|done].
    + rewrite !promote_0.
      * by rewrite set_block_cache_id.
      * intros E. rewrite E in Hb. simpl in Hb. lia.
      * intros E. rewrite E in Hn. simpl in Hn. lia. }
  destruct (decide _) as [[Hle _]|_] in Hrun; [lia|].
  unfold load__block_bitmap in Hrun.
  destruct (decide (s_groups_count (fs_sb st) <= g)%nat) in Hrun; [done|].
  destruct (decide (s_groups_count (fs_sb st) <= MAXG)%nat) in Hrun; [lia|].
  destruct (lru_scan_spec (s_block_bitmap_number (fs_sb st)) g 0
              (s_loaded_block_bitmaps (fs_sb st))) as (Hr & Hbefore & Hat).
  set (loaded := s_loaded_block_bitmaps (fs_sb st)) in *.
  set (i := lru_scan _ _ _ _) in *.
  destruct (decide _) as [[Hi Hgi]|Hno] in Hrun.
  - injection Hrun as <- <-. rewrite !shift_down_spec by lia.
    split_and!; try done. left. exists i. split; [|done].
    split_and!; [done|apply lookup_total_eq_iff; [lia|done]|].
    intros k Hk Hkg. apply (Hbefore k); [lia|].
    apply lookup_total_eq_iff; [lia|done].
  - assert (Hmiss : miss loaded (s_block_bitmap_number (fs_sb st)) g).
    { intros k Hk Hkg.
      destruct (decide (i < loaded)%nat) as [Hlt|Hge].
      - apply Hno. split; [done|]. apply Hat. lia.
      - apply (Hbefore k); [lia|]. apply lookup_total_eq_iff; [lia|done]. }
    destruct (decide (loaded < MAXG)%nat) as [Hroom|Hfull] in Hrun.
    + replace (S loaded - 1)%nat with loaded in Hrun by lia.
      unfold read_block_bitmap in Hrun. simpl in Hrun.
      apply bind_Ok in Hrun as (st1 & Hrun & Hret). injection Hret as <- <-.
      apply bind_Ok in Hrun as (gdp & Hgdp & Hrun).
      change (get_group_desc _ g) with (get_group_desc (fs_sb st) g) in Hgdp.
      unfold fs_bread in Hrun. simpl in Hrun.
      replace (S loaded `min` MAXG)%nat with (S loaded) by lia.
      replace (S loaded - 1)%nat with loaded by lia.
      destruct (bread (fs_dev st) (bg_block_bitmap gdp)) as [bh|] eqn:Hbh;
        simpl in Hrun; injection Hrun as <-; rewrite !shift_down_spec by lia;
        (split; [done|]; split; [done|]; right; exists gdp, (S loaded);
         split; [done|]; split; [done|]; split; [lia|];
         replace (S loaded - 1)%nat with loaded by lia; rewrite Hbh; done).
    + assert (Hl : loaded = MAXG) by lia.
      unfold read_block_bitmap in Hrun. simpl in Hrun.
      apply bind_Ok in Hrun as (st1 & Hrun & Hret). injection Hret as <- <-.
      apply bind_Ok in Hrun as (gdp & Hgdp & Hrun).
      change (get_group_desc _ g) with (get_group_desc (fs_sb st) g) in Hgdp.
      unfold fs_bread in Hrun. simpl in Hrun.
      replace (fs_dev (brelse st (s_block_bitmap (fs_sb st) !!! (MAXG - 1)%nat)))
        with (fs_dev st) in Hrun by (by destruct (s_block_bitmap (fs_sb st) !!! _)).
      destruct (bread (fs_dev st) (bg_block_bitmap gdp)) as [bh|] eqn:Hbh;
        simpl in Hrun; injection Hrun as <-; rewrite !shift_down_spec by lia;
        (split; [done|];
         split; [by destruct (s_block_bitmap (fs_sb st) !!! _)|];
         right; exists gdp, loaded;
         split; [done|]; split; [done|]; split; [lia|];
         rewrite Hbh; simpl;
         replace (S (loaded - 1)) with loaded by lia; done).
Qed.

(** X22. The order of the block-bitmap cache in LRU mode. After a call
    of [load_block_bitmap] that returns, the group asked for is in slot
    0, and behind it are the groups that were resident, without it, in
    the order they had, cut to the capacity of the cache. No group is
    resident twice. *)
Theorem load_block_bitmap_lru_order (st st' : fs) (g nr : nat) :
  cache_ok MAXG st ->
  NoDup (resident_groups (fs_sb st)) ->
  load_block_bitmap MAXG st g = Ok (st', nr) ->
  nr = 0%nat
  /\ resident_groups (fs_sb st')
     = take MAXG (g :: filter (fun x => x <> g) (resident_groups (fs_sb st)))
  /\ NoDup (resident_groups (fs_sb st')).
Proof.
  intros Hok Hnd Hrun. pose proof Hok as (Hlru & Hld & Hn & Hb & _).
  destruct (load_block_bitmap_cases st st' g nr Hok Hrun)
    as (-> & Hdev & [(i & (Hi & Hgi & Hfirst) & Hsb)
                    |(gdp & loaded' & Hmiss & Hgdp & -> & Hsb)]);
    (split; [done|]); unfold resident_groups in *; rewrite Hsb;
    cbn [s_loaded_block_bitmaps s_block_bitmap_number s_block_bitmap
         set_block_cache s_groups_count].
  - rewrite take_promote by lia.
    destruct (promote_hit (take (s_loaded_block_bitmaps (fs_sb st))
                             (s_block_bitmap_number (fs_sb st))) g i Hnd)
      as [Heq Hnd'].
    { apply lookup_take_Some. done. }
    split; [|done]. rewrite <- Heq. symmetry. apply take_ge.
    unfold promote. simpl.
    rewrite length_app, !length_take, length_drop, length_take. lia.
  - apply miss_not_resident in Hmiss.
    rewrite filter_ne_id by done.
    set (loaded := s_loaded_block_bitmaps (fs_sb st)) in *.
    rewrite !take_cons_pos by lia.
    rewrite take_app_le by (rewrite length_take; lia).
    rewrite !take_take.
    replace ((S loaded `min` MAXG - 1) `min` (S loaded `min` MAXG - 1))%nat
      with ((MAXG - 1) `min` loaded)%nat by lia.
    split; [done|].
    apply NoDup_cons. split.
    + intros Hin. apply Hmiss.
      apply list_elem_of_lookup in Hin as [k Hk].
      apply lookup_take_Some in Hk as [Hk Hlt].
      apply list_elem_of_lookup. exists k.
      apply lookup_take_Some. split; [done|lia].
    + rewrite <- (take_take _ (MAXG - 1) loaded).
      eapply sublist_NoDup; [exact Hnd|apply sublist_take].
Qed.

Lemma get_group_desc_set_block_cache (sb : super_block) (loaded : nat)
    (numbers : list nat) (bitmaps : list (option buffer_head)) (g : nat) :
  get_group_desc (set_block_cache sb loaded numbers bitmaps) g
  = get_group_desc sb g.
Proof. reflexivity. Qed.

(** X23. The slot [load_block_bitmap] returns holds what was asked
    for. In LRU mode, when every resident slot holds what [bread] gives
    for the bitmap block of the group it is numbered with, this is
    still so after the call, and the slot returned is numbered with the
    group asked for and holds the bitmap block its descriptor names,
    either kept from before or just read. *)
Theorem load_block_bitmap_returns_group_bitmap (st st' : fs) (g nr : nat) :
  cache_ok MAXG st ->
  block_cache_coherent st ->
  load_block_bitmap MAXG st g = Ok (st', nr) ->
  block_cache_coherent st'
  /\ exists gdp,
       get_group_desc (fs_sb st) g = Ok gdp
       /\ s_block_bitmap_number (fs_sb st') !! nr = Some g
       /\ s_block_bitmap (fs_sb st') !! nr
          = Some (bread (fs_dev st) (bg_block_bitmap gdp)).
Proof.
  intros Hok Hco Hrun. pose proof Hok as (Hlru & Hld & Hn & Hb & _).
  destruct (load_block_bitmap_cases st st' g nr Hok Hrun)
    as (-> & Hdev & [(i & (Hi & Hgi & Hfirst) & Hsb)
                    |(gdp & loaded' & Hmiss & Hgdp & -> & Hsb)]);
    unfold block_cache_coherent in *; rewrite Hsb, Hdev;
    cbn [s_loaded_block_bitmaps s_block_bitmap_number s_block_bitmap
         set_block_cache s_groups_count].
  - set (P := fun (g : nat) (bh : option buffer_head) =>
                exists gdp, get_group_desc (fs_sb st) g = Ok gdp
                            /\ bh = bread (fs_dev st) (bg_block_bitmap gdp))
      in *.
    assert (Hg1 : take (s_loaded_block_bitmaps (fs_sb st))
                    (s_block_bitmap_number (fs_sb st)) !! i = Some g)
      by (by apply lookup_take_Some).
    destruct (Forall2_lookup_l P _ _ i g Hco Hg1) as (bh & Hbh & gdp & Hgdp & ->).
    apply lookup_take_Some in Hbh as [Hbh _].
    split.
    + rewrite !take_promote by lia.
      apply (Forall2_promote P); [|done]. rewrite length_take. lia.
    + exists gdp. split; [done|]. unfold promote. cbn [lookup list_lookup].
      rewrite (list_lookup_total_correct _ _ _ Hgi).
      by rewrite (list_lookup_total_correct _ _ _ Hbh).
  - split; [|by exists gdp].
    set (loaded := s_loaded_block_bitmaps (fs_sb st)) in *.
    rewrite !take_cons_pos by lia.
    rewrite !take_app_le by (rewrite length_take; lia).
    rewrite !take_take.
    constructor; [by exists gdp|].
    apply (Forall2_take _ _ _ (MAXG - 1)) in Hco.
    rewrite !take_take in Hco.
    replace ((S loaded `min` MAXG - 1) `min` (S loaded `min` MAXG - 1))%nat
      with ((MAXG - 1) `min` loaded)%nat by lia.
    done.
Qed.

(** X24. A load that has returned can be repeated at no cost: in LRU
    mode a second call of [load_block_bitmap] for the same group
    returns the same slot and changes nothing, so no block is read and
    no buffer released. *)
Theorem load_block_bitmap_again (st st' : fs) (g nr : nat) :
  cache_ok MAXG st ->
  load_block_bitmap MAXG st g = Ok (st', nr) ->
  load_block_bitmap MAXG st' g = Ok (st', nr).
Proof.
  intros Hok Hrun. pose proof Hok as (Hlru & Hld & Hn & Hb & _).
  destruct (load_block_bitmap_cases st st' g nr Hok Hrun)
    as (-> & Hdev & [(i & (Hi & Hgi & Hfirst) & Hsb)
                    |(gdp & loaded' & Hmiss & Hgdp & -> & Hsb)]);
    unfold load_block_bitmap; rewrite Hsb;
    cbn [s_loaded_block_bitmaps s_block_bitmap_number s_block_bitmap
         set_block_cache s_groups_count].
  - rewrite decide_True; [done|]. split; [lia|].
    unfold promote. cbn [lookup_total list_lookup_total].
    by apply list_lookup_total_correct.
  - rewrite decide_True; [done|]. split; [lia|done].
Qed.

(** X25. [load_block_bitmap] on a mount small enough for every group
    to have a slot of its own (no more groups than cache slots, the LRU
    count never used): the slot returned is the group's own, numbered
    with the group; no other slot is touched; and once the slot holds a
    bitmap a second call returns it without a change. *)
Theorem load_block_bitmap_direct (st st' : fs) (g nr : nat) :
  (s_groups_count (fs_sb st) <= MAXG)%nat ->
  s_loaded_block_bitmaps (fs_sb st) = 0%nat ->
  length (s_block_bitmap_number (fs_sb st)) = MAXG ->
  length (s_block_bitmap (fs_sb st)) = MAXG ->
  load_block_bitmap MAXG st g = Ok (st', nr) ->
  nr = g /\ (g < MAXG)%nat
  /\ s_block_bitmap_number (fs_sb st') !! g = Some g
  /\ (forall k, k <> g ->
        s_block_bitmap_number (fs_sb st') !! k
        = s_block_bitmap_number (fs_sb st) !! k
        /\ s_block_bitmap (fs_sb st') !! k = s_block_bitmap (fs_sb st) !! k)
  /\ (s_block_bitmap (fs_sb st') !!! g <> None ->
      load_block_bitmap MAXG st' g = Ok (st', g)).
Proof.
  intros Hsmall Hld Hn Hb Hrun. pose proof Hrun as Hrun0.
  unfold load_block_bitmap in Hrun.
  destruct (decide _) as [[H0 _]|_] in Hrun; [lia|].
  assert (Hsame : forall s, Ok (st, g) = Ok (s, nr) ->
                    load_block_bitmap MAXG st g = Ok (s, nr) ->
                    (g < MAXG)%nat ->
                    s_block_bitmap_number (fs_sb st) !!! g = g ->
                    nr = g /\ (g < MAXG)%nat
                    /\ s_block_bitmap_number (fs_sb s) !! g = Some g
                    /\ (forall k, k <> g ->
                          s_block_bitmap_number (fs_sb s) !! k
                          = s_block_bitmap_number (fs_sb st) !! k
                          /\ s_block_bitmap (fs_sb s) !! k
                             = s_block_bitmap (fs_sb st) !! k)
                    /\ (s_block_bitmap (fs_sb s) !!! g <> None ->
                        load_block_bitmap MAXG s g = Ok (s, g))).
  { intros s Heq Hload Hlt Hnum. injection Heq as <- <-.
    split_and!; try done. apply lookup_total_eq_iff; [lia|done]. }
  destruct (decide _) as [(_ & Hnum & Hsome)|Hslow] in Hrun.
  { assert (Hlt : (g < MAXG)%nat).
    { destruct (decide (g < MAXG)%nat) as [|Hge]; [done|]. exfalso.
      apply Hsome. rewrite list_lookup_total_alt.
      rewrite lookup_ge_None_2 by lia. done. }
    by apply (Hsame st' Hrun Hrun0 Hlt Hnum). }
  unfold load__block_bitmap in Hrun.
  destruct (decide (s_groups_count (fs_sb st) <= g)%nat) in Hrun; [done|].
  destruct (decide (s_groups_count (fs_sb st) <= MAXG)%nat) in Hrun; [|lia].
  destruct (s_block_bitmap (fs_sb st) !!! g) as [bh0|] eqn:Hslot in Hrun.
  { destruct (decide _) as [|Hnum] in Hrun; [done|].
    apply dec_stable in Hnum.
    apply (Hsame st' Hrun Hrun0); [lia|done]. }
  apply bind_Ok in Hrun as (st1 & Hread & Hret). injection Hret as <- <-.
  unfold read_block_bitmap in Hread.
  apply bind_Ok in Hread as (gdp & Hgdp & Hread).
  set (bh := bread (fs_dev st) (bg_block_bitmap gdp)).
  assert (Hsb : fs_sb st1
                = set_block_cache (fs_sb st) (s_loaded_block_bitmaps (fs_sb st))
                    (<[g := g]> (s_block_bitmap_number (fs_sb st)))
                    (<[g := bh]> (s_block_bitmap (fs_sb st)))).
  { unfold fs_bread in Hread. fold bh in Hread.
    destruct bh; injection Hread as <-; done. }
  split; [done|]. split; [lia|]. rewrite Hsb.
  cbn [s_loaded_block_bitmaps s_block_bitmap_number s_block_bitmap
         set_block_cache s_groups_count].
  split; [apply list_lookup_insert_eq; lia|]. split.
  - intros k Hk. by rewrite !list_lookup_insert_ne.
  - intros Hs. unfold load_block_bitmap. rewrite Hsb.
    cbn [s_loaded_block_bitmaps s_block_bitmap_number s_block_bitmap
           set_block_cache s_groups_count].
    rewrite decide_False by lia.
    rewrite decide_True; [done|]. split; [done|]. split; [|done].
    apply list_lookup_total_correct, list_lookup_insert_eq. lia.
Qed.

Lemma load_inode_bitmap_cases (st st' : fs) (g nr : nat) :
  cache_ok MAXG st ->
  load_inode_bitmap MAXG st g = Ok (st', nr) ->
  nr = 0%nat /\ fs_dev st' = fs_dev st
  /\ ((exists i,
         hit_at (s_loaded_inode_bitmaps (fs_sb st))
           (s_inode_bitmap_number (fs_sb st)) g i
         /\ fs_sb st'
            = set_inode_cache (fs_sb st) (s_loaded_inode_bitmaps (fs_sb st))
                (promote i (s_inode_bitmap_number (fs_sb st)))
                (promote i (s_inode_bitmap (fs_sb st))))
      \/ (exists gdp bh loaded',
            miss (s_loaded_inode_bitmaps (fs_sb st))
              (s_inode_bitmap_number (fs_sb st)) g
            /\ get_group_desc (fs_sb st) g = Ok gdp
            /\ bread (fs_dev st) (bg_inode_bitmap gdp) = Some bh
            /\ loaded' = (S (s_loaded_inode_bitmaps (fs_sb st)) `min` MAXG)%nat
            /\ fs_sb st'
               = set_inode_cache (fs_sb st) loaded'
                   (g :: take (loaded' - 1) (s_inode_bitmap_number (fs_sb st))
                      ++ drop loaded' (s_inode_bitmap_number (fs_sb st)))
                   (Some bh
                      :: take (loaded' - 1) (s_inode_bitmap (fs_sb st))
                      ++ drop loaded' (s_inode_bitmap (fs_sb st))))).
Proof.
  intros Hok0 Hrun. unfold load_inode_bitmap in Hrun.
  set (st1 := if decide (s_groups_count (fs_sb st) <= g)%nat then _ else st)
    in Hrun.
  assert (Hsb1 : fs_sb st1 = fs_sb st).
  { unfold st1. destruct (decide (s_groups_count (fs_sb st) <= g)%nat);
      reflexivity. }
  assert (Hdev1 : fs_dev st1 = fs_dev st).
  { unfold st1. destruct (decide (s_groups_count (fs_sb st) <= g)%nat);
      reflexivity. }
  clearbody st1. rewrite <- Hsb1, <- Hdev1.
  pose proof Hok0 as (Hlru & _ & _ & _ & Hld & Hn & Hb & _).
  rewrite <- Hsb1 in Hlru, Hld, Hn, Hb. clear Hok0 Hsb1 Hdev1.
  destruct (decide _) as [[H0 Hg0]|_] in Hrun.
  { injection Hrun as <- <-. split_and!; try done.
    left. exists 0%nat. split.
    + split_and!; [done| |intros k; lia].
      apply lookup_total_eq_iff; [lia|done].
    + rewrite !promote_0.
      * by rewrite set_inode_cache_id.
      * intros E. rewrite E in Hb. simpl in Hb. lia.
      * intros E. rewrite E in Hn. simpl in Hn. lia. }
  destruct (decide (s_groups_count (fs_sb st1) <= MAXG)%nat) in Hrun; [lia|].
  destruct (lru_scan_spec (s_inode_bitmap_number (fs_sb st1)) g 0
              (s_loaded_inode_bitmaps (fs_sb st1))) as (Hr & Hbefore & Hat).
  set (loaded := s_loaded_inode_bitmaps (fs_sb st1)) in *.
  set (i := lru_scan _ _ _ _) in *.
  destruct (decide _) as [[Hi Hgi]|Hno] in Hrun.
  - injection Hrun as <- <-. rewrite !shift_down_spec by lia.
    split_and!; try done. left. exists i. split; [|done].
    split_and!; [done|apply lookup_total_eq_iff; [lia|done]|].
    intros k Hk Hkg. apply (Hbefore k); [lia|].
    apply lookup_total_eq_iff; [lia|done].
  - assert (Hmiss : miss loaded (s_inode_bitmap_number (fs_sb st1)) g).
    { intros k Hk Hkg.
      destruct (decide (i < loaded)%nat) as [Hlt|Hge].
      - apply Hno. split; [done|]. apply Hat. lia.
      - apply (Hbefore k); [lia|]. apply lookup_total_eq_iff; [lia|done]. }
    destruct (decide (loaded < MAXG)%nat) as [Hroom|Hfull] in Hrun.
    + replace (S loaded - 1)%nat with loaded in Hrun by lia.
      unfold read_inode_bitmap in Hrun. simpl in Hrun.
      apply bind_Ok in Hrun as (st2 & Hrun & Hret). injection Hret as <- <-.
      apply bind_Ok in Hrun as (gdp & Hgdp & Hrun).
      change (get_group_desc _ g) with (get_group_desc (fs_sb st1) g) in Hgdp.
      unfold fs_bread in Hrun. simpl in Hrun.
      destruct (bread (fs_dev st1) (bg_inode_bitmap gdp)) as [bh|] eqn:Hbh;
        simpl in Hrun; [|done]. injection Hrun as <-.
      rewrite !shift_down_spec by lia.
      split; [done|]. split; [done|]. right. exists gdp, bh, (S loaded).
      split; [done|]. split; [done|]. split; [done|]. split; [lia|].
      replace (S loaded - 1)%nat with loaded by lia. done.
    + unfold read_inode_bitmap in Hrun. simpl in Hrun.
      apply bind_Ok in Hrun as (st2 & Hrun & Hret). injection Hret as <- <-.
      apply bind_Ok in Hrun as (gdp & Hgdp & Hrun).
      change (get_group_desc _ g) with (get_group_desc (fs_sb st1) g) in Hgdp.
      unfold fs_bread in Hrun. simpl in Hrun.
      replace (fs_dev (brelse st1 (s_inode_bitmap (fs_sb st1) !!! (MAXG - 1)%nat)))
        with (fs_dev st1) in Hrun by (by destruct (s_inode_bitmap (fs_sb st1) !!! _)).
      destruct (bread (fs_dev st1) (bg_inode_bitmap gdp)) as [bh|] eqn:Hbh;
        simpl in Hrun; [|done]. injection Hrun as <-.
      rewrite !shift_down_spec by lia.
      split; [done|].
      split; [by destruct (s_inode_bitmap (fs_sb st1) !!! _)|].
      right. exists gdp, bh, loaded.
      split; [done|]. split; [done|]. split; [done|]. split; [lia|].
      simpl. replace (S (loaded - 1)) with loaded by lia. done.
Qed.

(** X26. [load_inode_bitmap] never hands out a NULL bitmap. In LRU
    mode, when every resident slot holds the buffer of the inode bitmap
    block of the group it is numbered with, this is still so after a
    call that returns, and the slot returned is numbered with the group
    asked for and holds the buffer of its inode bitmap block: a read
    that fails panics instead of leaving a NULL in the cache. *)
Theorem load_inode_bitmap_returns_group_bitmap (st st' : fs) (g nr : nat) :
  cache_ok MAXG st ->
  inode_cache_coherent st ->
  load_inode_bitmap MAXG st g = Ok (st', nr) ->
  inode_cache_coherent st'
  /\ exists gdp bh,
       get_group_desc (fs_sb st) g = Ok gdp
       /\ bread (fs_dev st) (bg_inode_bitmap gdp) = Some bh
       /\ s_inode_bitmap_number (fs_sb st') !! nr = Some g
       /\ s_inode_bitmap (fs_sb st') !! nr = Some (Some bh).
Proof.
  intros Hok Hco Hrun.
  pose proof Hok as (Hlru & _ & _ & _ & Hld & Hn & Hb & _).
  destruct (load_inode_bitmap_cases st st' g nr Hok Hrun)
    as (-> & Hdev & [(i & (Hi & Hgi & Hfirst) & Hsb)
                    |(gdp & bh & loaded' & Hmiss & Hgdp & Hbh & -> & Hsb)]);
    unfold inode_cache_coherent in *; rewrite Hsb, Hdev;
    cbn [s_loaded_inode_bitmaps s_inode_bitmap_number s_inode_bitmap
           set_inode_cache s_groups_count].
  - set (P := fun (g : nat) (bh : option buffer_head) =>
                exists gdp b, get_group_desc (fs_sb st) g = Ok gdp
                              /\ bread (fs_dev st) (bg_inode_bitmap gdp) = Some b
                              /\ bh = Some b)
      in *.
    assert (Hg1 : take (s_loaded_inode_bitmaps (fs_sb st))
                    (s_inode_bitmap_number (fs_sb st)) !! i = Some g)
      by (by apply lookup_take_Some).
    destruct (Forall2_lookup_l P _ _ i g Hco Hg1)
      as (bh & Hbh & gdp & b & Hgdp & Hb' & ->).
    apply lookup_take_Some in Hbh as [Hbh _].
    split.
    + rewrite !take_promote by lia.
      apply (Forall2_promote P); [|done]. rewrite length_take. lia.
    + exists gdp, b. split; [done|]. split; [done|].
      unfold promote. cbn [lookup list_lookup].
      rewrite (list_lookup_total_correct _ _ _ Hgi).
      by rewrite (list_lookup_total_correct _ _ _ Hbh).
  - split; [|by exists gdp, bh].
    set (loaded := s_loaded_inode_bitmaps (fs_sb st)) in *.
    rewrite !take_cons_pos by lia.
    rewrite !take_app_le by (rewrite length_take; lia).
    rewrite !take_take.
    constructor; [by exists gdp, bh|].
    apply (Forall2_take _ _ _ (MAXG - 1)) in Hco.
    rewrite !take_take in Hco.
    replace ((S loaded `min` MAXG - 1) `min` (S loaded `min` MAXG - 1))%nat
      with ((MAXG - 1) `min` loaded)%nat by lia.
    done.
Qed.

End WithCapacity.

Lemma get_group_desc_is_table_entry_witness :
  get_group_desc (fs_sb desc_example) 2 = Ok (mk_gd 19 20 21 0 0 0).
Proof.
  apply (get_group_desc_is_table_entry (fs_sb desc_example)
           [[mk_gd 3 4 5 0 0 0; mk_gd 11 12 13 0 0 0];
            [mk_gd 19 20 21 0 0 0; mk_gd 0 0 0 0 0 0]] 2);
    [simpl; lia|reflexivity|repeat constructor|reflexivity].
Defined.

Lemma ext2_check_descriptors_result_witness :
  exists st' r,
    ext2_check_descriptors desc_example = Ok (st', r)
    /\ (r = 1 /\ st' = desc_example
        /\ (forall g, (g < 3)%nat ->
              exists gdp, get_group_desc (fs_sb desc_example) g = Ok gdp
                          /\ desc_in_group (fs_sb desc_example) g gdp)
        \/ r = 0 /\ fs_log st' <> fs_log desc_example
           /\ exists g gdp, (g < 3)%nat
                /\ get_group_desc (fs_sb desc_example) g = Ok gdp
                /\ ~ desc_in_group (fs_sb desc_example) g gdp).
Proof.
  apply (ext2_check_descriptors_result desc_example
           [[mk_gd 3 4 5 0 0 0; mk_gd 11 12 13 0 0 0];
            [mk_gd 19 20 21 0 0 0; mk_gd 0 0 0 0 0 0]]);
    first [reflexivity | (simpl; lia) | (repeat constructor)].
Defined.

Lemma cache_example_ok : cache_ok 2 cache_example.
Proof. unfold cache_ok. simpl. split_and!; try lia; try reflexivity. Qed.

Lemma load_block_bitmap_lru_order_witness :
  exists st',
    load_block_bitmap 2 cache_example 2 = Ok (st', 0%nat)
    /\ resident_groups (fs_sb st') = [2; 1]%nat
    /\ NoDup (resident_groups (fs_sb st')).
Proof.
  eexists. split; [vm_compute; reflexivity|].
  eapply (load_block_bitmap_lru_order 2 ltac:(lia) cache_example _ 2 0
            cache_example_ok).
  - apply (bool_decide_unpack _). vm_compute. exact I.
  - vm_compute. reflexivity.
Defined.

Lemma cache_example_coherent : block_cache_coherent cache_example.
Proof.
  unfold block_cache_coherent. simpl.
  repeat constructor; eexists; split; reflexivity.
Qed.

Lemma load_block_bitmap_returns_group_bitmap_witness :
  exists st',
    load_block_bitmap 2 cache_example 2 = Ok (st', 0%nat)
    /\ block_cache_coherent st'
    /\ exists gdp,
         get_group_desc (fs_sb cache_example) 2 = Ok gdp
         /\ s_block_bitmap_number (fs_sb st') !! 0%nat = Some 2%nat
         /\ s_block_bitmap (fs_sb st') !! 0%nat
            = Some (bread (fs_dev cache_example) (bg_block_bitmap gdp)).
Proof.
  eexists. split; [vm_compute; reflexivity|].
  apply (load_block_bitmap_returns_group_bitmap 2 ltac:(lia) cache_example _ 2 0
           cache_example_ok cache_example_coherent).
  vm_compute. reflexivity.
Defined.

Lemma load_block_bitmap_again_witness :
  exists st',
    load_block_bitmap 2 cache_example 2 = Ok (st', 0%nat)
    /\ load_block_bitmap 2 st' 2 = Ok (st', 0%nat).
Proof.
  eexists. split; [vm_compute; reflexivity|].
  apply (load_block_bitmap_again 2 ltac:(lia) cache_example _ 2 0
           cache_example_ok).
  vm_compute. reflexivity.
Defined.

Lemma load_block_bitmap_direct_witness :
  exists st',
    load_block_bitmap 3 desc_example 1 = Ok (st', 1%nat)
    /\ s_block_bitmap_number (fs_sb st') !! 1%nat = Some 1%nat
    /\ s_block_bitmap (fs_sb st') !! 1%nat = Some (Some (mk_bh 11 [x0f]))
    /\ load_block_bitmap 3 st' 1 = Ok (st', 1%nat).
Proof.
  eexists. split; [vm_compute; reflexivity|].
  destruct (load_block_bitmap_direct 3 ltac:(lia) desc_example _ 1 1
              ltac:(simpl; lia) eq_refl eq_refl eq_refl eq_refl)
    as (_ & _ & Hnum & _ & Hagain).
  split; [exact Hnum|]. split; [reflexivity|].
  apply Hagain. discriminate.
Defined.

Lemma load_inode_bitmap_returns_group_bitmap_witness :
  exists st',
    load_inode_bitmap 2 cache_example 1 = Ok (st', 0%nat)
    /\ inode_cache_coherent st'
    /\ exists gdp bh,
         get_group_desc (fs_sb cache_example) 1 = Ok gdp
         /\ bread (fs_dev cache_example) (bg_inode_bitmap gdp) = Some bh
         /\ s_inode_bitmap_number (fs_sb st') !! 0%nat = Some 1%nat
         /\ s_inode_bitmap (fs_sb st') !! 0%nat = Some (Some bh).
Proof.
  eexists. split; [vm_compute; reflexivity|].
  apply (load_inode_bitmap_returns_group_bitmap 2 ltac:(lia) cache_example _ 1 0
           cache_example_ok).
  - unfold inode_cache_coherent. simpl. constructor.
  - vm_compute. reflexivity.
Defined.

Lemma ext2_inode_location_rejects_witness :
  ext2_inode_location (fs_sb desc_example) 4 0
  = Panic "EXT2-fs: group > groups count".
Proof.
  apply (ext2_inode_location_rejects (fs_sb desc_example) 4 0);
    first [(simpl; lia) | (left; reflexivity)].
Defined.

Lemma ext2_inode_block_first_direct_witness :
  ext2_inode_block (fs_sb desc_example) (fs_dev desc_example)
    [254; 258; 345; 287; 29; 437; 8; 167; 34; 90; 91; 92; 40; 41; 42] 256
  = Ok 254.
Proof.
  apply (ext2_inode_block_first_direct (fs_sb desc_example)
           (fs_dev desc_example)
           [254; 258; 345; 287; 29; 437; 8; 167; 34; 90; 91; 92; 40; 41; 42]
           256).
  discriminate.
Defined.

Lemma ext2_inode_location_inj_witness :
  14 = 14
  /\ exists gdp,
       get_group_desc (fs_sb desc_example) (Z.to_nat ((14 - 1) / 8)) = Ok gdp
       /\ 0 <= 1 < 4
       /\ bg_inode_table gdp <= 14 < bg_inode_table gdp + 8 / 4
       /\ (14 - bg_inode_table gdp) * 4 + 1 = (14 - 1) mod 8.
Proof.
  apply (ext2_inode_location_inj (fs_sb desc_example) 4 14 14 14 1);
    try reflexivity; try (simpl; lia); try (exists 2; reflexivity).
  - intros [|[|[|g]]] gdp Hg;
      try (vm_compute in Hg; injection Hg as <-; split; by vm_compute).
    unfold get_group_desc in Hg. rewrite decide_True in Hg by (simpl; lia).
    discriminate.
  - intros g1 g2 gdp1 gdp2 Hne H1 H2.
    destruct g1 as [|[|[|g1]]], g2 as [|[|[|g2]]]; try done;
      try (vm_compute in H1; vm_compute in H2;
           injection H1 as <-; injection H2 as <-;
           first [left; by vm_compute | right; by vm_compute]);
      unfold get_group_desc in H1, H2;
      first [rewrite decide_True in H1 by (simpl; lia); discriminate
            |rewrite decide_True in H2 by (simpl; lia); discriminate].
Defined.

End Ext2_more.

Section Inode_more.
Import Inode.

Lemma scan_free_S (t : list m_inode) (n last : nat) (c : option nat) :
  scan_free t (S n) last c
  = match t !! next_slot t last with
    | None => scan_free t n (next_slot t last) c
    | Some a =>
        if i_count a =? 0 then
          if negb (i_dirt a) && negb (i_lock a)
          then (next_slot t last, Some (next_slot t last))
          else scan_free t n (next_slot t last) (Some (next_slot t last))
        else scan_free t n (next_slot t last) c
    end.
Proof. reflexivity. Qed.

Lemma free_clean_test (t : list m_inode) (k : nat) (a : m_inode) :
  t !! k = Some a ->
  (i_count a =? 0) && (negb (i_dirt a) && negb (i_lock a)) = true
  <-> free_clean t k.
Proof.
  intros Ha. unfold free_clean. split.
  - intros H. exists a. destruct (Z.eqb_spec (i_count a) 0); [|done].
    destruct (i_dirt a), (i_lock a); done.
  - intros (b & Hb & Hc & Hd & Hl). rewrite Ha in Hb. injection Hb as <-.
    by rewrite Hc, Hd, Hl.
Qed.

(** The walk reaches a free clean slot that lies ahead of the cursor. *)
Lemma scan_free_ahead (t : list m_inode) (i : nat) (d l n : nat) (c : option nat) :
  (next_slot t l + d = i)%nat -> (i < length t)%nat -> free_clean t i ->
  (d < n)%nat ->
  exists k, scan_free t n l c = (k, Some k) /\ free_clean t k.
Proof.
  revert l n c. induction d as [|d IH]; intros l n c Hp Hi Hgood Hn;
    (destruct n as [|n]; [lia|]); rewrite scan_free_S.
  - rewrite Nat.add_0_r in Hp. rewrite Hp.
    destruct Hgood as (a & Ha & Hc & Hd & Hl). rewrite Ha, Hc, Hd, Hl. simpl.
    exists i. split; [done|]. by exists a.
  - destruct (t !! next_slot t l) as [a|] eqn:Ha.
    2:{ apply lookup_ge_None in Ha. lia. }
    assert (Hnext : next_slot t (next_slot t l) = S (next_slot t l)).
    { unfold next_slot at 1. destruct (decide _); [lia|done]. }
    destruct (Z.eqb_spec (i_count a) 0) as [Hc|Hc].
    + destruct (negb (i_dirt a) && negb (i_lock a)) eqn:Hcl.
      * exists (next_slot t l). split; [done|]. apply (free_clean_test t _ a Ha).
        rewrite Hcl. by destruct (Z.eqb_spec (i_count a) 0).
      * apply IH; try done; lia.
    + apply IH; try done; lia.
Qed.

(** The walk wraps round to a free clean slot behind the cursor. *)
Lemma scan_free_behind (t : list m_inode) (i : nat) (m l n : nat) (c : option nat) :
  (next_slot t l + m = length t)%nat -> (0 < m)%nat ->
  (i < length t)%nat -> free_clean t i ->
  (m + i < n)%nat ->
  exists k, scan_free t n l c = (k, Some k) /\ free_clean t k.
Proof.
  revert l n c. induction m as [|m IH]; intros l n c Hp Hm Hi Hgood Hn; [lia|].
  destruct n as [|n]; [lia|]. rewrite scan_free_S.
  destruct (t !! next_slot t l) as [a|] eqn:Ha.
  2:{ apply lookup_ge_None in Ha. lia. }
  assert (Hrest : forall c',
    exists k, scan_free t n (next_slot t l) c' = (k, Some k) /\ free_clean t k).
  { intros c'. destruct m as [|m].
    - (* the next step wraps to slot 0 *)
      apply (scan_free_ahead t i i); try done; [|lia].
      unfold next_slot at 1. destruct (decide _); [done|lia].
    - apply IH; try done; try lia.
      unfold next_slot at 1. destruct (decide _); lia. }
  destruct (Z.eqb_spec (i_count a) 0) as [Hc|Hc]; [|apply Hrest].
  destruct (negb (i_dirt a) && negb (i_lock a)) eqn:Hcl; [|apply Hrest].
  exists (next_slot t l). split; [done|]. apply (free_clean_test t _ a Ha).
  rewrite Hcl. by destruct (Z.eqb_spec (i_count a) 0).
Qed.

Lemma scan_free_prefers_clean (t : list m_inode) (i last : nat) :
  free_clean t i ->
  exists k, scan_free t (length t) last None = (k, Some k) /\ free_clean t k.
Proof.
  intros Hgood. pose proof Hgood as (a & Ha & _).
  apply lookup_lt_Some in Ha.
  assert (Hp : (next_slot t last < length t)%nat)
    by (unfold next_slot; destruct (decide _); lia).
  destruct (decide (next_slot t last <= i)%nat).
  - apply (scan_free_ahead t i (i - next_slot t last)); try done; lia.
  - apply (scan_free_behind t i (length t - next_slot t last)); try done; lia.
Qed.

Lemma scan_free_exhausted (t : list m_inode) (n last : nat) :
  Forall (fun a => i_count a <> 0) t ->
  exists last', scan_free t n last None = (last', None).
Proof.
  intros Hall. revert last. induction n as [|n IH]; intros last; [by eexists|].
  rewrite scan_free_S.
  destruct (t !! next_slot t last) as [a|] eqn:Ha; [|apply IH].
  apply list_elem_of_lookup_2 in Ha.
  rewrite Forall_forall in Hall. specialize (Hall a Ha).
  destruct (Z.eqb_spec (i_count a) 0); [done|apply IH].
Qed.

Section WithConstants.
Variables IPB ROOT : Z.
Variable ISBLK : Z -> bool.

(** X1. When the table has a slot that is free, clean and unlocked,
    [get_empty_inode] returns such a slot (a dirty or locked free slot
    is passed over), writes nothing back, and leaves the cursor on the
    slot it returns, which is zeroed with count 1. *)
Theorem get_empty_inode_prefers_clean (fuel : nat) (st : kernel) (i : nat) :
  free_clean (inode_table st) i ->
  exists k,
    free_clean (inode_table st) k
    /\ get_empty_inode IPB (S fuel) st
       = Ok (set_inode (set_last_inode st k) k (set_i_count zero_inode 1), k).
Proof.
  intros Hgood.
  destruct (scan_free_prefers_clean (inode_table st) i (last_inode st) Hgood)
    as (k & Hscan & Hk).
  exists k. split; [done|].
  destruct Hk as (a & Ha & Hc & Hd & Hl).
  unfold get_empty_inode. rewrite get_empty_inode_loop_S.
  unfold NR_INODE. rewrite Hscan.
  rewrite (wait_on_inode_eq (set_last_inode st k) k a Ha Hl). simpl.
  unfold get_inode. simpl. rewrite Ha. simpl. rewrite Hd. simpl.
  rewrite Ha. simpl. by rewrite Hc.
Qed.

(** X2. With every slot in use there is nothing to hand out:
    [get_empty_inode] panics, and so does [iget], before any entry is
    touched. *)
Theorem get_empty_inode_exhausted (fuel : nat) (st : kernel) :
  Forall (fun a => i_count a <> 0) (inode_table st) ->
  get_empty_inode IPB (S fuel) st = Panic "No free inodes in mem"
  /\ forall dev nr, dev <> 0 ->
       iget IPB ROOT ISBLK (S fuel) st dev nr = Panic "No free inodes in mem".
Proof.
  intros Hall.
  assert (Hpanic : get_empty_inode IPB (S fuel) st = Panic "No free inodes in mem").
  { unfold get_empty_inode. rewrite get_empty_inode_loop_S.
    destruct (scan_free_exhausted (inode_table st) (NR_INODE st) (last_inode st) Hall)
      as [last' ->]. reflexivity. }
  split; [done|]. intros dev nr Hdev. unfold iget.
  destruct (Z.eqb_spec dev 0); [done|]. by rewrite Hpanic.
Qed.

(** X3. Whatever slot [get_empty_inode] returns was not in use; it comes
    back zeroed with count 1, and every entry that is in use, like every
    other slot, is exactly as it was. *)
Theorem get_empty_inode_spares_entries_in_use (fuel : nat) (st st' : kernel)
    (k : nat) :
  get_empty_inode IPB fuel st = Ok (st', k) ->
  (exists a, inode_table st !! k = Some a /\ i_count a = 0)
  /\ inode_table st' !! k = Some (set_i_count zero_inode 1)
  /\ (forall j b, inode_table st !! j = Some b -> i_count b <> 0 ->
        inode_table st' !! j = Some b)
  /\ (forall j, j <> k -> inode_table st' !! j = inode_table st !! j)
  /\ super_blocks st' = super_blocks st.
Proof.
  intros Hrun.
  apply get_empty_inode_Ok in Hrun as (Hsb & a & Ha & Hc & Ht).
  split_and!; [by exists a| | | |done].
  - rewrite Ht. apply list_lookup_insert_eq. by apply lookup_lt_Some in Ha.
  - intros j b Hb Hcb. rewrite Ht. rewrite list_lookup_insert_ne; [done|].
    intros <-. rewrite Ha in Hb. injection Hb as <-. done.
  - intros j Hj. rewrite Ht. by apply list_lookup_insert_ne.
Qed.

Lemma disk_write_block (st : kernel) (dev block slot : Z) (d : d_inode)
    (data : inode_block) :
  disk st dev block = Some data ->
  exists data',
    disk (write_block st dev block slot d) dev block = Some data'
    /\ data' slot = d
    /\ forall slot', slot' <> slot -> data' slot' = data slot'.
Proof.
  intros Hd. eexists. split.
  - simpl. destruct (decide _) as [_|Hne]; [|by destruct Hne].
    rewrite Hd. reflexivity.
  - split; simpl.
    + by destruct (decide _).
    + intros slot' Hs. by destruct (decide _).
Qed.

Lemma write_until_clean_dirty (fuel : nat) (st st' : kernel) (i : nat)
    (a : m_inode) :
  inode_table st !! i = Some a -> i_lock a = false -> i_dirt a = true ->
  write_until_clean IPB fuel st i = Ok st' ->
  i_dev a <> 0
  /\ exists sb data,
      get_super st (i_dev a) = Some sb
      /\ bread st (i_dev a) (inode_block_nr IPB sb (i_num a)) = Some data
      /\ st' = set_inode
                 (write_block st (i_dev a) (inode_block_nr IPB sb (i_num a))
                    (inode_slot IPB (i_num a)) (i_disk a))
                 i (set_i_dirt a false).
Proof.
  intros Ha Hl Hdirt. revert st' . induction fuel as [|fuel IH]; intros st' Hrun;
    [done|].
  simpl in Hrun. unfold get_inode in Hrun. rewrite Ha in Hrun. simpl in Hrun.
  rewrite Hdirt in Hrun. rewrite (write_inode_eq IPB st i a Ha Hl) in Hrun.
  rewrite Hdirt in Hrun. simpl in Hrun.
  destruct (Z.eqb_spec (i_dev a) 0) as [Hz|Hnz] in Hrun.
  - simpl in Hrun. rewrite (wait_on_inode_eq st i a Ha Hl) in Hrun.
    simpl in Hrun. destruct (IH st' Hrun) as [Hdev _]. done.
  - split; [done|].
    destruct (get_super st (i_dev a)) as [sb|] in Hrun |- *; [|done].
    destruct (bread st (i_dev a) (inode_block_nr IPB sb (i_num a)))
      as [data|] eqn:Hb in Hrun |- *; [|done].
    simpl in Hrun.
    assert (Hlen : (i < length (inode_table st))%nat)
      by (by apply lookup_lt_Some in Ha).
    rewrite (wait_on_inode_eq _ i (set_i_dirt a false)) in Hrun;
      [|by apply list_lookup_insert_eq|done].
    simpl in Hrun. destruct fuel as [|fuel]; [done|]. simpl in Hrun.
    unfold get_inode in Hrun. simpl in Hrun.
    rewrite list_lookup_insert_eq in Hrun by done. simpl in Hrun.
    injection Hrun as <-. by exists sb, data.
Qed.

(** X4. A dirty slot is never reused without being written back: when
    the slot [get_empty_inode] returns was dirty, it had a device, and
    the disk now holds its in-core inode at the inode's place. *)
Theorem get_empty_inode_writes_back_dirty (fuel : nat) (st st' : kernel)
    (k : nat) (a : m_inode) :
  get_empty_inode IPB fuel st = Ok (st', k) ->
  inode_table st !! k = Some a -> i_dirt a = true ->
  i_dev a <> 0
  /\ exists sb data,
      get_super st (i_dev a) = Some sb
      /\ disk st' (i_dev a) (inode_block_nr IPB sb (i_num a)) = Some data
      /\ data (inode_slot IPB (i_num a)) = i_disk a.
Proof.
  unfold get_empty_inode. intros Hrun Ha Hdirt.
  apply bind_Ok in Hrun as ([st1 k1] & Hloop & Hret). injection Hret as <- <-.
  destruct fuel as [|fuel]; [done|]. rewrite get_empty_inode_loop_S in Hloop.
  destruct (scan_free _ _ _ _) as [last [c|]] eqn:Hscan; [|done].
  apply bind_Ok in Hloop as (st2 & Hwait & Hloop).
  apply wait_on_inode_Ok in Hwait as (-> & a0 & Ha0 & Hl).
  apply bind_Ok in Hloop as (st3 & Hclean & Hloop).
  apply bind_Ok in Hloop as (a3 & Ha3 & Hloop).
  destruct (negb (i_count a3 =? 0)) eqn:Hc3 in Hloop.
  { (* the slot was free and writing back does not change its count *)
    exfalso. apply scan_free_count in Hscan as (a1 & Ha1 & Hc1); [|done].
    simpl in Ha0. rewrite Ha1 in Ha0. injection Ha0 as <-.
    apply (write_until_clean_Ok IPB _ _ _ _ a1) in Hclean as (_ & a' & Ht & Ha');
      [|done|done].
    apply get_inode_Ok in Ha3. rewrite Ht in Ha3. simpl in Ha3.
    rewrite list_lookup_insert_eq in Ha3 by (by apply lookup_lt_Some in Ha1).
    injection Ha3 as <-.
    destruct Ha' as [-> | ->]; simpl in Hc3; rewrite Hc1 in Hc3; done. }
  injection Hloop as <- <-.
  simpl in Ha0. rewrite Ha in Ha0. injection Ha0 as <-.
  apply (write_until_clean_dirty _ _ _ _ a) in Hclean
    as (Hdev & sb & data & Hsb & Hb & ->); [|done|done|done].
  split; [done|]. exists sb.
  destruct (disk_write_block st (i_dev a) (inode_block_nr IPB sb (i_num a))
              (inode_slot IPB (i_num a)) (i_disk a) data Hb)
    as (data' & Hd' & Hslot & _).
  exists data'. split; [done|]. split; [exact Hd'|exact Hslot].
Qed.

(** X5. Writing an inode and reading it back: after [write_inode] on a
    dirty inode with a device, the entry is clean and unlocked, and
    [read_inode] on it returns and changes nothing, so the record on
    disk is the in-core one. *)
Theorem write_inode_read_inode (st st1 : kernel) (i : nat) (a : m_inode) :
  inode_table st !! i = Some a -> i_lock a = false ->
  i_dirt a = true -> i_dev a <> 0 ->
  write_inode IPB st i = Ok st1 ->
  inode_table st1 !! i = Some (set_i_dirt a false)
  /\ read_inode IPB st1 i = Ok st1.
Proof.
  intros Ha Hl Hdirt Hdev Hw.
  assert (Hlen : (i < length (inode_table st))%nat)
    by (by apply lookup_lt_Some in Ha).
  rewrite (write_inode_eq IPB st i a Ha Hl) in Hw. rewrite Hdirt in Hw.
  destruct (Z.eqb_spec (i_dev a) 0) as [|_] in Hw; [done|]. simpl in Hw.
  destruct (get_super st (i_dev a)) as [sb|] eqn:Hsb in Hw; [|done].
  destruct (bread st (i_dev a) (inode_block_nr IPB sb (i_num a)))
    as [data|] eqn:Hb in Hw; [|done].
  injection Hw as <-.
  assert (Ha1 : inode_table
                  (set_inode
                     (write_block st (i_dev a) (inode_block_nr IPB sb (i_num a))
                        (inode_slot IPB (i_num a)) (i_disk a))
                     i (set_i_dirt a false)) !! i = Some (set_i_dirt a false))
    by (by apply list_lookup_insert_eq).
  split; [exact Ha1|].
  rewrite (read_inode_eq IPB _ i (set_i_dirt a false) Ha1 Hl).
  change (get_super _ (i_dev (set_i_dirt a false)))
    with (get_super st (i_dev a)).
  rewrite Hsb.
  destruct (disk_write_block st (i_dev a) (inode_block_nr IPB sb (i_num a))
              (inode_slot IPB (i_num a)) (i_disk a) data Hb)
    as (data' & Hd' & Hslot & _).
  unfold bread. simpl i_dev. simpl i_num.
  change (disk (set_inode ?s _ _)) with (disk s).
  rewrite Hd', Hslot.
  rewrite set_inode_id; [done|]. exact Ha1.
Qed.

Lemma inode_place_inj (n1 n2 : Z) :
  IPB <> 0 ->
  Z.quot (n1 - 1) IPB = Z.quot (n2 - 1) IPB ->
  Z.rem (n1 - 1) IPB = Z.rem (n2 - 1) IPB ->
  n1 = n2.
Proof.
  intros Hnz Hq Hr.
  pose proof (Z.quot_rem' (n1 - 1) IPB) as H1.
  pose proof (Z.quot_rem' (n2 - 1) IPB) as H2.
  rewrite Hq, Hr in H1. lia.
Qed.

(** X6. [write_inode] writes one record only: the record of any other
    inode (another device, or another number on the same device) reads
    from the disk as it did before. *)
Theorem write_inode_keeps_other_records (st st1 : kernel) (i : nat)
    (a : m_inode) (dev' nr' : Z) (sb' : super_block) :
  IPB <> 0 ->
  inode_table st !! i = Some a -> i_lock a = false ->
  write_inode IPB st i = Ok st1 ->
  get_super st dev' = Some sb' ->
  dev' <> i_dev a \/ nr' <> i_num a ->
  (fun data => data (inode_slot IPB nr'))
    <$> disk st1 dev' (inode_block_nr IPB sb' nr')
  = (fun data => data (inode_slot IPB nr'))
    <$> disk st dev' (inode_block_nr IPB sb' nr').
Proof.
  intros Hnz Ha Hl Hw Hsb' Hother.
  rewrite (write_inode_eq IPB st i a Ha Hl) in Hw.
  destruct (negb (i_dirt a) || (i_dev a =? 0)) in Hw; [by injection Hw as <-|].
  destruct (get_super st (i_dev a)) as [sb|] eqn:Hsb in Hw; [|done].
  destruct (bread st (i_dev a) (inode_block_nr IPB sb (i_num a)))
    as [data|] eqn:Hb in Hw; [|done].
  injection Hw as <-. simpl.
  destruct (decide _) as [[-> Hblk]|_]; [|done].
  rewrite Hsb in Hsb'. injection Hsb' as <-.
  unfold bread in Hb. rewrite Hblk, Hb. simpl. f_equal.
  destruct (decide _) as [Hslot|_]; [|done]. exfalso.
  destruct Hother as [?|Hnr]; [done|]. apply Hnr.
  unfold inode_block_nr in Hblk. unfold inode_slot in Hslot.
  apply inode_place_inj; [done|lia|done].
Qed.

Lemma iput_shared_eq (fuel : nat) (st : kernel) (i : nat)
    (a : m_inode) :
  inode_table st !! i = Some a -> i_lock a = false -> 2 <= i_count a ->
  iput IPB ISBLK (S fuel) st (Some i)
  = Ok (set_inode st i (set_i_count a (i_count a - 1))).
Proof.
  intros Ha Hl Hc. unfold iput.
  rewrite (wait_on_inode_eq st i a Ha Hl). simpl.
  unfold get_inode at 1. rewrite Ha. simpl.
  destruct (Z.eqb_spec (i_count a) 0) as [|_]; [lia|].
  destruct (i_pipe a).
  { simpl. destruct (Z.eqb_spec (i_count a - 1) 0) as [|_]; [lia|done]. }
  destruct (i_dev a =? 0); [done|].
  assert (Hsync : (if ISBLK (i_mode (i_disk a))
                   then wait_on_inode (sync_dev st (i_zone (i_disk a) !!! 0%nat)) i
                   else Ok st) = Ok st).
  { destruct (ISBLK _); [|done]. apply (wait_on_inode_eq st i a Ha Hl). }
  rewrite Hsync. simpl. unfold get_inode. rewrite Ha. simpl.
  destruct (Z.ltb_spec 1 (i_count a)); [done|lia].
Qed.

(** X7. [iput] on an entry that somebody else still holds (count at
    least 2) only takes one off the count: nothing is written back,
    truncated or freed, whatever the state of the inode. *)
Theorem iput_shared_decrements (fuel : nat) (st : kernel) (i : nat)
    (a : m_inode) :
  inode_table st !! i = Some a -> i_lock a = false -> 2 <= i_count a ->
  iput IPB ISBLK (S fuel) st (Some i)
  = Ok (set_inode st i (set_i_count a (i_count a - 1))).
Proof. apply iput_shared_eq. Qed.

Local Arguments iput : simpl never.
Local Arguments read_inode : simpl never.
Local Arguments iget_scan : simpl never.

Lemma find_inode_absent (t : list m_inode) (dev nr : Z) (i0 : nat) :
  (forall j b, t !! j = Some b -> i_dev b = dev -> i_num b <> nr) ->
  find_inode t dev nr i0 = None.
Proof.
  revert i0. induction t as [|a t IH]; intros i0 Hno; [done|]. simpl.
  destruct (decide _) as [_|Hkey].
  - apply IH. intros j b Hb. apply (Hno (S j) b Hb).
  - exfalso.
    destruct (decide (i_dev a = dev)) as [Hd|]; [|tauto].
    destruct (decide (i_num a = nr)) as [Hn|]; [|tauto].
    by apply (Hno 0%nat a eq_refl Hd).
Qed.

(** X8. [iget] of an inode that is in no slot: the spare slot becomes
    its entry, with the device and number asked for, count 1, clean and
    unlocked, and the on-disk part read from the inode's place on the
    device. *)
Theorem iget_loads_uncached (fuel : nat) (st st1 : kernel) (dev nr : Z)
    (e : nat) (sb : super_block) (data : inode_block) :
  dev <> 0 ->
  get_empty_inode IPB fuel st = Ok (st1, e) ->
  (forall j b, inode_table st1 !! j = Some b -> i_dev b = dev -> i_num b <> nr) ->
  get_super st1 dev = Some sb ->
  bread st1 dev (inode_block_nr IPB sb nr) = Some data ->
  iget IPB ROOT ISBLK fuel st dev nr
  = Ok (set_inode st1 e
          (mk_m_inode (data (inode_slot IPB nr)) false false false false
             dev nr 1), Some e).
Proof.
  intros Hdev Hempty Hno Hsb Hb.
  destruct fuel as [|fuel]; [simpl in Hempty; discriminate|].
  unfold iget. destruct (Z.eqb_spec dev 0) as [|_]; [done|].
  rewrite Hempty. simpl.
  assert (He : inode_table st1 !! e = Some (set_i_count zero_inode 1)).
  { pose proof Hempty as He.
    apply get_empty_inode_Ok in He as (_ & a & Ha & _ & ->).
    apply list_lookup_insert_eq. by apply lookup_lt_Some in Ha. }
  assert (Hlen : (e < length (inode_table st1))%nat)
    by (by apply lookup_lt_Some in He).
  rewrite iget_scan_S. rewrite (find_inode_absent _ _ _ _ Hno).
  unfold get_inode. rewrite He. simpl.
  rewrite (read_inode_eq IPB _ e
             (set_i_num (set_i_dev (set_i_count zero_inode 1) dev) nr));
    [|by apply list_lookup_insert_eq|done].
  simpl. change (get_super (set_inode st1 e _) dev) with (get_super st1 dev).
  rewrite Hsb. unfold bread in Hb |- *. simpl. rewrite Hb.
  by rewrite set_inode_set_inode.
Qed.

Lemma iget_scan_existing (fuel : nat) (st1 : kernel) (dev nr : Z) (i e : nat)
    (a : m_inode) :
  inode_inv (Some e) st1 ->
  inode_table st1 !! e = Some (set_i_count zero_inode 1) ->
  inode_table st1 !! i = Some a ->
  i_dev a = dev -> i_num a = nr -> dev <> 0 -> i_mount a = false ->
  iget_scan IPB ROOT ISBLK (S fuel) st1 (Some e) dev nr
  = Ok (set_inode (set_inode st1 i (set_i_count a (i_count a + 1)))
          e zero_inode, Some i).
Proof.
  intros Hinv1 He1 Ha1 Hd Hn Hdev Hm.
  pose proof Hinv1 as (HU1 & HC1 & _).
  destruct (HC1 i a Ha1) as (_ & Hl & _).
  assert (Hie : i <> e).
  { intros ->. rewrite He1 in Ha1. injection Ha1 as <-. simpl in Hd. lia. }
  rewrite iget_scan_S.
  destruct (find_inode_first (inode_table st1) dev nr 0 i a Ha1 Hd Hn)
    as (j & Hj & Hle).
  rewrite Hj. simpl.
  assert (j = i) as ->.
  { apply find_inode_Some in Hj as (c & _ & Hc1 & Hcd & Hcn).
    simpl in Hc1. rewrite Nat.sub_0_r in Hc1.
    destruct (decide (j = i)) as [|Hne]; [done|]. exfalso.
    apply (HU1 i j a c Ha1 Hc1); [done|congruence|congruence|congruence]. }
  rewrite (wait_on_inode_eq st1 i a Ha1 Hl). simpl.
  unfold get_inode. rewrite Ha1. simpl.
  destruct (decide _) as [[?|?]|_]; [done|done|].
  rewrite Hm.
  rewrite (iput_spare_eq IPB ISBLK (S fuel)
             (set_inode st1 i (set_i_count a (i_count a + 1))) e);
    [done|]. simpl. by rewrite list_lookup_insert_ne.
Qed.

(** X9. Acquire then release: when the key is in an entry in use that is
    not a mount point, [iget] followed by [iput] on the handle returned
    leaves that entry exactly as it was; the only slot that changed is
    the free slot [iget] took as a spare, which is zero. *)
Theorem iget_then_iput_restores (fuel : nat) (st st1 : kernel) (dev nr : Z)
    (i e : nat) (a : m_inode) :
  inode_inv None st ->
  get_empty_inode IPB fuel st = Ok (st1, e) ->
  inode_table st1 !! i = Some a ->
  i_dev a = dev -> i_num a = nr -> dev <> 0 -> i_mount a = false ->
  1 <= i_count a ->
  exists st2,
    iget IPB ROOT ISBLK fuel st dev nr = Ok (st2, Some i)
    /\ iput IPB ISBLK fuel st2 (Some i) = Ok (set_inode st1 e zero_inode).
Proof.
  intros Hinv Hempty Ha1 Hd Hn Hdev Hm Hc.
  eexists. split; [by apply (iget_existing IPB ROOT ISBLK fuel st st1 dev nr i e a)|].
  destruct fuel as [|fuel]; [simpl in Hempty; discriminate|].
  destruct (get_empty_inode_inv IPB _ _ _ _ Hinv Hempty) as [Hinv1 He1].
  pose proof Hinv1 as (_ & HC1 & _).
  destruct (HC1 i a Ha1) as (_ & Hl & _).
  assert (Hie : i <> e).
  { intros ->. rewrite He1 in Ha1. injection Ha1 as <-. simpl in Hd. lia. }
  assert (Hlen : (i < length (inode_table st1))%nat)
    by (by apply lookup_lt_Some in Ha1).
  rewrite (iput_shared_eq fuel _ i (set_i_count a (i_count a + 1))).
  - f_equal. unfold set_inode, set_table. simpl. f_equal.
    rewrite (list_insert_insert_ne _ i e) by done.
    rewrite list_insert_insert_eq.
    replace (set_i_count (set_i_count a (i_count a + 1)) (i_count a + 1 - 1))
      with a by (destruct a; simpl; f_equal; lia).
    by rewrite (list_insert_id _ i a).
  - simpl. rewrite list_lookup_insert_ne by done.
    apply list_lookup_insert_eq. done.
  - done.
  - simpl. lia.
Qed.

(** X10. Mount redirection: [iget] of a mount point that is in use, when
    a super block is mounted on it and the root inode of that device is
    in the table, returns the root inode's entry with its count one
    higher; the entry of the mount point is as it was. *)
Theorem iget_crosses_mount_point (fuel : nat) (st st1 : kernel) (dev nr : Z)
    (m r e : nat) (a b : m_inode) (sb : super_block) :
  inode_inv None st ->
  get_empty_inode IPB (S (S fuel)) st = Ok (st1, e) ->
  inode_table st1 !! m = Some a ->
  i_dev a = dev -> i_num a = nr -> dev <> 0 ->
  i_mount a = true -> 1 <= i_count a ->
  mounted_super st m = Some sb ->
  inode_table st1 !! r = Some b ->
  i_dev b = s_dev sb -> i_num b = ROOT -> i_mount b = false ->
  iget IPB ROOT ISBLK (S (S fuel)) st dev nr
  = Ok (set_inode (set_inode st1 r (set_i_count b (i_count b + 1)))
          e zero_inode, Some r).
Proof.
  intros Hinv Hempty Ha Hd Hn Hdev Hm Hc Hsb Hb Hbd Hbn Hbm.
  unfold iget. destruct (Z.eqb_spec dev 0) as [|_]; [done|].
  rewrite Hempty. simpl.
  destruct (get_empty_inode_inv IPB _ _ _ _ Hinv Hempty) as [Hinv1 He1].
  apply get_empty_inode_Ok in Hempty as (Hsbs & _).
  pose proof Hinv1 as (HU1 & HC1 & HS1).
  destruct (HC1 m a Ha) as (_ & Hl & _).
  assert (Hme : m <> e).
  { intros ->. rewrite He1 in Ha. injection Ha as <-. simpl in Hd. lia. }
  assert (Hlen : (m < length (inode_table st1))%nat)
    by (by apply lookup_lt_Some in Ha).
  assert (Hsb1 : forall s, super_blocks s = super_blocks st ->
                           mounted_super s m = Some sb).
  { intros s Hs. unfold mounted_super in *. by rewrite Hs. }
  rewrite iget_scan_S.
  destruct (find_inode_first (inode_table st1) dev nr 0 m a Ha Hd Hn)
    as (j & Hj & Hle).
  rewrite Hj. simpl.
  assert (j = m) as ->.
  { apply find_inode_Some in Hj as (c & _ & Hc1 & Hcd & Hcn).
    simpl in Hc1. rewrite Nat.sub_0_r in Hc1.
    destruct (decide (j = m)) as [|Hne]; [done|]. exfalso.
    apply (HU1 m j a c Ha Hc1); [done|congruence|congruence|congruence]. }
  rewrite (wait_on_inode_eq st1 m a Ha Hl). simpl.
  unfold get_inode. rewrite Ha. simpl.
  destruct (decide _) as [[?|?]|_]; [done|done|].
  rewrite Hm. rewrite Hsb1 by (simpl; exact Hsbs).
  rewrite (iput_shared_eq (S fuel) _ m (set_i_count a (i_count a + 1)));
    [|by apply list_lookup_insert_eq|done|simpl; lia].
  simpl.
  replace (set_inode (set_inode st1 m (set_i_count a (i_count a + 1))) m
             (set_i_count (set_i_count a (i_count a + 1)) (i_count a + 1 - 1)))
    with st1.
  2:{ rewrite set_inode_set_inode.
      replace (set_i_count (set_i_count a (i_count a + 1)) (i_count a + 1 - 1))
        with a by (destruct a; simpl; f_equal; lia).
      by rewrite set_inode_id. }
  apply iget_scan_existing; try done.
  apply mounted_super_Some in Hsb as [Hin Him].
  apply (HS1 m a sb Ha Hm); [by rewrite Hsbs|done].
Qed.

Lemma iget_scan_result (fuel : nat) (st st' : kernel) (e : nat) (dev nr : Z)
    (h : option nat) :
  inode_inv (Some e) st ->
  inode_table st !! e = Some (set_i_count zero_inode 1) ->
  dev <> 0 ->
  iget_scan IPB ROOT ISBLK fuel st (Some e) dev nr = Ok (st', h) ->
  (exists r a', h = Some r /\ inode_table st' !! r = Some a'
                /\ 1 <= i_count a' /\ i_dev a' <> 0)
  /\ forall j b, inode_table st !! j = Some b -> 0 < i_count b -> j <> e ->
       Some j <> h -> inode_table st' !! j = Some b.
Proof.
  revert st dev nr. induction fuel as [|fuel IH];
    intros st dev nr Hinv He Hdev Hrun; [done|].
  rewrite iget_scan_S in Hrun.
  assert (Hlen : (e < length (inode_table st))%nat)
    by (by apply lookup_lt_Some in He).
  destruct (find_inode (inode_table st) dev nr 0) as [i|] eqn:Hfind.
  - apply find_inode_Some in Hfind as (b & _ & Hb & Hbd & Hbn).
    rewrite Nat.sub_0_r in Hb.
    apply bind_Ok in Hrun as (st1 & Hwait & Hrun).
    apply wait_on_inode_Ok in Hwait as (-> & a & Ha & Hl).
    rewrite Hb in Ha. injection Ha as <-.
    unfold get_inode in Hrun. rewrite Hb in Hrun. simpl in Hrun.
    destruct (decide _) in Hrun; [by apply (IH st dev nr)|].
    assert (Hie : i <> e).
    { intros ->. rewrite He in Hb. injection Hb as <-. simpl in Hbd. lia. }
    assert (Hleni : (i < length (inode_table st))%nat)
      by (by apply lookup_lt_Some in Hb).
    pose proof Hinv as (HU & HC & HS).
    destruct (HC i b Hb) as (Hc0 & _ & _).
    set (st1 := set_inode st i (set_i_count b (i_count b + 1))) in *.
    assert (Hinv1 : inode_inv (Some e) st1).
    { apply (inv_update (Some e) (Some e) st st1 i b
               (set_i_count b (i_count b + 1)) Hinv Hb);
        simpl; auto; try lia; try done. }
    assert (He1 : inode_table st1 !! e = Some (set_i_count zero_inode 1)).
    { simpl. by rewrite list_lookup_insert_ne. }
    assert (Hfound : forall s,
              inode_table s = <[e := zero_inode]> (inode_table st1) ->
              (exists r a', Some i = Some r /\ inode_table s !! r = Some a'
                            /\ 1 <= i_count a' /\ i_dev a' <> 0)
              /\ forall j c, inode_table st !! j = Some c -> 0 < i_count c ->
                   j <> e -> Some j <> Some i -> inode_table s !! j = Some c).
    { intros s Hs. split.
      - exists i, (set_i_count b (i_count b + 1)). split; [done|].
        rewrite Hs. rewrite list_lookup_insert_ne by done. simpl.
        rewrite list_lookup_insert_eq by done. split; [done|].
        simpl. split; [lia|congruence].
      - intros j c Hc _ Hje Hji. rewrite Hs.
        rewrite list_lookup_insert_ne by done. simpl.
        rewrite list_lookup_insert_ne by congruence. done. }
    destruct (i_mount b) eqn:Hmount in Hrun.
    + destruct (mounted_super st1 i) as [sb|] eqn:Hsb in Hrun.
      * apply bind_Ok in Hrun as (st2 & Hput & Hrun).
        pose proof Hput as Hput'.
        apply (iput_inv IPB ISBLK (Some e)) in Hput as [Hinv2 Hsame]; [|done].
        apply mounted_super_Some in Hsb as [Hin Him].
        destruct (IH st2 (s_dev sb) ROOT) as [Hres Hkeep]; try done.
        -- rewrite Hsame by done. done.
        -- apply (HS i b sb Hb Hmount); done.
        -- split; [done|]. intros j c Hc Hpos Hje Hjh.
           apply Hkeep; try done.
           destruct (decide (j = i)) as [->|Hji].
           ++ rewrite Hb in Hc. injection Hc as <-.
              rewrite (iput_shared_eq fuel st1 i
                         (set_i_count b (i_count b + 1))) in Hput';
                [|by apply list_lookup_insert_eq|done|simpl; lia].
              injection Hput' as <-. simpl.
              rewrite list_lookup_insert_eq
                by (by rewrite length_insert).
              f_equal. destruct b; simpl; f_equal; lia.
           ++ rewrite Hsame by done. simpl.
              by rewrite list_lookup_insert_ne.
      * rewrite (iput_spare_eq IPB ISBLK _ (printk st1 _) e) in Hrun by done.
        injection Hrun as <- <-. by apply Hfound.
    + rewrite (iput_spare_eq IPB ISBLK _ st1 e) in Hrun by done.
      injection Hrun as <- <-. by apply Hfound.
  - unfold get_inode in Hrun. rewrite He in Hrun. simpl in Hrun.
    apply bind_Ok in Hrun as (st1 & Hread & Hret). injection Hret as <- <-.
    rewrite (read_inode_eq IPB _ e
               (set_i_num (set_i_dev (set_i_count zero_inode 1) dev) nr))
      in Hread; [|by apply list_lookup_insert_eq|done].
    simpl in Hread.
    destruct (get_super _ dev) as [sb|] in Hread; [|done].
    destruct (disk st dev _) as [data|] in Hread; [|done].
    injection Hread as <-. split.
    + eexists e, _. split; [done|]. split.
      * simpl. apply list_lookup_insert_eq. by rewrite length_insert.
      * simpl. split; [lia|done].
    + intros j c Hc _ Hje _. simpl.
      by rewrite !list_lookup_insert_ne.
Qed.

(** X11. [iget] never returns NULL: whenever it returns, the handle is
    an entry that is in use and carries a device. The test of [empty]
    before the final load is never decided by a NULL, since
    [get_empty_inode] panics rather than return one. *)
Theorem iget_returns_entry_in_use (fuel : nat) (st st' : kernel) (dev nr : Z)
    (h : option nat) :
  inode_inv None st ->
  iget IPB ROOT ISBLK fuel st dev nr = Ok (st', h) ->
  exists r a', h = Some r /\ inode_table st' !! r = Some a'
               /\ 1 <= i_count a' /\ i_dev a' <> 0.
Proof.
  intros Hinv Hrun. unfold iget in Hrun.
  destruct (Z.eqb_spec dev 0) as [|Hdev] in Hrun; [done|].
  apply bind_Ok in Hrun as ([st1 e] & Hempty & Hrun).
  apply (get_empty_inode_inv IPB _ _ _ _ Hinv) in Hempty as [Hinv1 He].
  by destruct (iget_scan_result fuel st1 st' e dev nr h) as [Hres _].
Qed.

(** X12. [iget] leaves every entry in use as it is, but for the one it
    returns: neither the recycling of a free slot nor the crossing of a
    mount point disturbs an inode that somebody holds. *)
Theorem iget_keeps_other_entries (fuel : nat) (st st' : kernel) (dev nr : Z)
    (h : option nat) (j : nat) (b : m_inode) :
  inode_inv None st ->
  iget IPB ROOT ISBLK fuel st dev nr = Ok (st', h) ->
  inode_table st !! j = Some b -> 0 < i_count b -> Some j <> h ->
  inode_table st' !! j = Some b.
Proof.
  intros Hinv Hrun Hb Hpos Hjh. unfold iget in Hrun.
  destruct (Z.eqb_spec dev 0) as [|Hdev] in Hrun; [done|].
  apply bind_Ok in Hrun as ([st1 e] & Hempty & Hrun).
  pose proof Hempty as Hempty'.
  apply (get_empty_inode_inv IPB _ _ _ _ Hinv) in Hempty as [Hinv1 He].
  apply get_empty_inode_Ok in Hempty' as (_ & a & Ha & Hc & Ht).
  assert (Hje : j <> e).
  { intros ->. rewrite Ha in Hb. injection Hb as <-. lia. }
  destruct (iget_scan_result fuel st1 st' e dev nr h) as [_ Hkeep]; try done.
  apply Hkeep; try done. rewrite Ht. by rewrite list_lookup_insert_ne.
Qed.

(** X13. [iput] works on the slot it is given and on nothing else of
    the table: the other slots and the super blocks are as they were,
    and the slot keeps its device, its number and its mount flag, is
    left unlocked, and its count is one less or 0. *)
Theorem iput_touches_one_slot (fuel : nat) (st st' : kernel) (i : nat) :
  iput IPB ISBLK fuel st (Some i) = Ok st' ->
  super_blocks st' = super_blocks st
  /\ length (inode_table st') = length (inode_table st)
  /\ (forall j, j <> i -> inode_table st' !! j = inode_table st !! j)
  /\ exists a a',
       inode_table st !! i = Some a /\ inode_table st' !! i = Some a'
       /\ i_count a <> 0 /\ put_rel a a'.
Proof.
  intros Hrun. apply iput_Ok in Hrun as (Hsb & a & a' & Ha & Ht & _ & Hc & Hrel).
  split; [done|]. rewrite Ht. split; [by rewrite length_insert|]. split.
  - intros j Hj. by rewrite list_lookup_insert_ne.
  - exists a, a'. split; [done|]. split; [|done].
    apply list_lookup_insert_eq. by apply lookup_lt_Some in Ha.
Qed.

(** X14. Removing a device and then releasing an inode of it that was
    held: [invalidate_inodes] has taken the device from the entry, so
    [iput] only takes one off the count. Nothing reaches the disk, even
    when the inode was dirty and this was the last reference. *)
Theorem iput_after_invalidate_only_decrements (fuel : nat) (st : kernel)
    (dev : Z) (i : nat) (a : m_inode) :
  Forall (fun a => i_lock a = false) (inode_table st) ->
  inode_table st !! i = Some a ->
  i_dev a = dev -> dev <> 0 -> i_pipe a = false -> i_count a <> 0 ->
  exists st1,
    invalidate_inodes st dev = Ok st1
    /\ iput IPB ISBLK fuel st1 (Some i)
       = Ok (set_inode st1 i
               (set_i_count (set_i_dirt (set_i_dev a 0) false)
                  (i_count a - 1)))
    /\ disk st1 = disk st.
Proof.
  intros Hunl Ha Hd Hdev Hp Hc.
  set (st1 := mk_kernel (invalidated dev <$> inode_table st) (last_inode st)
                (super_blocks st) (disk st)
                (klog st ++ in_use_messages dev (inode_table st))).
  assert (Hrun : invalidate_inodes st dev = Ok st1).
  { unfold st1, invalidate_inodes, NR_INODE.
    destruct st as [t last sbs d log]. simpl in *.
    by rewrite invalidate_loop_eq. }
  exists st1. split; [done|]. split; [|done].
  assert (Hi : inode_table st1 !! i = Some (set_i_dirt (set_i_dev a 0) false)).
  { simpl. rewrite list_lookup_fmap, Ha. simpl. unfold invalidated.
    by destruct (Z.eqb_spec (i_dev a) dev). }
  unfold iput.
  assert (Hl : i_lock a = false)
    by apply (proj1 (Forall_lookup _ _) Hunl i a Ha).
  rewrite (wait_on_inode_eq st1 i _ Hi); [|done]. simpl.
  unfold get_inode at 1. rewrite Hi. simpl.
  destruct (Z.eqb_spec (i_count a) 0); [done|]. by rewrite Hp.
Qed.

Lemma disk_inode_written (st : kernel) (dev nr : Z) (sb : super_block)
    (data : inode_block) (d : d_inode) (i : nat) (a' : m_inode) :
  get_super st dev = Some sb ->
  disk st dev (inode_block_nr IPB sb nr) = Some data ->
  disk_inode IPB
    (set_inode (write_block st dev (inode_block_nr IPB sb nr)
                  (inode_slot IPB nr) d) i a') dev nr = Some d.
Proof.
  intros Hsb Hd. unfold disk_inode.
  change (get_super (set_inode _ i a') dev) with (get_super st dev).
  rewrite Hsb. simpl. rewrite decide_True by done. rewrite Hd. simpl.
  by rewrite decide_True.
Qed.

Lemma disk_inode_not_written (st : kernel) (dev nr dev' nr' : Z)
    (sb : super_block) (d : d_inode) (i : nat) (a' : m_inode) :
  IPB <> 0 ->
  get_super st dev = Some sb ->
  dev' <> dev \/ nr' <> nr ->
  disk_inode IPB
    (set_inode (write_block st dev (inode_block_nr IPB sb nr)
                  (inode_slot IPB nr) d) i a') dev' nr'
  = disk_inode IPB st dev' nr'.
Proof.
  intros Hnz Hsb Hother. unfold disk_inode.
  change (get_super (set_inode _ i a') dev') with (get_super st dev').
  destruct (get_super st dev') as [sb'|] eqn:Hsb'; [|done]. simpl.
  destruct (decide _) as [[-> Hblk]|_]; [|done].
  rewrite Hsb in Hsb'. injection Hsb' as <-. rewrite Hblk.
  destruct (disk st dev (inode_block_nr IPB sb nr)) as [data|]; [|done].
  simpl. f_equal.
  destruct (decide _) as [Hslot|_]; [|done]. exfalso.
  destruct Hother as [?|Hnr]; [done|]. apply Hnr.
  unfold inode_block_nr in Hblk. unfold inode_slot in Hslot.
  apply inode_place_inj; [done|lia|done].
Qed.

Lemma sync_inodes_loop_Ok (n i : nat) (st st' : kernel) :
  IPB <> 0 -> inode_inv None st ->
  (i + n)%nat = length (inode_table st) ->
  sync_inodes_loop IPB st i n = Ok st' ->
  inode_table st' = take i (inode_table st) ++ (synced <$> drop i (inode_table st))
  /\ super_blocks st' = super_blocks st
  /\ (forall j a, (i <= j)%nat -> inode_table st !! j = Some a ->
        i_dirt a = true -> i_pipe a = false -> i_dev a <> 0 ->
        disk_inode IPB st' (i_dev a) (i_num a) = Some (i_disk a))
  /\ (forall dev nr,
        (forall j a, (i <= j)%nat -> inode_table st !! j = Some a ->
           i_dirt a = true -> i_pipe a = false -> i_dev a = dev ->
           i_num a <> nr) ->
        disk_inode IPB st' dev nr = disk_inode IPB st dev nr).
Proof.
  intros Hnz. revert i st. induction n as [|n IH]; intros i st Hinv Hlen Hrun.
  { simpl in Hrun. injection Hrun as <-. split_and!; try done.
    - rewrite drop_ge, take_ge by lia. by rewrite app_nil_r.
    - intros j a Hj Ha. apply lookup_lt_Some in Ha. lia. }
  destruct (lookup_lt_is_Some_2 (inode_table st) i) as [a Ha]; [lia|].
  pose proof Hinv as (HU & HC & _).
  destruct (HC i a Ha) as (Hc0 & Hl & Hdevc).
  simpl in Hrun. rewrite (wait_on_inode_eq st i a Ha Hl) in Hrun.
  simpl in Hrun. unfold get_inode in Hrun. rewrite Ha in Hrun. simpl in Hrun.
  apply bind_Ok in Hrun as (st1 & Hw & Hrun).
  assert (Hnext : forall a',
            i_dev a' = i_dev a -> i_num a' = i_num a ->
            i_count a' = i_count a -> i_lock a' = false ->
            i_mount a' = i_mount a ->
            inode_table st1 = <[i := a']> (inode_table st) ->
            super_blocks st1 = super_blocks st ->
            a' = synced a ->
            inode_table st'
            = take i (inode_table st) ++ (synced <$> drop i (inode_table st))
            /\ super_blocks st' = super_blocks st
            /\ (forall j b, (S i <= j)%nat -> inode_table st !! j = Some b ->
                  i_dirt b = true -> i_pipe b = false -> i_dev b <> 0 ->
                  disk_inode IPB st' (i_dev b) (i_num b) = Some (i_disk b))
            /\ (forall dev nr,
                  (forall j b, (S i <= j)%nat -> inode_table st !! j = Some b ->
                     i_dirt b = true -> i_pipe b = false -> i_dev b = dev ->
                     i_num b <> nr) ->
                  disk_inode IPB st' dev nr = disk_inode IPB st1 dev nr)).
  { intros a' Hd' Hn' Hc' Hl' Hm' Ht Hsb Hsy.
    assert (Hinv1 : inode_inv None st1).
    { apply (inv_update None None st st1 i a a' Hinv Ha Ht Hsb).
      - right. done.
      - lia.
      - done.
      - rewrite Hc', Hd'. intros Hpos _. by apply Hdevc.
      - by rewrite Hm'.
      - done. }
    destruct (IH (S i) st1 Hinv1) as (Ht' & Hsb' & Hdisk & Hframe);
      [rewrite Ht, length_insert; lia|done|].
    assert (Hgt : forall j, (S i <= j)%nat ->
                            inode_table st1 !! j = inode_table st !! j).
    { intros j Hj. rewrite Ht. apply list_lookup_insert_ne. lia. }
    split_and!.
    - rewrite Ht', Ht.
      rewrite (take_S_r _ i a') by (apply list_lookup_insert_eq; lia).
      rewrite take_insert_ge by lia.
      rewrite drop_insert_lt by lia.
      rewrite (drop_S _ a i Ha). rewrite fmap_cons, <- Hsy.
      by rewrite <- app_assoc.
    - by rewrite Hsb'.
    - intros j b Hj Hb. apply (Hdisk j b); [done|]. by rewrite Hgt.
    - intros dev nr Hno. apply Hframe. intros j b Hj Hb.
      rewrite Hgt in Hb by done. by apply (Hno j b). }
  assert (Hsame : st1 = st ->
            (i_dirt a = true -> i_pipe a = false -> i_dev a = 0) ->
            inode_table st'
            = take i (inode_table st) ++ (synced <$> drop i (inode_table st))
            /\ super_blocks st' = super_blocks st
            /\ (forall j b, (i <= j)%nat -> inode_table st !! j = Some b ->
                  i_dirt b = true -> i_pipe b = false -> i_dev b <> 0 ->
                  disk_inode IPB st' (i_dev b) (i_num b) = Some (i_disk b))
            /\ (forall dev nr,
                  (forall j b, (i <= j)%nat -> inode_table st !! j = Some b ->
                     i_dirt b = true -> i_pipe b = false -> i_dev b = dev ->
                     i_num b <> nr) ->
                  disk_inode IPB st' dev nr = disk_inode IPB st dev nr)).
  { intros -> Hskip.
    destruct (Hnext a) as (Ht' & Hsb' & Hdisk & Hframe); try done.
    - by rewrite list_insert_id.
    - unfold synced. destruct (i_dirt a), (i_pipe a); try done.
      simpl. by rewrite Hskip.
    - split_and!; try done.
      + intros j b Hj Hb Hdb Hpb Hvb.
        destruct (decide (j = i)) as [->|Hji].
        * rewrite Ha in Hb. injection Hb as <-. by specialize (Hskip Hdb Hpb).
        * apply (Hdisk j b); try done. lia.
      + intros dev nr Hno. apply Hframe. intros j b Hj. apply (Hno j b). lia. }
  destruct (i_dirt a) eqn:Hdirt; simpl in Hw;
    [|injection Hw as <-; by apply Hsame].
  destruct (i_pipe a) eqn:Hpipe; simpl in Hw;
    [injection Hw as <-; by apply Hsame|].
  rewrite (write_inode_eq IPB st i a Ha Hl) in Hw. rewrite Hdirt in Hw.
  simpl in Hw.
  destruct (Z.eqb_spec (i_dev a) 0) as [Hz|Hdev] in Hw;
    [injection Hw as <-; by apply Hsame|].
  destruct (get_super st (i_dev a)) as [sb|] eqn:Hsb in Hw; [|done].
  destruct (bread st (i_dev a) (inode_block_nr IPB sb (i_num a)))
    as [data|] eqn:Hb in Hw; [|done].
  injection Hw as <-.
  destruct (Hnext (set_i_dirt a false)) as (Ht' & Hsb' & Hdisk & Hframe);
    try done.
  { unfold synced. rewrite Hdirt, Hpipe. simpl.
    by destruct (Z.eqb_spec (i_dev a) 0). }
  split_and!; try done.
  - intros j b Hj Hjb Hdb Hpb Hvb.
    destruct (decide (j = i)) as [->|Hji].
    + rewrite Ha in Hjb. injection Hjb as <-.
      rewrite Hframe.
      * by apply (disk_inode_written st (i_dev a) (i_num a) sb data).
      * intros j c Hj' Hc _ _ Hcd.
        assert (i_num a <> i_num c); [|congruence].
        apply (HU i j a c Ha Hc); [lia|done|done].
    + apply (Hdisk j b); try done. lia.
  - intros dev nr Hno. rewrite Hframe.
    + apply disk_inode_not_written; [done|done|].
      destruct (decide (dev = i_dev a)) as [->|]; [right|by left].
      intros ->. by apply (Hno i a).
    + intros j c Hj. apply (Hno j c). lia.
Qed.

(** X16. [sync_inodes], when it returns: every inode that was dirty, is
    not a pipe and has a device is clean in the table and its record is
    on the disk at its place; every other slot is as it was; and the
    record of an inode that was not dirty in the table reads from the
    disk as before. *)
Theorem sync_inodes_writes_every_dirty_inode (st st' : kernel) :
  IPB <> 0 -> inode_inv None st ->
  sync_inodes IPB st = Ok st' ->
  inode_table st' = synced <$> inode_table st
  /\ super_blocks st' = super_blocks st
  /\ (forall j a, inode_table st !! j = Some a ->
        i_dirt a = true -> i_pipe a = false -> i_dev a <> 0 ->
        disk_inode IPB st' (i_dev a) (i_num a) = Some (i_disk a))
  /\ (forall dev nr,
        (forall j a, inode_table st !! j = Some a ->
           i_dirt a = true -> i_pipe a = false -> i_dev a = dev ->
           i_num a <> nr) ->
        disk_inode IPB st' dev nr = disk_inode IPB st dev nr).
Proof.
  intros Hnz Hinv Hrun. unfold sync_inodes, NR_INODE in Hrun.
  apply sync_inodes_loop_Ok in Hrun as (Ht & Hsb & Hdisk & Hframe);
    [|done|done|done].
  split_and!; try done.
  - intros j a. apply (Hdisk j a). lia.
  - intros dev nr Hno. apply Hframe. intros j a _. apply (Hno j a).
Qed.

Lemma sync_inodes_loop_returns (n i : nat) (st : kernel) :
  Forall (fun a => i_lock a = false) (inode_table st) ->
  (i + n)%nat = length (inode_table st) ->
  (forall j a, inode_table st !! j = Some a ->
     i_dirt a = true -> i_pipe a = false -> i_dev a <> 0 ->
     exists sb, get_super st (i_dev a) = Some sb
                /\ is_Some (disk st (i_dev a)
                              (inode_block_nr IPB sb (i_num a)))) ->
  exists st', sync_inodes_loop IPB st i n = Ok st'.
Proof.
  revert i st. induction n as [|n IH]; intros i st Hunl Hlen Hread;
    [by eexists|].
  destruct (lookup_lt_is_Some_2 (inode_table st) i) as [a Ha]; [lia|].
  assert (Hl : i_lock a = false)
    by apply (proj1 (Forall_lookup _ _) Hunl i a Ha).
  simpl. rewrite (wait_on_inode_eq st i a Ha Hl). simpl.
  unfold get_inode. rewrite Ha. simpl.
  destruct (i_dirt a && negb (i_pipe a)) eqn:Hw; simpl;
    [|apply IH; [done|lia|done]].
  apply andb_prop in Hw as [Hdirt Hpipe]. apply negb_true_iff in Hpipe.
  rewrite (write_inode_eq IPB st i a Ha Hl). rewrite Hdirt. simpl.
  destruct (Z.eqb_spec (i_dev a) 0) as [Hz|Hdev]; simpl;
    [apply IH; [done|lia|done]|].
  destruct (Hread i a Ha Hdirt Hpipe Hdev) as (sb & Hsb & data & Hdata).
  rewrite Hsb. unfold bread. rewrite Hdata. simpl.
  apply IH.
  - simpl. apply Forall_insert; done.
  - simpl. rewrite length_insert. lia.
  - intros j b Hb Hdb Hpb Hvb. simpl in Hb.
    assert (Hji : j <> i).
    { intros ->. rewrite list_lookup_insert_eq in Hb
        by (by apply lookup_lt_Some in Ha).
      injection Hb as <-. done. }
    rewrite list_lookup_insert_ne in Hb by done.
    destruct (Hread j b Hb Hdb Hpb Hvb) as (sb' & Hsb' & data' & Hdata').
    exists sb'. split; [done|]. simpl.
    destruct (decide _) as [[Hd1 Hd2]|_]; [|by eexists].
    rewrite Hdata. by eexists.
Qed.

(** X17. [sync_inodes] returns when no lock is held and, for every
    inode it has to write, the super block of the device is there and
    the inode block can be read. *)
Theorem sync_inodes_returns (st : kernel) :
  Forall (fun a => i_lock a = false) (inode_table st) ->
  (forall j a, inode_table st !! j = Some a ->
     i_dirt a = true -> i_pipe a = false -> i_dev a <> 0 ->
     exists sb, get_super st (i_dev a) = Some sb
                /\ is_Some (disk st (i_dev a)
                              (inode_block_nr IPB sb (i_num a)))) ->
  exists st', sync_inodes IPB st = Ok st'.
Proof.
  intros Hunl Hread. unfold sync_inodes, NR_INODE.
  by apply sync_inodes_loop_returns.
Qed.

Lemma iput_repeat_with_alone (i : nat) (fuel k : nat) (st : kernel) (j : nat) :
  iput_repeat_with IPB (redirty i []) fuel k st j = iput_repeat IPB fuel st j.
Proof.
  revert k st. induction fuel as [|fuel IH]; intros k st; [done|]. simpl.
  destruct (get_inode st j) as [a| | | |]; simpl; try done.
  destruct (1 <? i_count a); [done|].
  destruct (i_nlinks (i_disk a) =? 0); [done|].
  destruct (i_dirt a); [|done].
  destruct (write_inode IPB st j) as [st1| | | |]; simpl; try done.
  unfold redirty at 1. simpl.
  destruct (wait_on_inode st1 j) as [st2| | | |]; simpl; try done.
Qed.

Lemma default_last_cons {A : Type} (x y : A) (l : list A) :
  default x (last (y :: l)) = default y (last l).
Proof.
  destruct l as [|z l]; [done|]. rewrite last_cons_cons.
  destruct (last (z :: l)) eqn:E; [done|]. by apply last_None in E.
Qed.

Lemma iput_repeat_with_redirty (ds : list d_inode) (i : nat) (sb : super_block)
    (m : nat) :
  Forall (fun d => 0 < i_nlinks d) ds ->
  forall (k : nat) (st : kernel) (a : m_inode),
    (k + m = length ds `max` k)%nat ->
    inode_table st !! i = Some a ->
    i_lock a = false -> i_dev a <> 0 -> i_count a = 1 ->
    0 < i_nlinks (i_disk a) -> i_dirt a = true ->
    get_super st (i_dev a) = Some sb ->
    is_Some (disk st (i_dev a) (inode_block_nr IPB sb (i_num a))) ->
    (forall fuel, (m + 2 <= fuel)%nat ->
       exists st',
         iput_repeat_with IPB (redirty i ds) fuel k st i = Ok st'
         /\ inode_table st' !! i
            = Some (set_i_count
                      (set_i_dirt
                         (set_i_disk a (default (i_disk a) (last (drop k ds))))
                         false) 0)
         /\ disk_inode IPB st' (i_dev a) (i_num a)
            = Some (default (i_disk a) (last (drop k ds))))
    /\ (forall fuel, (fuel < m + 2)%nat ->
          iput_repeat_with IPB (redirty i ds) fuel k st i = Fuel).
Proof.
  intros Hds. induction m as [|m IH]; intros k st a Hm Ha Hl Hdev Hc Hn Hdirt
    Hsb [data Hdata].
  - (* nobody dirties the inode again *)
    assert (Hk : (length ds <= k)%nat) by lia.
    rewrite (drop_ge ds k) by done. cbn [last default].
    assert (Hlen : (i < length (inode_table st))%nat)
      by (by apply lookup_lt_Some in Ha).
    assert (Hround : forall fuel,
              iput_repeat_with IPB (redirty i ds) (S fuel) k st i
              = iput_repeat_with IPB (redirty i ds) fuel (S k)
                  (set_inode
                     (write_block st (i_dev a)
                        (inode_block_nr IPB sb (i_num a))
                        (inode_slot IPB (i_num a)) (i_disk a))
                     i (set_i_dirt a false)) i).
    { intros fuel. cbn [iput_repeat_with]. unfold get_inode at 1.
      rewrite Ha. cbn [bind]. rewrite Hc. cbn [Z.ltb Z.compare Pos.compare
        Pos.compare_cont].
      destruct (Z.eqb_spec (i_nlinks (i_disk a)) 0) as [|_]; [lia|].
      rewrite Hdirt. rewrite (write_inode_eq IPB st i a Ha Hl). rewrite Hdirt.
      cbn [negb orb]. destruct (Z.eqb_spec (i_dev a) 0) as [|_]; [done|].
      rewrite Hsb. unfold bread. rewrite Hdata. cbn [bind].
      unfold redirty at 1. rewrite (lookup_ge_None_2 ds k) by done.
      rewrite (wait_on_inode_eq _ i (set_i_dirt a false));
        [done|by apply list_lookup_insert_eq|done]. }
    split.
    + intros fuel Hfuel. destruct fuel as [|[|fuel]]; [lia|lia|].
      rewrite Hround. cbn [iput_repeat_with]. unfold get_inode.
      cbn [inode_table set_inode set_table].
      rewrite list_lookup_insert_eq by done. cbn [bind].
      cbn [i_count i_disk i_dirt set_i_dirt]. rewrite Hc.
      cbn [Z.ltb Z.compare Pos.compare Pos.compare_cont].
      destruct (Z.eqb_spec (i_nlinks (i_disk a)) 0) as [|_]; [lia|].
      eexists. split; [done|]. split.
      * rewrite set_inode_set_inode. cbn [inode_table set_inode set_table].
        rewrite list_lookup_insert_eq by done.
        rewrite ?Hc. f_equal; by destruct a.
      * rewrite set_inode_set_inode.
        by apply (disk_inode_written st (i_dev a) (i_num a) sb data).
    + intros fuel Hfuel. destruct fuel as [|[|fuel]]; [done| |lia].
      by rewrite Hround.
  - (* somebody dirties it during this write *)
    assert (Hk : (k < length ds)%nat) by lia.
    destruct (lookup_lt_is_Some_2 ds k Hk) as [d Hd].
    assert (Hdn : 0 < i_nlinks d)
      by apply (proj1 (Forall_lookup _ _) Hds k d Hd).
    rewrite (drop_S ds d k Hd). rewrite default_last_cons.
    assert (Hlen : (i < length (inode_table st))%nat)
      by (by apply lookup_lt_Some in Ha).
    set (st1 := set_inode
                  (write_block st (i_dev a)
                     (inode_block_nr IPB sb (i_num a))
                     (inode_slot IPB (i_num a)) (i_disk a))
                  i (set_i_dirt a false)).
    set (a2 := set_i_dirt (set_i_disk (set_i_dirt a false) d) true).
    assert (Hlen1 : (i < length (inode_table st1))%nat)
      by (unfold st1; simpl; by rewrite length_insert).
    assert (Hround : forall fuel,
              iput_repeat_with IPB (redirty i ds) (S fuel) k st i
              = iput_repeat_with IPB (redirty i ds) fuel (S k)
                  (set_inode st1 i a2) i).
    { intros fuel. cbn [iput_repeat_with]. unfold get_inode at 1.
      rewrite Ha. cbn [bind]. rewrite Hc. cbn [Z.ltb Z.compare Pos.compare
        Pos.compare_cont].
      destruct (Z.eqb_spec (i_nlinks (i_disk a)) 0) as [|_]; [lia|].
      rewrite Hdirt. rewrite (write_inode_eq IPB st i a Ha Hl). rewrite Hdirt.
      cbn [negb orb]. destruct (Z.eqb_spec (i_dev a) 0) as [|_]; [done|].
      rewrite Hsb. unfold bread. rewrite Hdata. cbn [bind]. fold st1.
      unfold redirty at 1. rewrite Hd.
      assert (H1 : inode_table st1 !! i = Some (set_i_dirt a false))
        by (by apply list_lookup_insert_eq).
      rewrite H1. fold a2.
      rewrite (wait_on_inode_eq _ i a2);
        [done|by apply list_lookup_insert_eq|done]. }
    destruct (IH (S k) (set_inode st1 i a2) a2) as [Htot Hfuel]; try done.
    + lia.
    + cbn [inode_table set_inode set_table].
      by apply list_lookup_insert_eq.
    + cbn [disk set_inode set_table st1 write_block set_disk a2 i_dev i_num
             set_i_dirt set_i_disk].
      rewrite decide_True by done. rewrite Hdata. by eexists.
    + assert (Hfin : forall final,
                set_i_count (set_i_dirt (set_i_disk a2 final) false) 0
                = set_i_count (set_i_dirt (set_i_disk a final) false) 0)
        by (intros final; by destruct a).
      split.
      * intros fuel Hf. destruct fuel as [|fuel]; [lia|].
        rewrite Hround. destruct (Htot fuel) as (st' & Hrun & Hent & Hdisk);
          [lia|].
        exists st'. split; [done|]. split; [by rewrite <- Hfin|done].
      * intros fuel Hf. destruct fuel as [|fuel]; [done|].
        rewrite Hround. apply Hfuel. lia.
Qed.

Lemma iput_with_alone (i : nat) (fuel : nat) (st : kernel)
    (inode : option nat) :
  iput_with IPB ISBLK (redirty i []) fuel st inode
  = iput IPB ISBLK fuel st inode.
Proof.
  destruct inode as [j|]; [|done]. unfold iput_with, iput.
  destruct (wait_on_inode st j) as [st1| | | |]; simpl; try done.
  destruct (get_inode st1 j) as [a| | | |]; simpl; try done.
  destruct (i_count a =? 0); [done|]. destruct (i_pipe a); [done|].
  destruct (i_dev a =? 0); [done|].
  destruct (if ISBLK (i_mode (i_disk a)) then _ else _) as [st2| | | |];
    simpl; try done.
  apply iput_repeat_with_alone.
Qed.

Lemma iput_with_last (others : nat -> kernel -> kernel) (fuel : nat)
    (st : kernel) (i : nat) (a : m_inode) :
  inode_table st !! i = Some a ->
  i_lock a = false -> i_pipe a = false -> i_dev a <> 0 -> i_count a = 1 ->
  iput_with IPB ISBLK others fuel st (Some i)
  = iput_repeat_with IPB others fuel 0 st i.
Proof.
  intros Ha Hl Hp Hdev Hc. unfold iput_with.
  rewrite (wait_on_inode_eq st i a Ha Hl). simpl.
  unfold get_inode at 1. rewrite Ha. simpl. rewrite Hc, Hp. simpl.
  destruct (Z.eqb_spec (i_dev a) 0) as [|_]; [done|].
  assert (Hsync : (if ISBLK (i_mode (i_disk a))
                   then wait_on_inode (sync_dev st (i_zone (i_disk a) !!! 0%nat)) i
                   else Ok st) = Ok st).
  { destruct (ISBLK _); [|done]. apply (wait_on_inode_eq st i a Ha Hl). }
  by rewrite Hsync.
Qed.

(** C7. [iput] on the last reference of a dirty inode that is not a
    pipe, has a device and has links, with the super block of the
    device there and the inode block readable. However many times the
    other processes dirty the inode again while a write is under way
    ([ds] lists what they leave, one element for each write that is
    disturbed), the call writes once more after each of them: with
    [length ds] disturbances the loop takes [length ds + 2] rounds and
    no fewer, the last of which finds the inode clean. On return the
    entry is clean with count 0, it holds what was last put in it, and
    that is what the disk holds at the place of the inode. Left alone
    ([ds] empty) this is [iput] on one flow of control, and whenever
    that returns the entry is clean with count 0 and the inode is on
    the disk. *)
Theorem iput_last_reference_writes_back (st : kernel) (i : nat) (a : m_inode) :
  inode_table st !! i = Some a ->
  i_lock a = false -> i_pipe a = false -> i_dev a <> 0 ->
  i_count a = 1 -> 0 < i_nlinks (i_disk a) -> i_dirt a = true ->
  (forall sb ds,
     Forall (fun d => 0 < i_nlinks d) ds ->
     get_super st (i_dev a) = Some sb ->
     is_Some (disk st (i_dev a) (inode_block_nr IPB sb (i_num a))) ->
     (forall fuel, (length ds + 2 <= fuel)%nat ->
        exists st',
          iput_with IPB ISBLK (redirty i ds) fuel st (Some i) = Ok st'
          /\ inode_table st' !! i
             = Some (set_i_count
                       (set_i_dirt
                          (set_i_disk a (default (i_disk a) (last ds)))
                          false) 0)
          /\ disk_inode IPB st' (i_dev a) (i_num a)
             = Some (default (i_disk a) (last ds)))
     /\ (forall fuel, (fuel < length ds + 2)%nat ->
           iput_with IPB ISBLK (redirty i ds) fuel st (Some i) = Fuel))
  /\ (forall fuel,
        iput_with IPB ISBLK (redirty i []) fuel st (Some i)
        = iput IPB ISBLK fuel st (Some i))
  /\ (forall fuel st',
        iput IPB ISBLK fuel st (Some i) = Ok st' ->
        inode_table st' !! i = Some (set_i_count (set_i_dirt a false) 0)
        /\ disk_inode IPB st' (i_dev a) (i_num a) = Some (i_disk a)).
Proof.
  intros Ha Hl Hp Hdev Hc Hn Hdirt. split; [|split].
  - intros sb ds Hds Hsb Hdisk.
    destruct (iput_repeat_with_redirty ds i sb (length ds) Hds 0 st a)
      as [Htot Hfuel]; try done; [lia|].
    rewrite drop_0 in Htot. split.
    + intros fuel Hf. rewrite (iput_with_last _ fuel st i a) by done.
      by apply Htot.
    + intros fuel Hf. rewrite (iput_with_last _ fuel st i a) by done.
      by apply Hfuel.
  - intros fuel. apply iput_with_alone.
  - intros fuel st' Hrun.
    rewrite (iput_last_dirty_eq IPB ISBLK _ st i a) in Hrun by done.
    destruct fuel as [|fuel]; [done|].
    destruct (get_super st (i_dev a)) as [sb|] eqn:Hsb; [|done].
    destruct (bread st (i_dev a) _) as [data|] eqn:Hdata; [|done].
    destruct fuel as [|fuel]; [done|]. injection Hrun as <-. split.
    + simpl. apply list_lookup_insert_eq. by apply lookup_lt_Some in Ha.
    + by apply (disk_inode_written st (i_dev a) (i_num a) sb data).
Qed.

End WithConstants.

Lemma write_inode_read_inode_witness :
  exists st1,
    write_inode 32 example_dirty 0 = Ok st1
    /\ inode_table st1 !! 0%nat
       = Some (mk_m_inode (mk_d_inode 33188 0 0 0 0 1 (replicate 9 0))
                 false false false false 3 7 1)
    /\ read_inode 32 st1 0 = Ok st1.
Proof.
  eexists. split; [vm_compute; reflexivity|].
  apply (write_inode_read_inode 32 example_dirty _ 0
           (mk_m_inode (mk_d_inode 33188 0 0 0 0 1 (replicate 9 0))
              false true false false 3 7 1));
    first [reflexivity | discriminate | (vm_compute; reflexivity)].
Defined.

Lemma write_inode_keeps_other_records_witness :
  exists st1,
    write_inode 32 example_dirty 0 = Ok st1
    /\ (fun data : inode_block => data (inode_slot 32 8))
         <$> disk st1 3 (inode_block_nr 32 (mk_super_block 3 None 1 1) 8)
       = (fun data : inode_block => data (inode_slot 32 8))
         <$> disk example_dirty 3
               (inode_block_nr 32 (mk_super_block 3 None 1 1) 8).
Proof.
  eexists. split; [vm_compute; reflexivity|].
  apply (write_inode_keeps_other_records 32 example_dirty _ 0
           (mk_m_inode (mk_d_inode 33188 0 0 0 0 1 (replicate 9 0))
              false true false false 3 7 1) 3 8 (mk_super_block 3 None 1 1));
    first [reflexivity | discriminate | (vm_compute; reflexivity)
          | (right; discriminate)].
Defined.

Lemma get_empty_inode_writes_back_dirty_witness :
  exists st',
    get_empty_inode 32 2 example_released = Ok (st', 1%nat)
    /\ exists sb data,
        get_super example_released 3 = Some sb
        /\ disk st' 3 (inode_block_nr 32 sb 7) = Some data
        /\ data (inode_slot 32 7) = mk_d_inode 33188 0 5 0 0 1 (replicate 9 0).
Proof.
  eexists. split; [vm_compute; reflexivity|].
  eapply (get_empty_inode_writes_back_dirty 32 2 example_released _ 1
            (mk_m_inode (mk_d_inode 33188 0 5 0 0 1 (replicate 9 0))
               false true false false 3 7 0)); [|reflexivity|reflexivity].
  vm_compute. reflexivity.
Defined.

Lemma get_empty_inode_prefers_clean_witness :
  exists k,
    free_clean (inode_table example_dirty) k
    /\ get_empty_inode 32 1 example_dirty
       = Ok (set_inode (set_last_inode example_dirty k) k
               (set_i_count zero_inode 1), k).
Proof.
  apply (get_empty_inode_prefers_clean 32 0 example_dirty 1).
  exists zero_inode. repeat split.
Defined.

Lemma get_empty_inode_exhausted_witness :
  get_empty_inode 32 1 example_busy = Panic "No free inodes in mem"
  /\ forall dev nr, dev <> 0 ->
       iget 32 1 example_isblk 1 example_busy dev nr
       = Panic "No free inodes in mem".
Proof.
  apply (get_empty_inode_exhausted 32 1 example_isblk 0 example_busy).
  repeat constructor; discriminate.
Defined.

Lemma get_empty_inode_spares_entries_in_use_witness :
  (exists a, inode_table example_dirty !! 1%nat = Some a /\ i_count a = 0)
  /\ inode_table
       (set_inode (set_last_inode example_dirty 1) 1 (set_i_count zero_inode 1))
     !! 1%nat = Some (set_i_count zero_inode 1).
Proof.
  destruct (get_empty_inode_spares_entries_in_use 32 1 example_dirty
              (set_inode (set_last_inode example_dirty 1) 1
                 (set_i_count zero_inode 1)) 1 eq_refl)
    as (H1 & H2 & _).
  by split.
Defined.

Lemma iput_shared_decrements_witness :
  iput 32 example_isblk 1 example_busy (Some 1%nat)
  = Ok (set_inode example_busy 1
          (mk_m_inode (mk_d_inode 33188 0 0 0 0 1 (replicate 9 0))
             false false false false 3 8 1)).
Proof.
  apply (iput_shared_decrements 32 example_isblk 0 example_busy 1
           (mk_m_inode (mk_d_inode 33188 0 0 0 0 1 (replicate 9 0))
              false false false false 3 8 2));
    [reflexivity|reflexivity|simpl; lia].
Defined.

Lemma iget_loads_uncached_witness :
  iget 32 1 example_isblk 1 example_kernel 3 7
  = Ok (set_inode
          (set_inode (set_last_inode example_kernel 1) 1
             (set_i_count zero_inode 1)) 1
          (mk_m_inode (mk_d_inode 33188 0 0 0 0 1 (replicate 9 0))
             false false false false 3 7 1), Some 1%nat).
Proof.
  apply (iget_loads_uncached 32 1 example_isblk 1 example_kernel
           (set_inode (set_last_inode example_kernel 1) 1
              (set_i_count zero_inode 1)) 3 7 1
           (mk_super_block 3 None 1 1)
           (fun _ => mk_d_inode 33188 0 0 0 0 1 (replicate 9 0)));
    [discriminate|reflexivity| |reflexivity|reflexivity].
  intros [|[|j]] b Hb; [injection Hb as <-; discriminate ..|done].
Defined.

Lemma example_held_inv : inode_inv None example_held.
Proof.
  apply (reachable_inv 32 1 example_isblk example_kernel); [apply boot_inv|].
  eapply reach_step; [apply reach_start|].
  apply (step_iget 32 1 example_isblk _ _ 1%nat 3 7 (Some 1%nat)).
  vm_compute. reflexivity.
Qed.

Lemma iget_then_iput_restores_witness :
  exists st2,
    iget 32 1 example_isblk 1 example_held 3 7 = Ok (st2, Some 1%nat)
    /\ iput 32 example_isblk 1 st2 (Some 1%nat)
       = Ok (set_inode
               (set_inode (set_last_inode example_held 0) 0
                  (set_i_count zero_inode 1)) 0 zero_inode).
Proof.
  apply (iget_then_iput_restores 32 1 example_isblk 1 example_held _ 3 7 1 0
           (mk_m_inode (mk_d_inode 33188 0 0 0 0 1 (replicate 9 0))
              false false false false 3 7 1) example_held_inv);
    first [reflexivity | discriminate | (simpl; lia)].
Defined.

Lemma example_mounted_inv : inode_inv None example_mounted.
Proof.
  unfold inode_inv. split_and!.
  - intros [|[|[|i]]] [|[|[|j]]] a b Ha Hb; try done;
      injection Ha as <-; injection Hb as <-; simpl; done.
  - intros [|[|[|i]]] a Ha; try done; injection Ha as <-; simpl;
      (split_and!; [lia|done|done]).
  - intros i a sb _ _ Hin Him. simpl in Hin.
    apply elem_of_cons in Hin as [->|Hin]; [done|].
    apply elem_of_cons in Hin as [->|Hin]; [done|].
    by apply elem_of_nil in Hin.
Qed.

Lemma iget_crosses_mount_point_witness :
  iget 32 1 example_isblk 2 example_mounted 3 5
  = Ok (set_inode
          (set_inode
             (set_inode (set_last_inode example_mounted 2) 2
                (set_i_count zero_inode 1)) 1
             (mk_m_inode (mk_d_inode 16877 0 0 0 0 2 (replicate 9 0))
                false false false false 4 1 2)) 2 zero_inode, Some 1%nat).
Proof.
  apply (iget_crosses_mount_point 32 1 example_isblk 0 example_mounted _ 3 5
           0 1 2
           (mk_m_inode (mk_d_inode 16877 0 0 0 0 2 (replicate 9 0))
              false false false true 3 5 1)
           (mk_m_inode (mk_d_inode 16877 0 0 0 0 2 (replicate 9 0))
              false false false false 4 1 1)
           (mk_super_block 4 (Some 0%nat) 1 1) example_mounted_inv);
    first [reflexivity | discriminate | (simpl; lia)].
Defined.

Lemma iget_returns_entry_in_use_witness :
  exists r a',
    Some 1%nat = Some r
    /\ inode_table
         (set_inode
            (set_inode (set_last_inode example_kernel 1) 1
               (set_i_count zero_inode 1)) 1
            (mk_m_inode (mk_d_inode 33188 0 0 0 0 1 (replicate 9 0))
               false false false false 3 7 1)) !! r = Some a'
    /\ 1 <= i_count a' /\ i_dev a' <> 0.
Proof.
  apply (iget_returns_entry_in_use 32 1 example_isblk 1 example_kernel _ 3 7
           (Some 1%nat) (boot_inv 2 _ _)).
  vm_compute. reflexivity.
Defined.

Lemma iget_keeps_other_entries_witness :
  inode_table
    (set_inode
       (set_inode
          (set_inode (set_last_inode example_mounted 2) 2
             (set_i_count zero_inode 1)) 1
          (mk_m_inode (mk_d_inode 16877 0 0 0 0 2 (replicate 9 0))
             false false false false 4 1 2)) 2 zero_inode) !! 0%nat
  = Some (mk_m_inode (mk_d_inode 16877 0 0 0 0 2 (replicate 9 0))
            false false false true 3 5 1).
Proof.
  apply (iget_keeps_other_entries 32 1 example_isblk 2 example_mounted _ 3 5
           (Some 1%nat) 0 _ example_mounted_inv);
    first [reflexivity | discriminate | (vm_compute; reflexivity)].
Defined.

Lemma iput_touches_one_slot_witness :
  exists st',
    iput 32 example_isblk 1 example_busy (Some 1%nat) = Ok st'
    /\ inode_table st' !! 0%nat = inode_table example_busy !! 0%nat.
Proof.
  eexists. split; [vm_compute; reflexivity|].
  eapply (iput_touches_one_slot 32 example_isblk 1 example_busy _ 1);
    [vm_compute; reflexivity|discriminate].
Defined.

Lemma iput_after_invalidate_only_decrements_witness :
  exists st1,
    invalidate_inodes example_dirty 3 = Ok st1
    /\ iput 32 example_isblk 1 st1 (Some 0%nat)
       = Ok (set_inode st1 0
               (mk_m_inode (mk_d_inode 33188 0 0 0 0 1 (replicate 9 0))
                  false false false false 0 7 0))
    /\ disk st1 = disk example_dirty.
Proof.
  apply (iput_after_invalidate_only_decrements 32 example_isblk 1 example_dirty
           3 0 (mk_m_inode (mk_d_inode 33188 0 0 0 0 1 (replicate 9 0))
                  false true false false 3 7 1));
    first [reflexivity | discriminate | (repeat constructor)].
Defined.

Lemma example_dirty_inv : inode_inv None example_dirty.
Proof.
  unfold inode_inv. split_and!.
  - intros [|[|i]] [|[|j]] a b Ha Hb; try done;
      injection Ha as <-; injection Hb as <-; simpl; done.
  - intros [|[|i]] a Ha; try done; injection Ha as <-; simpl;
      (split_and!; [lia|done|done]).
  - intros i a sb _ _ Hin Him. simpl in Hin.
    apply elem_of_cons in Hin as [->|Hin]; [done|].
    by apply elem_of_nil in Hin.
Qed.

Lemma sync_inodes_writes_every_dirty_inode_witness :
  exists st',
    sync_inodes 32 example_dirty = Ok st'
    /\ inode_table st' = synced <$> inode_table example_dirty
    /\ disk_inode 32 st' 3 7
       = Some (mk_d_inode 33188 0 0 0 0 1 (replicate 9 0)).
Proof.
  eexists. split; [vm_compute; reflexivity|].
  destruct (sync_inodes_writes_every_dirty_inode 32 example_dirty _
              ltac:(discriminate) example_dirty_inv eq_refl)
    as (Ht & _ & Hdisk & _).
  split; [exact Ht|].
  apply (Hdisk 0%nat (mk_m_inode (mk_d_inode 33188 0 0 0 0 1 (replicate 9 0))
                        false true false false 3 7 1));
    first [reflexivity | discriminate].
Defined.

Lemma sync_inodes_returns_witness :
  exists st', sync_inodes 32 example_dirty = Ok st'.
Proof.
  apply (sync_inodes_returns 32 example_dirty).
  - repeat constructor.
  - intros [|[|j]] a Ha; [| |done]; injection Ha as <-; [|done].
    intros _ _ _. exists (mk_super_block 3 None 1 1). split; [done|].
    by eexists.
Defined.

Lemma iput_last_reference_writes_back_witness :
  exists st',
    iput_with 32 example_isblk
      (redirty 0 [mk_d_inode 33188 6 0 0 0 1 (replicate 9 0)]) 3
      example_modified (Some 0%nat) = Ok st'
    /\ inode_table st' !! 0%nat
       = Some (mk_m_inode (mk_d_inode 33188 6 0 0 0 1 (replicate 9 0))
                 false false false false 3 7 0)
    /\ disk_inode 32 st' 3 7 = Some (mk_d_inode 33188 6 0 0 0 1 (replicate 9 0))
    /\ iput_with 32 example_isblk
         (redirty 0 [mk_d_inode 33188 6 0 0 0 1 (replicate 9 0)]) 2
         example_modified (Some 0%nat) = Fuel.
Proof.
  destruct (iput_last_reference_writes_back 32 example_isblk example_modified
              0%nat
              (mk_m_inode (mk_d_inode 33188 5 0 0 0 1 (replicate 9 0))
                 false true false false 3 7 1))
    as [Hloop _]; try reflexivity; try (simpl; lia).
  destruct (Hloop (mk_super_block 3 None 1 1)
              [mk_d_inode 33188 6 0 0 0 1 (replicate 9 0)])
    as [Htot Hfuel].
  - repeat constructor.
  - reflexivity.
  - by eexists.
  - destruct (Htot 3%nat) as (st' & Hrun & Hent & Hdisk); [simpl; lia|].
    exists st'. split; [exact Hrun|]. split; [exact Hent|].
    split; [exact Hdisk|]. apply Hfuel. simpl. lia.
Defined.

End Inode_more.
